(** * trod.types._impl: typed SQL expression and schema-definition nodes

    A shallow embedding of [src/trod/types/_impl.py] and the properties
    its specification states about it.

    Conventions of the embedding.
    - Python values are the inductive types [atom] (scalars, raw-SQL
      literals, callables) and [value] (atoms, sequences, nodes).
    - [Expression] objects are the only objects the module mutates after
      construction ([Expression.__sql__] assigns [self.rhs]); they live in
      a heap and are referred to by address.  [Field] objects are mutated
      once by [Table.__init__]; that constructor is modelled over a store
      of fields.
    - A raised exception is the [Raise] outcome of a computation in the
      monad [M]; the state reached before the exception is kept, as in
      Python.
    - Strings are ASCII. *)

From Stdlib Require Import ZArith NArith Lia Bool Ascii.
From Stdlib Require Import Floats.SpecFloat.
From Stdlib Require Import DecimalString.
From stdpp Require Import gmap strings list fin_maps.

Set Warnings "-register-all".

Open Scope Z_scope.

(* ===================================================================== *)
(** * Exceptions and the state-and-exception monad                        *)
(* ===================================================================== *)

(** The exception classes the module raises or lets through.  [OutOfFuel]
    is not a Python exception: it is the outcome of a rendering whose
    recursion budget was too small (see [ctx_sql]). *)
Inductive exn : Type :=
| TypeError (msg : string)
| ValueError (msg : string)
| AttributeError (msg : string)
| ProgrammingError (msg : string)
| NoColumnNameError
| NoPKError (msg : string)
| InvalidOperation
| Overflow
| OverflowError (msg : string)
| OutOfFuel.

Inductive result (A : Type) : Type :=
| Ok (a : A)
| Raise (e : exn).
Arguments Ok {A} a.
Arguments Raise {A} e.

Definition is_ok {A} (r : result A) : bool :=
  match r with Ok _ => true | Raise _ => false end.

Definition M (S A : Type) : Type := S -> S * result A.

Definition ret {S A} (a : A) : M S A := fun s => (s, Ok a).

Definition bind {S A B} (m : M S A) (k : A -> M S B) : M S B :=
  fun s => match m s with
           | (s', Ok a) => k a s'
           | (s', Raise e) => (s', Raise e)
           end.

Definition raise {S A} (e : exn) : M S A := fun s => (s, Raise e).
Definition get {S} : M S S := fun s => (s, Ok s).
Definition modify {S} (f : S -> S) : M S unit := fun s => (f s, Ok tt).
Definition lift {S A} (r : result A) : M S A := fun s => (s, r).

(** [finally m c] runs [c] after [m] whether [m] raised or not, then
    propagates the outcome of [m]: the [__exit__] of a [with] block. *)
Definition finally {S A} (m : M S A) (c : S -> S) : M S A :=
  fun s => let '(s', r) := m s in (c s', r).

Declare Scope py_scope.
Delimit Scope py_scope with py.
Notation "x <- c1 ;; c2" := (bind c1 (fun x => c2))
  (at level 100, c1 at next level, right associativity) : py_scope.
Notation "c1 ;; c2" := (bind c1 (fun _ => c2))
  (at level 100, right associativity) : py_scope.

(** Binding on plain results (no state). *)
Definition rbind {A B} (r : result A) (k : A -> result B) : result B :=
  match r with Ok a => k a | Raise e => Raise e end.
Notation "'let?' x := r 'in' k" := (rbind r (fun x => k))
  (at level 100, x name, r at next level, k at level 100).

(* ===================================================================== *)
(** * Host values                                                         *)
(* ===================================================================== *)

(** [decimal.Decimal]: sign, coefficient and exponent, or a special value. *)
Inductive pydecimal : Type :=
| DFin (neg : bool) (coeff : N) (exp : Z)
| DInf (neg : bool)
| DNaN (neg : bool) (signalling : bool) (diag : N).

Inductive rounding_mode : Type :=
| ROUND_DOWN | ROUND_HALF_UP | ROUND_HALF_EVEN | ROUND_CEILING
| ROUND_FLOOR | ROUND_UP | ROUND_HALF_DOWN | ROUND_05UP.

Record pydate := { year : Z; month : Z; day : Z }.
Record pytime := { hour : Z; minute : Z; second : Z; microsecond : Z }.

(** Scalars, and the two kinds of object a field default may also be: a
    raw-SQL literal ([SQL], a [Node]) and a callable. *)
Inductive atom : Type :=
| ANone
| ABool (b : bool)
| AInt (n : Z)
| AFloat (x : spec_float)
| AStr (s : string)
| ABytes (b : list Byte.byte)
| ADecimal (d : pydecimal)
| AUuid (int : N)
| ADate (d : pydate)
| ATime (t : pytime)
| ADateTime (d : pydate) (t : pytime)
| ATimedelta (microseconds : Z)
| ASql (sql : string)
| ACallable (name : string).

(** [bool(a)], as [if a:] and [not a] evaluate it. *)
Definition atom_truthy (a : atom) : bool :=
  match a with
  | ANone => false
  | ABool b => b
  | AInt n => negb (n =? 0)
  | AFloat x => match x with S754_zero _ => false | _ => true end
  | AStr s => negb (String.eqb s "")
  | ABytes b => match b with [] => false | _ => true end
  | ADecimal d => match d with DFin _ 0%N _ => false | _ => true end
  | AUuid _ => true
  | ADate _ => true
  | ATime _ => true
  | ADateTime _ _ => true
  | ATimedelta us => negb (us =? 0)
  | ASql _ => true
  | ACallable _ => true
  end.

(** [isinstance(a, int)]: [bool] is a subclass of [int]. *)
Definition isinstance_int (a : atom) : bool :=
  match a with AInt _ | ABool _ => true | _ => false end.
Definition isinstance_str (a : atom) : bool :=
  match a with AStr _ => true | _ => false end.

(* ===================================================================== *)
(** * Fields, nodes and the expression heap                               *)
(* ===================================================================== *)

(** The concrete subclasses of [FieldBase]. *)
Inductive fclass : Type :=
| FTinyint | FSmallint | FInt | FBigint | FAuto | FBigAuto | FBool
| FFloat | FDouble | FDecimal | FText | FChar | FVarChar | FUUID | FIP
| FEmail | FURL | FDate | FTime | FDateTime | FTimestamp.

Inductive length_spec : Type :=
| LenInt (n : Z)
| LenPair (m d : Z).

(** What [Field.table] gives access to.  [Table.__init__] assigns [db] and
    [name] before it sets the back-reference and nothing in the module
    assigns them again, so the reference is modelled by these two
    attributes. *)
Record TableRef := { tr_db : option string; tr_name : string }.

(** The slots of a field object.  An option-typed slot is [None] when the
    class has no such attribute or it was never assigned, which is what
    [getattr(field, slot, None)] observes; [f_default = Some ANone] is an
    attribute holding Python's [None]. *)
Record Field := {
  f_class : fclass;
  f_null : bool;
  f_default : option atom;
  f_comment : string;
  f_name : option string;
  f_table : option TableRef;
  f_length : option length_spec;
  f_unsigned : option bool;
  f_zerofill : option bool;
  f_primary_key : option bool;
  f_auto : option bool;
  f_auto_round : bool;
  f_rounding : rounding_mode;
  f_encoding : option string;
  f_formats : list string;
  f_utc : bool
}.

(** [ColumnBase.OPERATOR]. *)
Inductive operator : Type :=
| AND | OR | ADD | SUB | MUL | DIV | BIN_AND | BIN_OR | XOR | MOD
| EQ | LT | LTE | GT | GTE | NE | IN | NOT_IN | IS | IS_NOT | LIKE | ILIKE
| EXISTS | NEXISTS | BETWEEN | NBETWEEN | REGEXP | IREGEXP
| BITWISE_NEGATION | CONCAT.

Definition OPERATOR (o : operator) : string :=
  match o with
  | AND => "AND" | OR => "OR" | ADD => "+" | SUB => "-" | MUL => "*"
  | DIV => "/" | BIN_AND => "&" | BIN_OR => "|" | XOR => "#" | MOD => "%"
  | EQ => "=" | LT => "<" | LTE => "<=" | GT => ">" | GTE => ">="
  | NE => "!=" | IN => "IN" | NOT_IN => "NOT IN" | IS => "IS"
  | IS_NOT => "IS NOT" | LIKE => "LIKE BINARY" | ILIKE => "LIKE"
  | EXISTS => "EXISTS" | NEXISTS => "NOT EXISTS" | BETWEEN => "BETWEEN"
  | NBETWEEN => "NOT BETWEEN" | REGEXP => "REGEXP BINARY"
  | IREGEXP => "REGEXP" | BITWISE_NEGATION => "~" | CONCAT => "||"
  end.

Definition loc := positive.

(** [SEQUENCE = (list, tuple, set, frozenset)]. *)
Inductive seqkind : Type := KList | KTuple | KSet | KFrozenset.

(** Python values as the module handles them.  [VExpr l] is a reference to
    the [Expression] object at address [l]; the other nodes are immutable
    and carried by value.  The items of a set are listed in its iteration
    order. *)
Inductive value : Type :=
| VAtom (a : atom)
| VSeq (k : seqkind) (items : list value)
| VField (f : Field)
| VOrdering (node : value) (key : string)
| VAlias (node : value) (alias : string)
| VExpr (l : loc)
| VFunc (func : string) (node : value)
| VNodeList (nodes : list value) (glue : string) (parens : bool).

Definition None_ : value := VAtom ANone.

(** [class Expression(Column)], and [StrExpression] when [strexpr]. *)
Record Expression := {
  lhs : value;
  op : operator;
  rhs : value;
  parens : bool;
  strexpr : bool
}.

Abbreviation heap := (gmap loc Expression).

(** [EnclosedNodeList(nodes)]: a comma list in parentheses. *)
Definition EnclosedNodeList (nodes : list value) : value :=
  VNodeList nodes ", " true.

(** [v is None]. *)
Definition is_None (v : value) : bool :=
  match v with VAtom ANone => true | _ => false end.

(** [isinstance(v, SEQUENCE)]. *)
Definition is_sequence (v : value) : bool :=
  match v with VSeq _ _ => true | _ => false end.

(** [isinstance(v, Node)]. *)
Definition is_Node (v : value) : bool :=
  match v with
  | VAtom (ASql _) => true
  | VAtom _ | VSeq _ _ => false
  | _ => true
  end.

(** [isinstance(v, Column)]: fields, orderings, aliases and expressions.
    [Func] and the helper nodes are nodes but not columns. *)
Definition is_Column (v : value) : bool :=
  match v with
  | VField _ | VOrdering _ _ | VAlias _ _ | VExpr _ => true
  | _ => false
  end.

(** [isinstance(v, FieldBase)]. *)
Definition is_FieldBase (v : value) : option Field :=
  match v with VField f => Some f | _ => None end.

(** [tuple(v)] for a sequence [v]. *)
Definition tuple (v : value) : value :=
  match v with VSeq _ items => VSeq KTuple items | _ => v end.

(* --------------------------------------------------------------------- *)
(** ** Building expressions: the operators of [ColumnBase]                *)
(* --------------------------------------------------------------------- *)

(** [Expression(lhs, op, rhs)]: a new object at an address not in use;
    no existing object is written. *)
Definition Expression_new (is_str : bool) (l : value) (o : operator)
    (r : value) : M heap value :=
  fun h =>
    let a := fresh (dom h) in
    (<[a := {| lhs := l; op := o; rhs := r; parens := true;
               strexpr := is_str |}]> h, Ok (VExpr a)).

Definition __and__ (self r : value) := Expression_new false self AND r.
Definition __rand__ (self l : value) := Expression_new false l AND self.
Definition __or__ (self r : value) := Expression_new false self OR r.
Definition __ror__ (self l : value) := Expression_new false l OR self.
Definition __lt__ (self r : value) := Expression_new false self LT r.
Definition __le__ (self r : value) := Expression_new false self LTE r.
Definition __gt__ (self r : value) := Expression_new false self GT r.
Definition __ge__ (self r : value) := Expression_new false self GTE r.
Definition __lshift__ (self r : value) := Expression_new false self IN r.
Definition __rshift__ (self r : value) := Expression_new false self IS r.

Definition __eq__ (self r : value) : M heap value :=
  let o := if is_None r then IS else EQ in
  Expression_new false self o r.

Definition __ne__ (self r : value) : M heap value :=
  let o := if is_None r then IS_NOT else NE in
  Expression_new false self o r.

Definition in_ (self r : value) := Expression_new false self IN r.
Definition nin_ (self r : value) := Expression_new false self NOT_IN r.
Definition exists_ (self r : value) := Expression_new false self EXISTS r.
Definition nexists (self r : value) := Expression_new false self NEXISTS r.

Definition isnull (self : value) (is_null : bool) : M heap value :=
  let o := if is_null then IS else IS_NOT in
  Expression_new false self o None_.

Definition concat (self r : value) := Expression_new true self CONCAT r.

Definition asc (self : value) : value := VOrdering self "ASC".
Definition desc (self : value) : value := VOrdering self "DESC".

(** [as_]: an empty alias returns the node itself. *)
Definition as_ (self : value) (alias : string) : value :=
  if String.eqb alias "" then self else VAlias self alias.

(* ===================================================================== *)
(** * [decimal.Decimal]                                                   *)
(* ===================================================================== *)

(** The part of the standard [decimal] module that [Decimal.db_value]
    reaches: construction from a string or an integer, the exponent of
    [Decimal(10) ** (-d)], and [quantize].  The arithmetic context is the
    interpreter's default one, which the module never changes. *)
Module Dec.

Definition prec : Z := 28.
Definition Emax : Z := 999999.
Definition Emin : Z := -999999.
Definition Etiny : Z := Emin - prec + 1.

Definition code (c : ascii) : N := N_of_ascii c.

Definition is_digit (c : ascii) : bool :=
  ((48 <=? code c) && (code c <=? 57))%N.

(** The ASCII characters [str.strip()] removes. *)
Definition is_space (c : ascii) : bool :=
  (((9 <=? code c) && (code c <=? 13))
   || ((28 <=? code c) && (code c <=? 32)))%N.

Definition lower (c : ascii) : ascii :=
  if ((65 <=? code c) && (code c <=? 90))%N
  then ascii_of_N (code c + 32) else c.

Definition strip (l : list ascii) : list ascii :=
  let drop := fix drop (l : list ascii) :=
    match l with
    | c :: l' => if is_space c then drop l' else l
    | [] => []
    end in
  rev (drop (rev (drop l))).

Fixpoint span_digits (l : list ascii) : list ascii * list ascii :=
  match l with
  | c :: l' =>
      if is_digit c
      then let '(ds, rest) := span_digits l' in (c :: ds, rest)
      else ([], l)
  | [] => ([], [])
  end.

Definition digits_to_N (ds : list ascii) : N :=
  fold_left (fun acc c => (acc * 10 + (code c - 48))%N) ds 0%N.

Definition take_sign (l : list ascii) : bool * list ascii :=
  match l with
  | "-"%char :: l' => (true, l')
  | "+"%char :: l' => (false, l')
  | _ => (false, l)
  end.

(** The optional exponent part (the letter E, an optional sign, one or
    more digits) followed by the end of the string. *)
Definition parse_exponent (l : list ascii) : option Z :=
  match l with
  | [] => Some 0
  | c :: l' =>
      if Ascii.eqb (lower c) "e" then
        let '(sg, l'') := take_sign l' in
        match span_digits l'' with
        | (d :: ds, []) =>
            let n := Z.of_N (digits_to_N (d :: ds)) in
            Some (if sg then - n else n)
        | _ => None
        end
      else None
  end.

(** Digits, an optional point and more digits, an optional exponent;
    at least one digit in the integer or the fractional part. *)
Definition parse_finite (sg : bool) (l : list ascii) : option pydecimal :=
  let '(ip, rest) := span_digits l in
  let '(fp, rest') :=
    match rest with
    | "."%char :: r => span_digits r
    | _ => ([], rest)
    end in
  match ip, fp with
  | [], [] => None
  | _, _ =>
      match parse_exponent rest' with
      | Some e =>
          Some (DFin sg (digits_to_N (ip ++ fp)) (e - Z.of_nat (length fp)))
      | None => None
      end
  end.

Definition parse_special (sg : bool) (l : list ascii) : option pydecimal :=
  let low := String.string_of_list_ascii (map lower l) in
  if String.eqb low "inf" || String.eqb low "infinity" then Some (DInf sg)
  else
    let '(signal, l') :=
      match l with
      | c :: r => if Ascii.eqb (lower c) "s" then (true, r) else (false, l)
      | [] => (false, l)
      end in
    match l' with
    | n1 :: a :: n2 :: r =>
        if String.eqb (String.string_of_list_ascii (map lower [n1; a; n2]))
             "nan"
        then match span_digits r with
             | (ds, []) => Some (DNaN sg signal (digits_to_N ds))
             | _ => None
             end
        else None
    | _ => None
    end.

(** [decimal.Decimal(s)] for a string [s]: surrounding white space and
    every underscore are dropped, then the numeric-string syntax is
    matched; a string that does not match raises [InvalidOperation]. *)
Definition of_string (s : string) : result pydecimal :=
  let l := filter (fun c => negb (Ascii.eqb c "_"))
             (strip (String.list_ascii_of_string s)) in
  let '(sg, body) := take_sign l in
  match parse_finite sg body with
  | Some d => Ok d
  | None =>
      match parse_special sg body with
      | Some d => Ok d
      | None => Raise InvalidOperation
      end
  end.

(** [decimal.Decimal(n)] for an integer [n]. *)
Definition of_int (n : Z) : pydecimal := DFin (n <? 0) (Z.abs_N n) 0.

(** Number of decimal digits of a coefficient ([len(self._int)]). *)
Definition ndigits (c : N) : Z :=
  Z.of_nat (Decimal.nb_digits (N.to_uint c)).

(** [self.adjusted()] of a finite decimal. *)
Definition adjusted (c : N) (e : Z) : Z := e + ndigits c - 1.

(** The exponent of [Decimal(10) ** (-d)]: the power is exact while it
    fits the context, is rounded to [prec] digits above it, underflows to
    a zero at [Etiny] below it, and overflows above [Emax]. *)
Definition pow10_exp (d : Z) : result Z :=
  if 0 <=? d then Ok (- Z.min d (- Etiny))
  else if Emax <? - d then Raise Overflow
  else Ok (Z.max 0 (- d - (prec - 1))).

(** Whether [_rescale] adds one to the truncated coefficient [q], given
    the remainder [r] of the [k] dropped digits. *)
Definition round_up (mode : rounding_mode) (neg : bool) (q r : N) (k : Z)
    : bool :=
  let half := (5 * 10 ^ Z.to_N (k - 1))%N in
  let inexact := negb (r =? 0)%N in
  match mode with
  | ROUND_DOWN => false
  | ROUND_UP => inexact
  | ROUND_HALF_UP => (half <=? r)%N
  | ROUND_HALF_DOWN => (half <? r)%N
  | ROUND_HALF_EVEN => (half <? r)%N || ((r =? half)%N && N.odd q)
  | ROUND_CEILING => if neg then false else inexact
  | ROUND_FLOOR => if neg then inexact else false
  | ROUND_05UP =>
      if ((q mod 10 =? 0) || (q mod 10 =? 5))%N then inexact else false
  end.

(** [self._rescale(texp, rounding)] for a finite non-zero [self]. *)
Definition rescale (mode : rounding_mode) (neg : bool) (c : N) (e texp : Z)
    : N :=
  if texp <=? e then (c * 10 ^ Z.to_N (e - texp))%N
  else
    let k := texp - e in
    let q := (c / 10 ^ Z.to_N k)%N in
    let r := (c mod 10 ^ Z.to_N k)%N in
    if round_up mode neg q r k then (q + 1)%N else q.

(** [self.quantize(exp, rounding=mode)] where [texp] is the exponent of
    [exp], a finite decimal. *)
Definition quantize (mode : rounding_mode) (d : pydecimal) (texp : Z)
    : result pydecimal :=
  match d with
  | DNaN sg true _ => Raise InvalidOperation
  | DNaN sg false diag =>
      Ok (DNaN sg false (diag mod 10 ^ Z.to_N prec)%N)
  | DInf _ => Raise InvalidOperation
  | DFin sg c e =>
      if negb ((Etiny <=? texp) && (texp <=? Emax)) then
        Raise InvalidOperation
      else if (c =? 0)%N then Ok (DFin sg 0 texp)
      else if Emax <? adjusted c e then Raise InvalidOperation
      else if prec <? adjusted c e - texp + 1 then Raise InvalidOperation
      else
        let c' := rescale mode sg c e texp in
        if Emax <? adjusted c' texp then Raise InvalidOperation
        else if prec <? ndigits c' then Raise InvalidOperation
        else Ok (DFin sg c' texp)
  end.

(** [a == b] on finite decimals: numerical equality. *)
Definition eqb (a b : pydecimal) : bool :=
  match a, b with
  | DFin sa ca ea, DFin sb cb eb =>
      let m := Z.min ea eb in
      let va := (Z.of_N ca * 10 ^ (ea - m)) in
      let vb := (Z.of_N cb * 10 ^ (eb - m)) in
      ((if sa then - va else va) =? (if sb then - vb else vb))
  | DInf sa, DInf sb => Bool.eqb sa sb
  | _, _ => false
  end.

End Dec.

(* ===================================================================== *)
(** * [uuid.UUID]                                                         *)
(* ===================================================================== *)

(** The standard [uuid.UUID] as [UUID.db_value] and [UUID.py_value] use
    it: a 128-bit integer built from a hexadecimal string or from 16
    bytes, and its [hex] attribute. *)
Module Uuid.

Fixpoint is_prefix (p l : list ascii) : option (list ascii) :=
  match p, l with
  | [], _ => Some l
  | a :: p', b :: l' => if Ascii.eqb a b then is_prefix p' l' else None
  | _ :: _, [] => None
  end.

(** [s.replace(pat, '')] for a non-empty [pat]: the occurrences are
    removed from left to right, without overlap. *)
Fixpoint remove_fuel (n : nat) (pat l : list ascii) : list ascii :=
  match n with
  | O => l
  | S n' =>
      match l with
      | [] => []
      | c :: l' =>
          match is_prefix pat l with
          | Some rest => remove_fuel n' pat rest
          | None => c :: remove_fuel n' pat l'
          end
      end
  end.

Definition remove (pat : string) (l : list ascii) : list ascii :=
  remove_fuel (S (length l)) (String.list_ascii_of_string pat) l.

(** [s.strip('{}')]. *)
Definition strip_braces (l : list ascii) : list ascii :=
  let brace c := Ascii.eqb c "{" || Ascii.eqb c "}" in
  let drop := fix drop (l : list ascii) :=
    match l with
    | c :: l' => if brace c then drop l' else l
    | [] => []
    end in
  rev (drop (rev (drop l))).

(** The normalisation [UUID.__init__] applies to its [hex] argument. *)
Definition normalize (s : string) : string :=
  String.string_of_list_ascii
    (remove "-" (strip_braces
       (remove "uuid:" (remove "urn:" (String.list_ascii_of_string s))))).

Definition hex_digit (n : N) : ascii :=
  if (n <? 10)%N then ascii_of_N (48 + n) else ascii_of_N (87 + n).

Fixpoint hex_fuel (k : nat) (n : N) (acc : list ascii) : list ascii :=
  match k with
  | O => acc
  | S k' => hex_fuel k' (n / 16)%N (hex_digit (n mod 16)%N :: acc)
  end.

(** [u.hex]: 32 lower-case hexadecimal digits. *)
Definition hex (int : N) : string :=
  String.string_of_list_ascii (hex_fuel 32 int []).

(** [int.from_bytes(b, 'big')]. *)
Definition of_bytes (b : list Byte.byte) : N :=
  fold_left (fun acc x => (acc * 256 + Byte.to_N x)%N) b 0%N.

End Uuid.

(* ===================================================================== *)
(** * The interpreter and the sibling modules                             *)
(* ===================================================================== *)

Inductive extractor : Type := ExNone | ExDate | ExTime.

(** What the conversions take from outside [_impl.py]: built-ins of the
    interpreter and of its standard library, and the functions of the
    package's [adapter] and [validator] modules.  They are parameters of
    the development; every theorem holds for all of them. *)
Class Runtime := {
  (** [str(a)] for an atom that is not a string, and [repr(a)] *)
  rt_str : atom -> string;
  rt_repr : atom -> string;
  (** [int(a)], [float(a)], [datetime.datetime(a)] *)
  rt_int : atom -> result atom;
  rt_float : atom -> result atom;
  rt_datetime : atom -> result atom;
  (** [decimal.Decimal(a)] for an atom that is neither a string, an
      integer nor a decimal *)
  rt_Decimal : atom -> result atom;
  (** [int(s, 16)] *)
  rt_int16 : string -> result Z;
  (** [int(round(a))] *)
  rt_int_round : atom -> result atom;
  (** [datetime.datetime.utcfromtimestamp] ([true]) and [fromtimestamp] *)
  rt_fromtimestamp : bool -> atom -> result atom;
  (** [(datetime.datetime.min + delta).time()] *)
  rt_timedelta_time : Z -> result atom;
  (** [adapter.iptoint], [adapter.iptostr] *)
  iptoint : string -> result atom;
  iptostr : atom -> result atom;
  (** [adapter.format_datetime], [adapter.simple_datetime],
      [adapter.dt_strftime] *)
  format_datetime : string -> list string -> extractor -> result atom;
  simple_datetime : atom -> result atom;
  dt_strftime : atom -> list string -> result string;
  (** the truth value of [validator.is_email], [validator.is_url] *)
  is_email : string -> bool;
  is_url : string -> bool;
  (** the alias [Context.table_alias] gives a table name *)
  alias_of_table : string -> string
}.

Section Conversions.
Context {rt : Runtime}.

(** [str(a)]. *)
Definition py_str (a : atom) : string :=
  match a with AStr s => s | _ => rt_str a end.

(** [repr(a)]. *)
Definition py_repr (a : atom) : string := rt_repr a.

(** [uuid.UUID(a)], the call with one positional argument ([hex]). *)
Definition uuid_UUID (a : atom) : result N :=
  match a with
  | ANone =>
      Raise (TypeError
        "one of the hex, bytes, bytes_le, fields, or int arguments must be given")
  | AStr s =>
      let h := Uuid.normalize s in
      if negb (String.length h =? 32)%nat then
        Raise (ValueError "badly formed hexadecimal UUID string")
      else
        let? n := rt_int16 h in
        if (0 <=? n) && (n <? 2 ^ 128) then Ok (Z.to_N n)
        else Raise (ValueError "int is out of range (need a 128-bit value)")
  | ABytes _ => Raise (TypeError "a bytes-like object is required, not 'str'")
  | _ => Raise (AttributeError "object has no attribute 'replace'")
  end.

(** [uuid.UUID(bytes=b)] for 16 bytes. *)
Definition uuid_of_bytes (b : list Byte.byte) : atom :=
  AUuid (Uuid.of_bytes b).

(** [isinstance(a, str) and len(a) == 32],
    [isinstance(a, bytes) and len(a) == 16]. *)
Definition is_str32 (a : atom) : bool :=
  match a with AStr s => (String.length s =? 32)%nat | _ => false end.

Definition is_bytes16 (a : atom) : option (list Byte.byte) :=
  match a with
  | ABytes b => if (length b =? 16)%nat then Some b else None
  | _ => None
  end.

(** [decimal.Decimal(a)]. *)
Definition py_Decimal (a : atom) : result atom :=
  match a with
  | AStr s => let? d := Dec.of_string s in Ok (ADecimal d)
  | AInt n => Ok (ADecimal (Dec.of_int n))
  | ABool b => Ok (ADecimal (Dec.of_int (if b then 1 else 0)))
  | ADecimal d => Ok (ADecimal d)
  | _ => rt_Decimal a
  end.

(** The class attribute [py_type], called on a value. *)
Definition py_type (c : fclass) (a : atom) : result atom :=
  match c with
  | FTinyint | FSmallint | FInt | FBigint | FAuto | FBigAuto => rt_int a
  | FBool => Ok (ABool (atom_truthy a))
  | FFloat | FDouble => rt_float a
  | FDecimal => py_Decimal a
  | FText | FChar | FVarChar | FEmail | FURL | FIP => Ok (AStr (py_str a))
  | FUUID => let? u := uuid_UUID a in Ok (AUuid u)
  | FDate | FTime => Raise (TypeError "'tuple' object is not callable")
  | FDateTime | FTimestamp => rt_datetime a
  end.

(** The name of the class, [self.__class__.__name__]. *)
Definition class_name (c : fclass) : string :=
  match c with
  | FTinyint => "Tinyint" | FSmallint => "Smallint" | FInt => "Int"
  | FBigint => "Bigint" | FAuto => "Auto" | FBigAuto => "BigAuto"
  | FBool => "Bool" | FFloat => "Float" | FDouble => "Double"
  | FDecimal => "Decimal" | FText => "Text" | FChar => "Char"
  | FVarChar => "VarChar" | FUUID => "UUID" | FIP => "IP"
  | FEmail => "Email" | FURL => "URL" | FDate => "Date" | FTime => "Time"
  | FDateTime => "DateTime" | FTimestamp => "Timestamp"
  end.

(** [FieldBase.adapt]. *)
Definition FieldBase_adapt (f : Field) (v : atom) : result atom :=
  match py_type (f_class f) v with
  | Raise (ValueError _) =>
      Raise (ValueError ("Iillegal value " +:+ py_repr v +:+ " for "
                         +:+ class_name (f_class f) +:+ " Field"))
  | r => r
  end.

(** [Email.adapt] and [URL.adapt], which differ by the validator. *)
Definition validated_adapt (valid : string -> bool) (what : string)
    (f : Field) (v : atom) : result atom :=
  match v with
  | ANone => Ok v
  | _ =>
      let v' := if isinstance_str v then v else AStr (py_str v) in
      if negb (atom_truthy v') then Ok v'
      else if negb (valid (py_str v')) then
        Raise (ValueError ("Invalid value(" +:+ py_repr v' +:+ ") for "
                           +:+ what +:+ " Field"))
      else Ok v'
  end.

Definition Email_adapt := validated_adapt is_email "Email".
Definition URL_adapt := validated_adapt is_url "URL".

Definition Date_adapt (f : Field) (v : atom) : result atom :=
  match v with
  | AStr s =>
      if atom_truthy v then format_datetime s (f_formats f) ExDate
      else Ok v
  | ADateTime d _ => Ok (ADate d)
  | _ => Ok v
  end.

Definition Time_adapt (f : Field) (v : atom) : result atom :=
  let? v' :=
    (if atom_truthy v then
       match v with
       | AStr s => format_datetime s (f_formats f) ExTime
       | ADateTime _ t => Ok (ATime t)
       | _ => Ok v
       end
     else Ok v) in
  match v' with
  | ATimedelta us => rt_timedelta_time us
  | _ => Ok v'
  end.

Definition DateTime_adapt (f : Field) (v : atom) : result atom :=
  match v with
  | AStr s =>
      if atom_truthy v then format_datetime s (f_formats f) ExNone
      else Ok v
  | _ => Ok v
  end.

(** [self.adapt], resolved along the class hierarchy. *)
Definition adapt (f : Field) (v : atom) : result atom :=
  match f_class f with
  | FEmail => Email_adapt f v
  | FURL => URL_adapt f v
  | FDate => Date_adapt f v
  | FTime => Time_adapt f v
  | FDateTime => DateTime_adapt f v
  | _ => FieldBase_adapt f v
  end.

(** [FieldBase.py_value] and [FieldBase.db_value]. *)
Definition FieldBase_py_value (f : Field) (v : atom) : result atom :=
  match v with ANone => Ok v | _ => adapt f v end.

Definition FieldBase_db_value (f : Field) (v : atom) : result atom :=
  match v with ANone => Ok v | _ => adapt f v end.

(** The scale [self.length[1]] of a decimal field. *)
Definition scale (f : Field) : result Z :=
  match f_length f with
  | Some (LenPair _ d) => Ok d
  | _ => Raise (TypeError "object is not subscriptable")
  end.

(** [Decimal.db_value]. *)
Definition Decimal_db_value (f : Field) (v : atom) : result atom :=
  if negb (atom_truthy v) then
    match v with
    | ANone => Ok v
    | _ => Ok (ADecimal (Dec.of_int 0))
    end
  else if f_auto_round f then
    let? d := scale f in
    let? texp := Dec.pow10_exp d in
    let? x := Dec.of_string (py_str v) in
    let? q := Dec.quantize (f_rounding f) x texp in
    Ok (ADecimal q)
  else
    let? x := Dec.of_string (py_str v) in Ok (ADecimal x).

(** [Decimal.py_value]. *)
Definition Decimal_py_value (f : Field) (v : atom) : result atom :=
  match v with
  | ANone => Ok ANone
  | ADecimal _ => Ok v
  | _ => let? x := Dec.of_string (py_str v) in Ok (ADecimal x)
  end.

(** [UUID.db_value].  The final [except Exception: return value] turns
    every failure of the constructor into the value itself. *)
Definition UUID_db_value (f : Field) (v : atom) : result atom :=
  if is_str32 v then Ok v
  else
    let v := match is_bytes16 v with
             | Some b => uuid_of_bytes b
             | None => v
             end in
    match v with
    | AUuid u => Ok (AStr (Uuid.hex u))
    | _ =>
        match uuid_UUID v with
        | Ok u => Ok (AStr (Uuid.hex u))
        | Raise _ => Ok v
        end
    end.

(** A value [UUID.db_value] has no conversion for: not a string of 32
    characters, not 16 bytes, not a [uuid.UUID], and rejected by the
    [uuid.UUID] constructor. *)
Definition malformed_uuid (v : atom) : Prop :=
  is_str32 v = false /\ is_bytes16 v = None /\
  (forall u, v <> AUuid u) /\ exists e, uuid_UUID v = Raise e.

(** [UUID.py_value]. *)
Definition UUID_py_value (f : Field) (v : atom) : result atom :=
  match v with
  | AUuid _ => Ok v
  | ANone => Ok ANone
  | _ => let? u := uuid_UUID v in Ok (AUuid u)
  end.

(** [IP.db_value]. *)
Definition IP_db_value (f : Field) (v : atom) : result atom :=
  match v with
  | ANone => Ok v
  | _ => iptoint (py_str v)
  end.

(** [IP.py_value]. *)
Definition IP_py_value (f : Field) (v : atom) : result atom :=
  match v with
  | ANone => Ok v
  | _ =>
      if isinstance_int v then iptostr v
      else match v with
           | AStr s =>
               if negb (atom_truthy v) then Ok v
               else let? _ := iptoint s in Ok v
           | _ => Raise (TypeError ("Invalid type(" +:+ py_repr v
                                    +:+ ") for IP Field"))
           end
  end.

(** [Timestamp.db_value]. *)
Definition Timestamp_db_value (f : Field) (v : atom) : result atom :=
  match v with
  | ANone => Ok v
  | ADateTime _ _ => Ok v
  | ADate d =>
      Ok (ADateTime d {| hour := 0; minute := 0; second := 0;
                         microsecond := 0 |})
  | AStr _ => simple_datetime v
  | _ => let? n := rt_int_round v in rt_fromtimestamp (f_utc f) n
  end.

(** [Timestamp.py_value]. *)
Definition Timestamp_py_value (f : Field) (v : atom) : result atom :=
  match v with
  | ANone => Ok v
  | AInt _ | ABool _ | AFloat _ => rt_fromtimestamp (f_utc f) v
  | _ => simple_datetime v
  end.

(** [self.py_value] and [self.db_value], resolved along the class
    hierarchy: [Decimal], [UUID], [IP] and [Timestamp] override them. *)
Definition py_value (f : Field) (v : atom) : result atom :=
  match f_class f with
  | FDecimal => Decimal_py_value f v
  | FUUID => UUID_py_value f v
  | FIP => IP_py_value f v
  | FTimestamp => Timestamp_py_value f v
  | _ => FieldBase_py_value f v
  end.

Definition db_value (f : Field) (v : atom) : result atom :=
  match f_class f with
  | FDecimal => Decimal_db_value f v
  | FUUID => UUID_db_value f v
  | FIP => IP_db_value f v
  | FTimestamp => Timestamp_db_value f v
  | _ => FieldBase_db_value f v
  end.

(** [Timestamp.FORMATS]. *)
Definition Timestamp_FORMATS : list string :=
  ["%Y-%m-%d %H:%M:%S"; "%Y-%m-%d %H:%M:%S.%f"].

(** [self.to_str]: [FieldBase.to_str] and its overrides in [Bool],
    [Date] (inherited by [Time] and [DateTime]) and [Timestamp]. *)
Definition to_str (f : Field) (v : atom) : result string :=
  match f_class f with
  | FBool =>
      let? b := py_value f v in
      Ok (if atom_truthy b then "1" else "0")
  | FDate | FTime | FDateTime =>
      let? d := db_value f v in dt_strftime d (f_formats f)
  | FTimestamp =>
      let? d := db_value f v in dt_strftime d Timestamp_FORMATS
  | _ =>
      match v with
      | ANone => Raise (ValueError "None value")
      | _ => let? d := db_value f v in Ok (py_str d)
      end
  end.

End Conversions.

(* ===================================================================== *)
(** * Column definitions: [FieldDDL]                                      *)
(* ===================================================================== *)

(** [NULL = 'null']: the sentinel [_parse_options] substitutes for a
    missing [default] attribute. *)
Definition NULL : atom := AStr "null".

(** [str(n)] for an integer. *)
Definition str_of_Z (n : Z) : string := NilZero.string_of_int (Z.to_int n).

(** The class attribute [db_type]. *)
Definition db_type (c : fclass) : string :=
  match c with
  | FTinyint => "tinyint" | FSmallint => "smallint"
  | FInt | FAuto => "int"
  | FBigint | FBigAuto | FIP => "bigint"
  | FBool => "bool" | FFloat => "float" | FDouble => "double"
  | FDecimal => "decimal" | FText => "text" | FChar => "char"
  | FVarChar | FEmail | FURL => "varchar"
  | FUUID => "varchar(40)"
  | FDate => "date" | FTime => "time" | FDateTime => "datetime"
  | FTimestamp => "timestamp"
  end.

(** The property [FieldBase.column]. *)
Definition column (f : Field) : result string :=
  match f_name f with
  | Some n => if String.eqb n "" then Raise NoColumnNameError
              else Ok ("`" +:+ n +:+ "`")
  | None => Raise NoColumnNameError
  end.

(** The [tdict] built by [FieldDDL._parse_options]. *)
Record options := {
  o_auto : option bool;
  o_unsigned : option bool;
  o_zerofill : option bool;
  o_encoding : option string;
  o_default : atom;
  o_allow_null : bool;
  o_comment : string;
  o_adapt : atom -> result string
}.

Definition option_truthy (o : option bool) : bool :=
  match o with Some b => b | None => false end.

Definition atom_eqb_str (a : atom) (s : string) : bool :=
  match a with AStr x => String.eqb x s | _ => false end.

Section DDL.
Context {rt : Runtime}.

Definition _parse_options (f : Field) : options :=
  {| o_auto := f_auto f;
     o_unsigned := f_unsigned f;
     o_zerofill := f_zerofill f;
     o_encoding := f_encoding f;
     o_default := match f_default f with Some d => d | None => NULL end;
     o_allow_null := f_null f;
     o_comment := f_comment f;
     o_adapt := to_str f |}.

(** The local function [to_default_sql] of [_parse_default]. *)
Definition to_default_sql (ops : options) (d : atom)
    : result (option string) :=
  match d with
  | ASql sql => Ok (Some ("DEFAULT " +:+ sql))
  | ACallable _ => Ok None
  | _ => let? s := o_adapt ops d in Ok (Some ("DEFAULT '" +:+ s +:+ "'"))
  end.

(** [FieldDDL._parse_default]: the text of the clause. *)
Definition _parse_default (ops : options) (dbt : string)
    : result (option string) :=
  if option_truthy (o_auto ops) then Ok (Some "NOT NULL AUTO_INCREMENT")
  else if o_allow_null ops then
    match o_default ops with
    | ANone =>
        Ok (Some (if String.eqb dbt "timestamp" then "NULL DEFAULT NULL"
                  else "DEFAULT NULL"))
    | d =>
        if atom_eqb_str d "null" then Ok (Some "NULL")
        else
          let? ds := to_default_sql ops d in
          match ds with
          | Some x => Ok (Some x)
          | None =>
              Ok (Some (if String.eqb dbt "timestamp"
                        then "NULL DEFAULT NULL" else "DEFAULT NULL"))
          end
    end
  else
    match o_default ops with
    | ANone => Ok (Some "NOT NULL")
    | d =>
        if atom_eqb_str d "null" then Ok (Some "NOT NULL")
        else
          let? ds := to_default_sql ops d in
          match ds with
          | Some x =>
              if String.eqb x "" then Ok (Some "NOT NULL")
              else Ok (Some ("NOT NULL" +:+ " " +:+ x))
          | None => Ok (Some "NOT NULL")
          end
    end.

(** [FieldDDL._parse_type]. *)
Definition _parse_type (f : Field) : string :=
  match f_length f with
  | Some (LenPair m d) =>
      if d =? 0 then db_type (f_class f) +:+ "(" +:+ str_of_Z m +:+ ")"
      else db_type (f_class f) +:+ "(" +:+ str_of_Z m +:+ ","
           +:+ str_of_Z d +:+ ")"
  | Some (LenInt n) =>
      if n =? 0 then db_type (f_class f)
      else db_type (f_class f) +:+ "(" +:+ str_of_Z n +:+ ")"
  | None => db_type (f_class f)
  end.

Definition opt_list (b : bool) (s : string) : list string :=
  if b then [s] else [].

(** [FieldDDL.parse]: the fragments of the column definition, in order. *)
Definition parse (f : Field) : result (list string) :=
  let? col := column f in
  let ops := _parse_options f in
  let? dflt := _parse_default ops (db_type (f_class f)) in
  Ok ([col; _parse_type f]
      ++ opt_list (option_truthy (o_unsigned ops)) "unsigned"
      ++ match o_encoding ops with
         | Some e => opt_list (negb (String.eqb e ""))
                       ("CHARACTER SET " +:+ e)
         | None => []
         end
      ++ opt_list (option_truthy (o_zerofill ops)) "zerofill"
      ++ match dflt with Some d => [d] | None => [] end
      ++ opt_list (negb (String.eqb (o_comment ops) ""))
           ("COMMENT '" +:+ o_comment ops +:+ "'")).

End DDL.

(* ===================================================================== *)
(** * Constructing fields and tables                                      *)
(* ===================================================================== *)

(** A constructor returns the object and the warnings it emitted, or
    raises. *)
Definition constructed : Type := result (Field * list string).

(** The [isinstance(default, py_types)] test of [FieldBase.__init__],
    where [py_types] is the class's [py_type] (one type or a tuple). *)
Definition isinstance_py_type (c : fclass) (a : atom) : bool :=
  match c with
  | FTinyint | FSmallint | FInt | FBigint | FAuto | FBigAuto =>
      isinstance_int a
  | FBool => match a with ABool _ => true | _ => false end
  | FFloat | FDouble => match a with AFloat _ => true | _ => false end
  | FDecimal => match a with ADecimal _ => true | _ => false end
  | FText | FChar | FVarChar | FEmail | FURL | FIP => isinstance_str a
  | FUUID => match a with AUuid _ => true | _ => false end
  | FDate => match a with ADateTime _ _ | ADate _ => true | _ => false end
  | FTime => match a with ADateTime _ _ | ATime _ => true | _ => false end
  | FDateTime | FTimestamp =>
      match a with ADateTime _ _ => true | _ => false end
  end.

Definition is_None_atom (a : atom) : bool :=
  match a with ANone => true | _ => false end.
Definition is_SQL (a : atom) : bool :=
  match a with ASql _ => true | _ => false end.
Definition callable (a : atom) : bool :=
  match a with ACallable _ => true | _ => false end.

(** [FieldBase._custom_wain]; [UUID] and [Timestamp] override it with a
    method that does nothing. *)
Definition _custom_wain (f : Field) : list string :=
  match f_class f with
  | FUUID | FTimestamp => []
  | _ =>
      match f_null f, f_default f with
      | false, Some ANone =>
          if option_truthy (f_primary_key f) then []
          else ["Not to give default value for NOT NULL field "
                +:+ class_name (f_class f)]
      | _, _ => []
      end
  end.

Section Constructors.
Context {rt : Runtime}.

(** [FieldBase.__init__], run on an object [self] whose subclass slots are
    already assigned. *)
Definition FieldBase_init (self : Field) (null : bool) (default : atom)
    (comment : string) (name : option string) : constructed :=
  if atom_truthy default
     && negb (isinstance_py_type (f_class self) default || is_SQL default
              || callable default)
  then Raise (TypeError ("Invalid " +:+ class_name (f_class self)
                         +:+ " default value (" +:+ py_str default +:+ ")"))
  else
    let f := {| f_class := f_class self;
                f_null := null;
                f_default := Some default;
                f_comment := comment;
                f_name := name;
                f_table := None;
                f_length := f_length self;
                f_unsigned := f_unsigned self;
                f_zerofill := f_zerofill self;
                f_primary_key := f_primary_key self;
                f_auto := f_auto self;
                f_auto_round := f_auto_round self;
                f_rounding := f_rounding self;
                f_encoding := f_encoding self;
                f_formats := f_formats self;
                f_utc := f_utc self |} in
    Ok (f, _custom_wain f).

(** An object of class [c] before any slot is assigned. *)
Definition blank (c : fclass) : Field :=
  {| f_class := c; f_null := true; f_default := None; f_comment := "";
     f_name := None; f_table := None; f_length := None;
     f_unsigned := None; f_zerofill := None; f_primary_key := None;
     f_auto := None; f_auto_round := false; f_rounding := ROUND_HALF_EVEN;
     f_encoding := None; f_formats := []; f_utc := false |}.

(** The class attribute [default_length] of the integer classes. *)
Definition default_length (c : fclass) : Z :=
  match c with
  | FTinyint => 4 | FSmallint => 6 | FInt | FAuto => 11
  | FBigint | FBigAuto | FIP => 20
  | _ => 0
  end.

(** [length or self.default_length]. *)
Definition length_or_default (c : fclass) (length : option Z) : Z :=
  match length with
  | Some n => if n =? 0 then default_length c else n
  | None => default_length c
  end.

Definition with_int_slots (self : Field) (length : Z) (unsigned : bool)
    (zerofill : bool) : Field :=
  {| f_class := f_class self; f_null := f_null self;
     f_default := f_default self; f_comment := f_comment self;
     f_name := f_name self; f_table := f_table self;
     f_length := Some (LenInt length);
     f_unsigned := Some unsigned; f_zerofill := Some zerofill;
     f_primary_key := f_primary_key self; f_auto := f_auto self;
     f_auto_round := f_auto_round self; f_rounding := f_rounding self;
     f_encoding := f_encoding self; f_formats := f_formats self;
     f_utc := f_utc self |}.

Definition with_key_slots (self : Field) (length : Z) (primary_key : bool)
    (auto : bool) : Field :=
  {| f_class := f_class self; f_null := f_null self;
     f_default := f_default self; f_comment := f_comment self;
     f_name := f_name self; f_table := f_table self;
     f_length := Some (LenInt length);
     f_unsigned := f_unsigned self; f_zerofill := f_zerofill self;
     f_primary_key := Some primary_key; f_auto := Some auto;
     f_auto_round := f_auto_round self; f_rounding := f_rounding self;
     f_encoding := f_encoding self; f_formats := f_formats self;
     f_utc := f_utc self |}.

(** [Tinyint.__init__], inherited by [Smallint]. *)
Definition Tinyint_init (self : Field) (length : option Z)
    (unsigned zerofill null : bool) (default : atom) (comment : string)
    (name : option string) : constructed :=
  let self := with_int_slots self
                (length_or_default (f_class self) length)
                unsigned zerofill in
  FieldBase_init self null default comment name.

(** [Int.__init__], inherited by [Bigint] and [IP]. *)
Definition Int_init (self : Field) (length : option Z)
    (unsigned zerofill primary_key auto null : bool) (default : atom)
    (comment : string) (name : option string) : constructed :=
  let self := with_key_slots self
                (length_or_default (f_class self) length)
                primary_key auto in
  let null := if primary_key then false else null in
  if primary_key && negb (is_None_atom default) then
    Raise (ProgrammingError "Primary key field not allow set default")
  else if negb primary_key && auto then
    Raise (ProgrammingError
      "'AUTO_INCREMENT' cannot be set for non-primary key fields")
  else
    Tinyint_init self length unsigned zerofill null default comment name.

(** [Auto.__init__], inherited by [BigAuto]. *)
Definition Auto_init (self : Field) (length : option Z)
    (unsigned zerofill : bool) (comment : string) (name : option string)
    : constructed :=
  Int_init self (Some (length_or_default (f_class self) length))
    unsigned zerofill true true false ANone comment name.

Definition Smallint := Tinyint_init (blank FSmallint).
Definition Int := Int_init (blank FInt).
Definition Bigint := Int_init (blank FBigint).
Definition Auto := Auto_init (blank FAuto).
Definition BigAuto := Auto_init (blank FBigAuto).

(** [Decimal.__init__]; [length] is a pair when given, and
    [decimal.DefaultContext.rounding] is [ROUND_HALF_EVEN]. *)
Definition Decimal (length : option (Z * Z)) (unsigned null auto_round : bool)
    (rounding : option rounding_mode) (default : atom) (comment : string)
    (name : option string) : constructed :=
  let '(m, d) := match length with Some p => p | None => (10, 5) end in
  let self := blank FDecimal in
  let self :=
    {| f_class := f_class self; f_null := f_null self;
       f_default := f_default self; f_comment := f_comment self;
       f_name := f_name self; f_table := f_table self;
       f_length := Some (LenPair m d);
       f_unsigned := Some unsigned; f_zerofill := f_zerofill self;
       f_primary_key := f_primary_key self; f_auto := f_auto self;
       f_auto_round := auto_round;
       f_rounding := match rounding with
                     | Some r => r
                     | None => ROUND_HALF_EVEN
                     end;
       f_encoding := f_encoding self; f_formats := f_formats self;
       f_utc := f_utc self |} in
  FieldBase_init self null default comment name.

(** [UUID.__init__]. *)
Definition UUID (primary_key : bool) (default : atom) (comment : string)
    (name : option string) : constructed :=
  let self := blank FUUID in
  let self :=
    {| f_class := f_class self; f_null := f_null self;
       f_default := f_default self; f_comment := f_comment self;
       f_name := f_name self; f_table := f_table self;
       f_length := f_length self;
       f_unsigned := f_unsigned self; f_zerofill := f_zerofill self;
       f_primary_key := Some primary_key; f_auto := f_auto self;
       f_auto_round := f_auto_round self; f_rounding := f_rounding self;
       f_encoding := f_encoding self; f_formats := f_formats self;
       f_utc := f_utc self |} in
  match primary_key, default with
  | true, ANone | false, _ => FieldBase_init self false default comment name
  | true, _ => Raise (ProgrammingError "Primary key field not allow set default")
  end.

(** [Timestamp.__init__]. *)
Definition Timestamp (utc null : bool) (default : atom) (comment : string)
    (name : option string) : constructed :=
  let self := blank FTimestamp in
  let self :=
    {| f_class := f_class self; f_null := f_null self;
       f_default := f_default self; f_comment := f_comment self;
       f_name := f_name self; f_table := f_table self;
       f_length := f_length self;
       f_unsigned := f_unsigned self; f_zerofill := f_zerofill self;
       f_primary_key := f_primary_key self; f_auto := f_auto self;
       f_auto_round := f_auto_round self; f_rounding := f_rounding self;
       f_encoding := f_encoding self; f_formats := f_formats self;
       f_utc := utc |} in
  FieldBase_init self null default comment name.

End Constructors.

(* --------------------------------------------------------------------- *)
(** ** Tables                                                             *)
(* --------------------------------------------------------------------- *)

(** Field objects are shared between the caller and the table: they live
    in a store and [fields_dict] maps column names to addresses, in
    insertion order. *)
Abbreviation store := (gmap loc Field).

(** The [primary] descriptor: the primary-key field (or [None]) and the
    first auto-increment value. *)
Record primary_key := {
  p_field : option loc;
  p_begin : option Z
}.

Record Index := {
  i_unique : bool;
  i_name : string;
  i_fields : list string;
  i_comment : string
}.

Record Table := {
  t_db : option string;
  t_name : string;
  t_fields_dict : list (string * loc);
  t_primary : primary_key;
  t_indexes : option (list Index);
  t_auto_increment : Z;
  t_engine : string;
  t_charset : string;
  t_comment : string
}.

Definition str_or (o : option string) (d : string) : string :=
  match o with
  | Some s => if String.eqb s "" then d else s
  | None => d
  end.

(** The property [Table.table_name]. *)
Definition table_name (db : option string) (name : string) : string :=
  match db with
  | Some d => if String.eqb d "" then "`" +:+ name +:+ "`"
              else "`" +:+ d +:+ "`.`" +:+ name +:+ "`"
  | None => "`" +:+ name +:+ "`"
  end.

(** [field.table = self]. *)
Definition set_table (t : TableRef) (f : Field) : Field :=
  {| f_class := f_class f; f_null := f_null f; f_default := f_default f;
     f_comment := f_comment f; f_name := f_name f; f_table := Some t;
     f_length := f_length f; f_unsigned := f_unsigned f;
     f_zerofill := f_zerofill f; f_primary_key := f_primary_key f;
     f_auto := f_auto f; f_auto_round := f_auto_round f;
     f_rounding := f_rounding f; f_encoding := f_encoding f;
     f_formats := f_formats f; f_utc := f_utc f |}.

(** The loop [for f in self.fields_dict: self.fields_dict[f].table = self]. *)
Definition bind_fields (t : TableRef) (fields_dict : list (string * loc))
    (st : store) : store :=
  foldl (fun st kv => alter (set_table t) kv.2 st) st fields_dict.

(** [Table.__init__]. *)
Definition Table_init (database : option string) (name : string)
    (fields_dict : list (string * loc)) (primary : primary_key)
    (indexes : option (list Index)) (engine charset comment : option string)
    : M store Table :=
  let self :=
    {| t_db := database; t_name := name; t_fields_dict := fields_dict;
       t_primary := primary; t_indexes := indexes;
       t_auto_increment :=
         match p_begin primary with
         | Some b => if b =? 0 then 1 else b
         | None => 1
         end;
       t_engine := str_or engine "InnoDB";
       t_charset := str_or charset "utf8";
       t_comment := str_or comment "" |} in
  (modify (bind_fields {| tr_db := database; tr_name := name |}
             fields_dict) ;;
   match p_field primary with
   | None =>
       raise (NoPKError ("Primary key not found for table "
                         +:+ table_name database name))
   | Some _ => ret self
   end)%py.

(* ===================================================================== *)
(** * Rendering: [Context] and the [__sql__] methods                      *)
(* ===================================================================== *)

(** Modelled from the spec: the rendering options of [Context] (class
    [State] of the helper module, which is not among the sources).  The
    spec lists them: whether values are emitted as bound parameters or as
    inline literals, whether the current position is parenthesized,
    whether nested-list rendering is active, and the active value
    converter, here the field whose [db_value] it is. *)
Record State := {
  st_parens : bool;
  st_params : bool;
  st_nesting : bool;
  st_converter : option Field
}.

(** Modelled from the spec: [Context], the transient state of one render
    pass (helper module, not among the sources): the accumulated SQL
    fragments and parameter values, the current options and the stack of
    the enclosing ones, and the mapping from alias to real name.  [props]
    is the mapping [FieldBase.__sql__] and [Table.__sql__] consult for the
    position they are rendered in. *)
Record Context := {
  c_sql : list string;
  c_values : list atom;
  c_state : State;
  c_stack : list State;
  c_aliases : gmap string string;
  c_props : gmap string atom
}.

(** The keyword arguments of [ctx(.. overrides)]. *)
Record overrides := {
  ov_parens : option bool;
  ov_params : option bool;
  ov_nesting : option bool;
  ov_converter : option Field
}.

Definition no_overrides : overrides :=
  {| ov_parens := None; ov_params := None; ov_nesting := None;
     ov_converter := None |}.

(** The state of a render pass: the expression heap and the context. *)
Record rstate := { r_heap : heap; r_ctx : Context }.

Definition State_default : State :=
  {| st_parens := false; st_params := false; st_nesting := false;
     st_converter := None |}.

(** Modelled from the spec: [Context()], created fresh for each top-level
    render call.  The spec does not give the initial options; they are
    all off here, and [Expression.__sql__] switches bound parameters on
    for its operands. *)
Definition Context_new : Context :=
  {| c_sql := []; c_values := []; c_state := State_default; c_stack := [];
     c_aliases := ∅; c_props := ∅ |}.

Definition State_call (s : State) (ov : overrides) : State :=
  {| st_parens := default (st_parens s) (ov_parens ov);
     st_params := default (st_params s) (ov_params ov);
     st_nesting := default (st_nesting s) (ov_nesting ov);
     st_converter := match ov_converter ov with
                     | Some f => Some f
                     | None => st_converter s
                     end |}.

Definition set_ctx (f : Context -> Context) (s : rstate) : rstate :=
  {| r_heap := r_heap s; r_ctx := f (r_ctx s) |}.

Definition set_heap (f : heap -> heap) (s : rstate) : rstate :=
  {| r_heap := f (r_heap s); r_ctx := r_ctx s |}.

Definition ctx_literal (kwd : string) (c : Context) : Context :=
  {| c_sql := c_sql c ++ [kwd]; c_values := c_values c;
     c_state := c_state c; c_stack := c_stack c;
     c_aliases := c_aliases c; c_props := c_props c |}.

Definition ctx_push (ov : overrides) (c : Context) : Context :=
  {| c_sql := c_sql c; c_values := c_values c;
     c_state := State_call (c_state c) ov;
     c_stack := c_state c :: c_stack c;
     c_aliases := c_aliases c; c_props := c_props c |}.

Definition ctx_pop (c : Context) : Context :=
  {| c_sql := c_sql c; c_values := c_values c;
     c_state := hd (c_state c) (c_stack c);
     c_stack := tl (c_stack c);
     c_aliases := c_aliases c; c_props := c_props c |}.

Definition ctx_enter (c : Context) : Context :=
  if st_parens (c_state c) then ctx_literal "(" c else c.

Definition ctx_exit (c : Context) : Context :=
  ctx_pop (if st_parens (c_state c) then ctx_literal ")" c else c).

Definition ctx_bind (a : atom) (c : Context) : Context :=
  {| c_sql := c_sql c; c_values := c_values c ++ [a];
     c_state := c_state c; c_stack := c_stack c;
     c_aliases := c_aliases c; c_props := c_props c |}.

Definition ctx_register (alias real : string) (c : Context) : Context :=
  {| c_sql := c_sql c; c_values := c_values c;
     c_state := c_state c; c_stack := c_stack c;
     c_aliases := <[alias := real]> (c_aliases c); c_props := c_props c |}.

(** [s.upper()]. *)
Definition upper (s : string) : string :=
  String.string_of_list_ascii
    (map (fun c => if ((97 <=? Dec.code c) && (Dec.code c <=? 122))%N
                   then ascii_of_N (Dec.code c - 32) else c)
       (String.list_ascii_of_string s)).

(** [op in (IN, NOT_IN, EXISTS, NEXISTS)]. *)
Definition is_membership (o : operator) : bool :=
  match o with IN | NOT_IN | EXISTS | NEXISTS => true | _ => false end.

Section Rendering.
Context {rt : Runtime}.

Definition R (A : Type) : Type := M rstate A.

(** Modelled from the spec: [ctx.literal(kwd)] appends a fragment of SQL
    text. *)
Definition literal (kwd : string) : R unit := modify (set_ctx (ctx_literal kwd)).

(** Modelled from the spec: [with ctx(.. overrides): body].  The options
    are pushed, an opening parenthesis is emitted when the position is
    parenthesized, and on the way out, exception or not, the closing one
    is emitted and the enclosing options are restored. *)
Definition with_ctx {A} (ov : overrides) (body : R A) : R A :=
  (modify (set_ctx (ctx_push ov)) ;;
   modify (set_ctx ctx_enter) ;;
   finally body (set_ctx ctx_exit))%py.

(** Modelled from the spec: binding one plain value.  With bound
    parameters active a placeholder is emitted and the value, passed
    through the active converter, joins the parameter list; otherwise the
    value is written inline. *)
Definition ctx_value (a : atom) : R unit :=
  (s <- get ;;
   let st := c_state (r_ctx s) in
   if st_params st then
     (a' <- lift (match st_converter st with
                  | Some f => db_value f a
                  | None => Ok a
                  end) ;;
      literal "?" ;;
      modify (set_ctx (ctx_bind a')))
   else literal (py_str a))%py.

(** Modelled from the spec: [ctx.table_alias(name)].  The spec says of a
    table in select position that it "emits an alias assignment and
    registers an alias mapping for later ambiguity checks"; the text of
    the alias is left open and is the parameter [alias_of_table]. *)
Definition table_alias (name : string) : R string :=
  (let a := alias_of_table name in
   modify (set_ctx (ctx_register a name)) ;;
   ret a)%py.

(** The items of a node list, separated by [glue]. *)
Fixpoint join_nodes (go : value -> R unit) (glue : string)
    (nodes : list value) : R unit :=
  match nodes with
  | [] => ret tt
  | [x] => go x
  | x :: rest => (go x ;; literal glue ;; join_nodes go glue rest)%py
  end.

(** [ctx.props.get('select') is True]. *)
Definition select_is_True (props : gmap string atom) : bool :=
  match props !! "select" with
  | Some (ABool true) => true
  | _ => false
  end.

(** [FieldBase.__sql__]. *)
Definition Field_sql (f : Field) : R unit :=
  (s <- get ;;
   let props := c_props (r_ctx s) in
   match f_table f with
   | Some t =>
       if negb (size props =? 0)%nat then
         (tn <- (if select_is_True props
                 then table_alias (tr_name t)
                 else ret (table_name (tr_db t) (tr_name t))) ;;
          col <- lift (column f) ;;
          literal (tn +:+ "." +:+ col))
       else (col <- lift (column f) ;; literal col)
   | None => (col <- lift (column f) ;; literal col)
   end)%py.

(** [getattr(self.node, 'name', None) or self.alias] in [Alias.__sql__]. *)
Definition realname (node : value) (alias : string) : string :=
  match node with
  | VField f =>
      match f_name f with
      | Some n => if String.eqb n "" then alias else n
      | None => alias
      end
  | _ => alias
  end.

(** The second half of [Alias.__sql__]: the alias of a [Column] is
    registered, unless it is registered already. *)
Definition Alias_register (node : value) (alias : string) : R unit :=
  if is_Column node then
    (s <- get ;;
     match c_aliases (r_ctx s) !! alias with
     | Some _ => raise (ProgrammingError ("Ambiguous alias: " +:+ alias))
     | None => modify (set_ctx (ctx_register alias (realname node alias)))
     end)%py
  else ret tt.

(** The object [e] after the assignment [self.rhs = r]. *)
Definition with_rhs (e : Expression) (r : value) : Expression :=
  {| lhs := lhs e; op := op e; rhs := r; parens := parens e;
     strexpr := strexpr e |}.

(** [str(v)] in the message of the [TypeError] below, which is only
    built for a value that is neither a sequence nor a node. *)
Definition value_str (v : value) : string :=
  match v with VAtom a => py_str a | _ => "" end.

(** [Expression.__sql__] up to the [with] block: the overrides are
    computed and, for a membership operator, [self.rhs] is checked and
    reassigned. *)
Definition Expression_prepare (l : loc) (e : Expression) : R overrides :=
  let conv := match is_FieldBase (lhs e) with
              | Some f => Some f
              | None => is_FieldBase (rhs e)
              end in
  if is_membership (op e) then
    if negb (is_sequence (rhs e) || is_Node (rhs e)) then
      raise (TypeError ("Invalid values " +:+ value_str (rhs e)
                        +:+ " for operator '" +:+ OPERATOR (op e) +:+ "'"))
    else
      (let rhs' := if is_Node (rhs e) then EnclosedNodeList [rhs e]
                   else tuple (rhs e) in
       modify (set_heap (insert l (with_rhs e rhs'))) ;;
       ret {| ov_parens := Some (parens e); ov_params := Some true;
              ov_nesting := Some true; ov_converter := conv |})%py
  else
    ret {| ov_parens := Some (parens e); ov_params := Some true;
           ov_nesting := None; ov_converter := conv |}.

(** [self.lhs], [self.op], [self.rhs]: attribute reads of the object at
    [l]. *)
Definition load (l : loc) : R Expression :=
  (s <- get ;;
   match r_heap s !! l with
   | Some e => ret e
   | None => raise (AttributeError "no such object")
   end)%py.

(** [ctx.sql(obj)]: a node renders itself through its [__sql__]; any
    other object is wrapped in a [Value], which renders a sequence as an
    enclosed comma list of its items and binds anything else.  The
    recursion follows references into the heap and is bounded by [fuel]. *)
Fixpoint ctx_sql (fuel : nat) (obj : value) : R unit :=
  match fuel with
  | O => raise OutOfFuel
  | S n =>
      match obj with
      | VAtom (ASql sql) => literal sql
      | VAtom a => ctx_value a
      | VSeq _ items =>
          with_ctx {| ov_parens := Some true; ov_params := None;
                      ov_nesting := None; ov_converter := None |}
            (join_nodes (ctx_sql n) ", " items)
      | VNodeList nodes glue p =>
          with_ctx {| ov_parens := Some p; ov_params := None;
                      ov_nesting := None; ov_converter := None |}
            (join_nodes (ctx_sql n) glue nodes)
      | VField f => Field_sql f
      | VOrdering node key =>
          (ctx_sql n node ;; literal (" " +:+ key +:+ " "))%py
      | VAlias node alias =>
          (ctx_sql n node ;;
           literal (" AS `" +:+ alias +:+ "`") ;;
           Alias_register node alias)%py
      | VFunc func node =>
          (literal (upper func) ;;
           with_ctx {| ov_parens := Some true; ov_params := None;
                       ov_nesting := None; ov_converter := None |}
             (ctx_sql n node))%py
      | VExpr l =>
          (e <- load l ;;
           ov <- Expression_prepare l e ;;
           with_ctx ov
             (e1 <- load l ;;
              ctx_sql n (lhs e1) ;;
              e2 <- load l ;;
              literal (" " +:+ OPERATOR (op e2) +:+ " ") ;;
              e3 <- load l ;;
              ctx_sql n (rhs e3)))%py
      end
  end.

(** Modelled from the spec: the render entry point
    [render(node) -> (sql_text, params)]: the node is rendered in a fresh
    [Context] and the fragments are concatenated.  The heap is the one
    the rendering leaves behind. *)
Definition render (fuel : nat) (node : value) (h : heap)
    : heap * result (string * list atom) :=
  let '(s, r) := ctx_sql fuel node {| r_heap := h; r_ctx := Context_new |} in
  (r_heap s,
   match r with
   | Ok _ => Ok (String.concat "" (c_sql (r_ctx s)), c_values (r_ctx s))
   | Raise e => Raise e
   end).

End Rendering.

(* ===================================================================== *)
(** * A runtime for concrete evaluation                                   *)
(* ===================================================================== *)

(** The parameters of [Runtime] instantiated so that the definitions can
    be run on concrete inputs.  Integers, strings and hexadecimal digits
    behave as in the interpreter; what the examples below do not reach
    raises. *)
Module Sample.

Definition hex_value (c : ascii) : option Z :=
  let n := Dec.code (Dec.lower c) in
  if ((48 <=? n) && (n <=? 57))%N then Some (Z.of_N n - 48)
  else if ((97 <=? n) && (n <=? 102))%N then Some (Z.of_N n - 87)
  else None.

(** The digits of an integer literal in base 10 or 16: one or more
    digits, with single underscores allowed between them. *)
Fixpoint digits_value (base acc : Z) (after_digit : bool) (l : list ascii)
    : option Z :=
  match l with
  | [] => if after_digit then Some acc else None
  | c :: l' =>
      if Ascii.eqb c "_" then
        if after_digit then digits_value base acc false l' else None
      else
        match hex_value c with
        | Some d => if d <? base
                    then digits_value base (acc * base + d) true l'
                    else None
        | None => None
        end
  end.

(** The value of an integer literal in base 10 or 16, as [int(s, base)]
    reads an ASCII string: surrounding white space is dropped; then come
    an optional sign, for base 16 an optional prefix 0x, which one
    underscore may follow, and the digits. *)
Definition int_literal (base : Z) (l : list ascii) : option Z :=
  let '(neg, l) := Dec.take_sign (Dec.strip l) in
  let l :=
    match l with
    | "0"%char :: x :: l' =>
        if (base =? 16) && Ascii.eqb (Dec.lower x) "x" then
          match l' with
          | "_"%char :: l'' => l''
          | _ => l'
          end
        else l
    | _ => l
    end in
  match digits_value base 0 false l with
  | Some n => Some (if neg then - n else n)
  | None => None
  end.

(** One character of the [repr] of a string or of a byte string, written
    between [q]; in a byte string the bytes outside ASCII are escaped. *)
Definition repr_char (bytes : bool) (q c : ascii) : list ascii :=
  let n := Dec.code c in
  let hex d :=
    nth (N.to_nat d) (String.list_ascii_of_string "0123456789abcdef")
      "0"%char in
  if Ascii.eqb c "\" then ["\"; "\"]%char
  else if Ascii.eqb c q then ["\"%char; q]
  else if (n =? 9)%N then ["\"; "t"]%char
  else if (n =? 10)%N then ["\"; "n"]%char
  else if (n =? 13)%N then ["\"; "r"]%char
  else if ((n <? 32) || (n =? 127) || (bytes && (127 <? n)))%N
       then ["\"%char; "x"%char; hex (n / 16)%N; hex (n mod 16)%N]
  else [c].

(** The quoted form of [repr]: single quotes, unless the text holds a
    single quote and no double quote. *)
Definition quoted (bytes : bool) (l : list ascii) : string :=
  let has c := existsb (Ascii.eqb c) l in
  let q := if has "'"%char && negb (has (ascii_of_nat 34))
           then ascii_of_nat 34 else "'"%char in
  String.string_of_list_ascii (q :: flat_map (repr_char bytes q) l ++ [q]).

(** [repr(s)] for a string, whose characters outside ASCII are taken to
    be printable, and [repr(b)] for a byte string. *)
Definition repr_str (s : string) : string :=
  quoted false (String.list_ascii_of_string s).
Definition repr_bytes (b : list Byte.byte) : string :=
  "b" +:+ quoted true (map ascii_of_byte b).

(** [int(s, 16)]. *)
Definition int16 (s : string) : result Z :=
  match int_literal 16 (String.list_ascii_of_string s) with
  | Some n => Ok n
  | None => Raise (ValueError ("invalid literal for int() with base 16: "
                               +:+ repr_str s))
  end.

(** [str(a)] and [repr(a)], for [None], a boolean, an integer, a string,
    a byte string and a raw-SQL literal; the other atoms have a
    placeholder. *)
Definition str (a : atom) : string :=
  match a with
  | ANone => "None"
  | ABool true => "True"
  | ABool false => "False"
  | AInt n => str_of_Z n
  | AStr s => s
  | ABytes b => repr_bytes b
  | ASql s => s
  | _ => "<object>"
  end.

Definition repr (a : atom) : string :=
  match a with AStr s => repr_str s | _ => str a end.

(** The integer part of the quotient of [m] by [d], and the quotient
    rounded to the nearest integer, a tie going to the even one. *)
Definition truncated (neg : bool) (m d : Z) : Z :=
  let q := m / d in if neg then - q else q.
Definition half_even (neg : bool) (m d : Z) : Z :=
  let q := m / d in
  let r := m mod d in
  let q := if (d <? 2 * r) || ((2 * r =? d) && Z.odd q) then q + 1 else q in
  if neg then - q else q.

(** [int(a)] and [int(round(a))] for a number: [cut] is [truncated] or
    [half_even]. *)
Definition int_of_number (cut : bool -> Z -> Z -> Z) (a : atom)
    : option (result atom) :=
  match a with
  | AInt n => Some (Ok (AInt n))
  | ABool b => Some (Ok (AInt (if b then 1 else 0)))
  | AFloat x =>
      Some match x with
           | S754_zero _ => Ok (AInt 0)
           | S754_finite s m e =>
               Ok (AInt (if 0 <=? e then cut s (Z.pos m * 2 ^ e) 1
                         else cut s (Z.pos m) (2 ^ (- e))))
           | S754_infinity _ =>
               Raise (OverflowError "cannot convert float infinity to integer")
           | S754_nan => Raise (ValueError "cannot convert float NaN to integer")
           end
  | ADecimal d =>
      Some match d with
           | DFin s c e =>
               Ok (AInt (if 0 <=? e then cut s (Z.of_N c * 10 ^ e) 1
                         else cut s (Z.of_N c) (10 ^ (- e))))
           | DInf _ => Raise (OverflowError "cannot convert Infinity to integer")
           | DNaN _ _ _ => Raise (ValueError "cannot convert NaN to integer")
           end
  | _ => None
  end.

(** [int(a)]. *)
Definition int (a : atom) : result atom :=
  match int_of_number truncated a with
  | Some r => r
  | None =>
      match a with
      | AStr s =>
          match int_literal 10 (String.list_ascii_of_string s) with
          | Some n => Ok (AInt n)
          | None => Raise (ValueError ("invalid literal for int() with base 10: "
                                       +:+ repr_str s))
          end
      | ABytes b =>
          match int_literal 10 (map ascii_of_byte b) with
          | Some n => Ok (AInt n)
          | None => Raise (ValueError ("invalid literal for int() with base 10: "
                                       +:+ repr_bytes b))
          end
      | _ => Raise (TypeError "int() argument must be a string, a bytes-like object or a real number")
      end
  end.

(** [int(round(a))]. *)
Definition int_round (a : atom) : result atom :=
  match int_of_number half_even a with
  | Some r => r
  | None => Raise (TypeError "type doesn't define __round__ method")
  end.

Definition unsupported {A} : result A := Raise (TypeError "unsupported").

Definition runtime : Runtime :=
  {| rt_str := str;
     rt_repr := repr;
     rt_int := int;
     rt_float := fun _ => unsupported;
     rt_datetime := fun _ => unsupported;
     rt_Decimal := fun _ => unsupported;
     rt_int16 := int16;
     rt_int_round := int_round;
     rt_fromtimestamp := fun _ _ => unsupported;
     rt_timedelta_time := fun _ => unsupported;
     iptoint := fun _ => unsupported;
     iptostr := fun _ => unsupported;
     format_datetime := fun _ _ _ => unsupported;
     simple_datetime := fun _ => unsupported;
     dt_strftime := fun _ _ => unsupported;
     is_email := fun _ => false;
     is_url := fun _ => false;
     alias_of_table := fun n => "t_" +:+ n |}.

(** The object a constructor call returns. *)
Definition new (c : constructed) : Field :=
  match c with Ok (f, _) => f | Raise _ => blank FInt end.

(** [Int(name='a')], [Int(name='b')]. *)
Definition field_a : Field :=
  Eval vm_compute in
    new (Int (rt := runtime) None false false false false true ANone ""
           (Some "a")).
Definition field_b : Field :=
  Eval vm_compute in
    new (Int (rt := runtime) None false false false false true ANone ""
           (Some "b")).

(** [UUID(name='uid')]. *)
Definition uid : Field :=
  Eval vm_compute in new (UUID (rt := runtime) false ANone "" (Some "uid")).

(** [Decimal(length=(10, 2), auto_round=True, name='price')]. *)
Definition price : Field :=
  Eval vm_compute in
    new (Decimal (rt := runtime) (Some (10, 2)) false true true None ANone
           "" (Some "price")).

(** [Timestamp(null=False, default=ON_CREATE, name='created')] with
    [ON_CREATE = SQL("CURRENT_TIMESTAMP")]. *)
Definition ON_CREATE : atom := ASql "CURRENT_TIMESTAMP".
Definition created : Field :=
  Eval vm_compute in
    new (Timestamp (rt := runtime) false false ON_CREATE "" (Some "created")).

(** [Int(null=False, default=7, name='n')]. *)
Definition seven : Field :=
  Eval vm_compute in
    new (Int (rt := runtime) None false false false false false (AInt 7) ""
           (Some "n")).

(** A heap holding the one expression [a.in_(b)], and its address. *)
Definition a_in_b : heap := (in_ (VField field_a) (VField field_b) ∅).1.
Definition a_in_b_loc : loc := fresh (dom (∅ : heap)).

(** The expression [a.in_([1, 2])], a heap holding it at the same
    address, and a context with bound parameters switched on. *)
Definition a_in_list_expr : Expression :=
  {| lhs := VField field_a; op := IN;
     rhs := VSeq KList [VAtom (AInt 1); VAtom (AInt 2)];
     parens := true; strexpr := false |}.
Definition a_in_list : heap := <[a_in_b_loc := a_in_list_expr]> ∅.
Definition params_on : Context :=
  ctx_push {| ov_parens := None; ov_params := Some true;
              ov_nesting := None; ov_converter := None |} Context_new.

(** [FS.count(a).as_('x')] and [FS.sum(b).as_('x')]. *)
Definition count_a_as_x : value := VAlias (VFunc "COUNT" (VField field_a)) "x".
Definition sum_b_as_x : value := VAlias (VFunc "SUM" (VField field_b)) "x".

End Sample.

(* ===================================================================== *)
(** * Relations between the states of a render pass                       *)
(* ===================================================================== *)

(** [registered k s]: the alias [k] is in [ctx.aliases]. *)
Definition registered (k : string) (s : rstate) : Prop :=
  is_Some (c_aliases (r_ctx s) !! k).

(** [extends s s']: what every rendering step guarantees of the context
    it leaves.  The options, their stack and [props] are as before, SQL
    fragments and parameters were only appended, and no alias was
    forgotten. *)
Definition extends (s s' : rstate) : Prop :=
  c_state (r_ctx s') = c_state (r_ctx s) /\
  c_stack (r_ctx s') = c_stack (r_ctx s) /\
  c_props (r_ctx s') = c_props (r_ctx s) /\
  (exists fr, c_sql (r_ctx s') = c_sql (r_ctx s) ++ fr) /\
  (exists vs, c_values (r_ctx s') = c_values (r_ctx s) ++ vs) /\
  (forall k, registered k s -> registered k s').

Definition preserves {A} (m : M rstate A) : Prop :=
  forall s s' r, m s = (s', r) -> extends s s'.

(** [same_pass s s']: [s'] is reached from [s] by rendering nodes and
    emitting literals on the same context, whatever the outcomes. *)
Inductive same_pass {rt : Runtime} : rstate -> rstate -> Prop :=
| pass_here s : same_pass s s
| pass_sql fuel obj s s1 r s2 :
    ctx_sql fuel obj s = (s1, r) -> same_pass s1 s2 -> same_pass s s2
| pass_literal kwd s s2 :
    same_pass (set_ctx (ctx_literal kwd) s) s2 -> same_pass s s2.

(** The number of constructors of a value. *)
Fixpoint vsize (v : value) : nat :=
  match v with
  | VAtom _ | VField _ | VExpr _ => 1
  | VSeq _ items => S (list_sum (map vsize items))
  | VNodeList nodes _ _ => S (list_sum (map vsize nodes))
  | VOrdering node _ | VAlias node _ | VFunc _ node => S (vsize node)
  end.

(** The fragments of an enclosed comma list. *)
Fixpoint comma_list (frags : list string) : list string :=
  match frags with
  | [] => []
  | [x] => [x]
  | x :: rest => x :: ", " :: comma_list rest
  end.

Definition enclosed (frags : list string) : list string :=
  ["("] ++ comma_list frags ++ [")"].

(** The active converter applied to each value of a list, in order. *)
Fixpoint convert_all {rt : Runtime} (conv : option Field) (items : list atom)
    : result (list atom) :=
  match items with
  | [] => Ok []
  | a :: rest =>
      let? a' := (match conv with
                  | Some f => db_value f a
                  | None => Ok a
                  end) in
      let? rest' := convert_all conv rest in
      Ok (a' :: rest')
  end.

(** The override of an enclosed list: parentheses on. *)
Definition enclosing : overrides :=
  {| ov_parens := Some true; ov_params := None; ov_nesting := None;
     ov_converter := None |}.

(** The message of the [TypeError] of [Expression.__sql__]. *)
Definition invalid_values {rt : Runtime} (e : Expression) : string :=
  "Invalid values " +:+ value_str (rhs e) +:+ " for operator '"
  +:+ OPERATOR (op e) +:+ "'".

(** The parentheses of an expression, present when its flag is set. *)
Definition opening (p : bool) : list string := if p then ["("] else [].
Definition closing (p : bool) : list string := if p then [")"] else [].

(** A context with fragments and parameters appended. *)
Definition ctx_append (fr : list string) (vs : list atom) (c : Context)
    : Context :=
  {| c_sql := c_sql c ++ fr; c_values := c_values c ++ vs;
     c_state := c_state c; c_stack := c_stack c;
     c_aliases := c_aliases c; c_props := c_props c |}.

(* ===================================================================== *)
(** * More of the module: text fields, indexes, concatenation             *)
(* ===================================================================== *)

(** The keys of [ENCODING]. *)
Definition ENCODING : list string :=
  ["utf8"; "utf16"; "utf32"; "utf8mb4"; "gbk"; "gb2312"].

(** [encoding and encoding not in ENCODING]. *)
Definition unsupported_encoding (encoding : option string) : bool :=
  match encoding with
  | Some e => negb (String.eqb e "") && negb (existsb (String.eqb e) ENCODING)
  | None => false
  end.

(** The class attribute [default_length] of the character classes:
    [Char] sets 254, [Email] overrides it with 100. *)
Definition char_default_length (c : fclass) : Z :=
  match c with
  | FEmail => 100
  | _ => 254
  end.

Section MoreConstructors.
Context {rt : Runtime}.

(** [Text.__init__], which does not call [FieldBase.__init__]: no
    [default] attribute is assigned and nothing is checked or warned
    beyond the encoding. *)
Definition Text (encoding : option string) (null : bool) (comment : string)
    (name : option string) : constructed :=
  if unsupported_encoding encoding then
    Raise (ValueError ("Unsupported encoding '"
                       +:+ match encoding with Some e => e | None => "" end
                       +:+ "'"))
  else
    let self := blank FText in
    Ok ({| f_class := f_class self; f_null := null;
           f_default := None; f_comment := comment;
           f_name := name; f_table := None;
           f_length := f_length self;
           f_unsigned := f_unsigned self; f_zerofill := f_zerofill self;
           f_primary_key := f_primary_key self; f_auto := f_auto self;
           f_auto_round := f_auto_round self; f_rounding := f_rounding self;
           f_encoding := encoding; f_formats := f_formats self;
           f_utc := f_utc self |}, []).

(** [Char.__init__], inherited by [VarChar], [Email] and [URL]. *)
Definition Char_init (self : Field) (length : option Z)
    (encoding : option string) (null : bool) (default : atom)
    (comment : string) (name : option string) : constructed :=
  let n := match length with
           | Some n => if n =? 0 then char_default_length (f_class self)
                       else n
           | None => char_default_length (f_class self)
           end in
  if unsupported_encoding encoding then
    Raise (ValueError ("Unsupported encoding '"
                       +:+ match encoding with Some e => e | None => "" end
                       +:+ "'"))
  else
    let self :=
      {| f_class := f_class self; f_null := f_null self;
         f_default := f_default self; f_comment := f_comment self;
         f_name := f_name self; f_table := f_table self;
         f_length := Some (LenInt n);
         f_unsigned := f_unsigned self; f_zerofill := f_zerofill self;
         f_primary_key := f_primary_key self; f_auto := f_auto self;
         f_auto_round := f_auto_round self; f_rounding := f_rounding self;
         f_encoding := encoding; f_formats := f_formats self;
         f_utc := f_utc self |} in
    FieldBase_init self null default comment name.

Definition Char := Char_init (blank FChar).
Definition VarChar := Char_init (blank FVarChar).
Definition Email := Char_init (blank FEmail).
Definition URL := Char_init (blank FURL).

(** [Bool.__init__]. *)
Definition Bool (null : bool) (default : atom) (comment : string)
    (name : option string) : constructed :=
  FieldBase_init (blank FBool) null default comment name.

(** The loop of [IndexBase.__init__] over the given fields: a string is
    quoted, a field gives its [column], anything else is a type error. *)
Fixpoint Index_columns (items : list value) : result (list string) :=
  match items with
  | [] => Ok []
  | x :: rest =>
      let? c := (match x with
                 | VAtom (AStr s) => Ok ("`" +:+ s +:+ "`")
                 | VField f => column f
                 | _ => Raise (TypeError ("Invalid field type: "
                                          +:+ value_str x))
                 end) in
      let? cs := Index_columns rest in
      Ok (c :: cs)
  end.

(** [IndexBase.__init__]; [unique] tells [UKey] from [Key].  Fields that
    are not given as a sequence are a one-element list. *)
Definition Index_init (unique : bool) (name : string) (fields : value)
    (comment : string) : result Index :=
  let items := match fields with
               | VSeq _ items => items
               | v => [v]
               end in
  let? cols := Index_columns items in
  Ok {| i_unique := unique; i_name := name; i_fields := cols;
        i_comment := comment |}.

Definition Key := Index_init false.
Definition UKey := Index_init true.

End MoreConstructors.

(** Modelled from the spec: [NodeList(nodes)] of the helper module, whose
    items are separated by one space (the spec's "BETWEEN ? AND ?"). *)
Definition NodeList (nodes : list value) : value := VNodeList nodes " " false.

(** The class attribute [__type__]: [SQL("KEY")] or [SQL("UNIQUE KEY")]. *)
Definition Index_type (i : Index) : value :=
  VAtom (ASql (if i_unique i then "UNIQUE KEY" else "KEY")).

(** The index as a node: [IndexBase.__sql__] emits the quoted name as a
    literal, which is what the raw-SQL node of that text does. *)
Definition Index_node (i : Index) : value :=
  VAtom (ASql ("`" +:+ i_name i +:+ "`")).

(** [IndexBase.__def__]. *)
Definition Index_def (i : Index) : value :=
  NodeList ([Index_type i; Index_node i;
             EnclosedNodeList (map (fun c => VAtom (AStr c)) (i_fields i))]
            ++ map (fun s => VAtom (ASql s))
                 (opt_list (negb (String.eqb (i_comment i) ""))
                    ("COMMENT '" +:+ i_comment i +:+ "'"))).

(** The classes whose [__add__] and [__radd__] build a concatenation:
    [Text], and [Char] with its subclasses. *)
Definition is_text_class (c : fclass) : bool :=
  match c with
  | FText | FChar | FVarChar | FEmail | FURL => true
  | _ => false
  end.

(** [self + rhs]: [Text.__add__] and [Char.__add__] for the text fields,
    [StrExpression.__add__] for a string expression, and
    [ColumnBase.__add__] for every other column. *)
Definition __add__ (self r : value) : M heap value :=
  fun h =>
    match self with
    | VField f =>
        if is_text_class (f_class f) then Expression_new true self CONCAT r h
        else Expression_new false self ADD r h
    | VExpr l =>
        match h !! l with
        | Some e => if strexpr e then concat self r h
                    else Expression_new false self ADD r h
        | None => Expression_new false self ADD r h
        end
    | _ => Expression_new false self ADD r h
    end.

(** [self.__radd__(l)], the reflected method.  Python calls it for
    [l + self] only when [l] does not answer itself, or when [self] is of
    a subclass of the class of [l] (see [add] below). *)
Definition __radd__ (self l : value) : M heap value :=
  fun h =>
    match self with
    | VField f =>
        if is_text_class (f_class f) then Expression_new true l CONCAT self h
        else Expression_new false l ADD self h
    | VExpr a =>
        match h !! a with
        | Some e => if strexpr e then Expression_new true l CONCAT self h
                    else Expression_new false l ADD self h
        | None => Expression_new false l ADD self h
        end
    | _ => Expression_new false l ADD self h
    end.

(** [string_like h v]: [v] is a text field or a string expression of
    [h], the objects whose [+] concatenates. *)
Definition string_like (h : heap) (v : value) : bool :=
  match v with
  | VField f => is_text_class (f_class f)
  | VExpr l => match h !! l with Some e => strexpr e | None => false end
  | _ => false
  end.

(** [type(v) is Expression] and [type(v) is StrExpression], for the
    objects of [h]. *)
Definition is_plain_expression (h : heap) (v : value) : bool :=
  match v with
  | VExpr l => match h !! l with Some e => negb (strexpr e) | None => false end
  | _ => false
  end.
Definition is_str_expression (h : heap) (v : value) : bool :=
  match v with
  | VExpr l => match h !! l with Some e => strexpr e | None => false end
  | _ => false
  end.

(** The expression [l + r] when one operand is a column, as Python
    dispatches it.  A column on the left answers with its own [__add__],
    which never declines, so the right operand is not asked; except that
    [StrExpression] is a subclass of [Expression] with a [__radd__] of its
    own, so a string expression on the right of a plain expression is
    asked first, and answers.  A plain Python value on the left (a
    number, a string, a sequence, [None]) has no addition with a column,
    and Python turns to the [__radd__] of the column on the right.  For
    any other pair the sources do not decide (the left operand is a
    callable or a node of the helper module, or no column is involved)
    and there is no result. *)
Definition add (l r : value) (h : heap) : option (heap * result value) :=
  if is_Column l then
    if is_plain_expression h l && is_str_expression h r
    then Some (__radd__ r l h)
    else Some (__add__ l r h)
  else if is_Column r then
    match l with
    | VAtom a => if is_SQL a || callable a then None
                 else Some (__radd__ r l h)
    | VSeq _ _ => Some (__radd__ r l h)
    | _ => None
    end
  else None.

(** What [IndexBase.__init__] makes of one entry of [fields]. *)
Definition index_entry {rt : Runtime} (x : value) (c : string) : Prop :=
  match x with
  | VAtom (AStr s) => c = "`" +:+ s +:+ "`"
  | VField f => column f = Ok c
  | _ => False
  end.

(** [heap_settled h]: every membership expression of [h] has a
    right-hand side that [Expression.__sql__] stores back unchanged (a
    tuple) or rejects. *)
Definition heap_settled (h : heap) : Prop :=
  forall l e, h !! l = Some e -> is_membership (op e) = true ->
              is_Node (rhs e) = false /\ tuple (rhs e) = rhs e.

(** A computation that leaves a settled heap as it is. *)
Definition keeps_heap {A} (m : M rstate A) : Prop :=
  forall s s' r, heap_settled (r_heap s) -> m s = (s', r) ->
                 r_heap s' = r_heap s.

(** The characters of a UUID's [hex]. *)
Definition is_hex_lower (c : ascii) : bool :=
  let n := Dec.code c in
  ((48 <=? n) && (n <=? 57) || (97 <=? n) && (n <=? 102))%N.

(* ===================================================================== *)
(** * Properties                                                          *)
(* ===================================================================== *)

(* --------------------------------------------------------------------- *)
(** ** Comparison with [None]                                             *)
(* --------------------------------------------------------------------- *)

Lemma fresh_loc_unused (h : heap) : h !! fresh (dom h) = None.
Proof. apply not_elem_of_dom, is_fresh. Qed.

Lemma Expression_new_spec (s : bool) (l : value) (o : operator) (r : value)
    (h : heap) :
  exists a,
    h !! a = None /\
    Expression_new s l o r h =
      (<[a := {| lhs := l; op := o; rhs := r; parens := true;
                 strexpr := s |}]> h, Ok (VExpr a)).
Proof. exists (fresh (dom h)). split; [apply fresh_loc_unused | reflexivity]. Qed.

(** C3.  For every node [c] and every right-hand side [r], [c == r] and
    [c != r] each build one new [Expression] object, at an address that
    was free, with [c] and [r] as operands.  Its operator is [IS]
    (respectively [IS NOT]) exactly when [r] is [None], and [EQ]
    (respectively [NE]) for every other [r]. *)
Theorem eq_ne_rewrite_null (c r : value) (h : heap) :
  (exists a e,
      __eq__ c r h = (<[a := e]> h, Ok (VExpr a)) /\ h !! a = None /\
      lhs e = c /\ rhs e = r /\
      op e = match r with VAtom ANone => IS | _ => EQ end) /\
  (exists a e,
      __ne__ c r h = (<[a := e]> h, Ok (VExpr a)) /\ h !! a = None /\
      lhs e = c /\ rhs e = r /\
      op e = match r with VAtom ANone => IS_NOT | _ => NE end).
Proof.
  split.
  - destruct (Expression_new_spec false c (if is_None r then IS else EQ) r h)
      as (a & Hfree & Hnew).
    eexists a, _. split; [exact Hnew|]. repeat split; [exact Hfree|].
    cbn. destruct r as [[] | | | | | | |]; reflexivity.
  - destruct (Expression_new_spec false c
                (if is_None r then IS_NOT else NE) r h)
      as (a & Hfree & Hnew).
    eexists a, _. split; [exact Hnew|]. repeat split; [exact Hfree|].
    cbn. destruct r as [[] | | | | | | |]; reflexivity.
Qed.

(** The operands of a comparison are left as they were: every object
    already in the heap is still there, unchanged. *)
Lemma eq_preserves_heap (c r : value) (h : heap) (a : loc) (e : Expression) :
  h !! a = Some e -> (__eq__ c r h).1 !! a = Some e.
Proof.
  intros Ha. cbn. rewrite lookup_insert_ne; [exact Ha|].
  intros Heq. rewrite <- Heq in Ha. rewrite fresh_loc_unused in Ha.
  discriminate.
Qed.

(* --------------------------------------------------------------------- *)
(** ** [None] through the conversions                                     *)
(* --------------------------------------------------------------------- *)

Section ConversionProperties.
Context {rt : Runtime}.

(** C5.  Whatever its class and attributes, a field's [py_value] and
    [db_value] send [None] to [None]. *)
Theorem None_is_identity (f : Field) :
  py_value f ANone = Ok ANone /\ db_value f ANone = Ok ANone.
Proof.
  unfold py_value, db_value. destruct (f_class f); split; reflexivity.
Qed.

End ConversionProperties.

(* --------------------------------------------------------------------- *)
(** ** Primary keys and auto-increment                                    *)
(* --------------------------------------------------------------------- *)

Section ConstructorProperties.
Context {rt : Runtime}.

Lemma FieldBase_init_None (self : Field) (null : bool) (comment : string)
    (name : option string) :
  exists f, FieldBase_init self null ANone comment name
            = Ok (f, _custom_wain f) /\
            f_null f = null /\ f_primary_key f = f_primary_key self /\
            f_auto f = f_auto self /\ f_class f = f_class self.
Proof. eexists. cbn. repeat split. Qed.

Lemma Table_init_with_key (database : option string) (name : string)
    (fields_dict : list (string * loc)) (l : loc) (b : option Z)
    (indexes : option (list Index)) (engine charset comment : option string)
    (st : store) :
  exists t,
    (Table_init database name fields_dict
       {| p_field := Some l; p_begin := b |} indexes engine charset comment
       st).2 = Ok t.
Proof. eexists. reflexivity. Qed.

(** C4.  [Int(..., primary_key=True, ...)] returns a field exactly when no
    default is supplied, and that field is not nullable; with a default
    it raises.  [Int(..., primary_key=False, auto=True, ...)] always
    raises.  [Int(..., primary_key=True, auto=True)] without a default
    returns a field, with no warning, and [Table(...)] with a primary-key
    field returns a table whatever its other arguments; [Auto(...)]
    always returns a field. *)
Theorem Int_primary_key_auto (length : option Z)
    (unsigned zerofill auto null : bool) (default : atom) (comment : string)
    (name : option string) :
  match Int length unsigned zerofill true auto null default comment name with
  | Ok (f, _) => default = ANone /\ f_null f = false
  | Raise e =>
      default <> ANone /\
      e = ProgrammingError "Primary key field not allow set default"
  end /\
  Int length unsigned zerofill false true null default comment name
    = Raise (ProgrammingError
        "'AUTO_INCREMENT' cannot be set for non-primary key fields") /\
  (exists f,
      Int length unsigned zerofill true true null ANone comment name
        = Ok (f, []) /\
      f_null f = false /\ f_primary_key f = Some true /\
      f_auto f = Some true /\
      forall database tname fields_dict l b indexes engine charset tcomment
             (st : store),
        exists t,
          (Table_init database tname fields_dict
             {| p_field := Some l; p_begin := b |} indexes engine charset
             tcomment st).2 = Ok t) /\
  (exists f, Auto length unsigned zerofill comment name = Ok (f, []) /\
             f_null f = false).
Proof.
  split; [|split; [|split]].
  - unfold Int, Int_init.
    destruct default; cbn; split; congruence.
  - unfold Int, Int_init. cbn. destruct default; reflexivity.
  - eexists. split; [reflexivity|].
    split; [reflexivity|]. split; [reflexivity|]. split; [reflexivity|].
    intros. apply Table_init_with_key.
  - eexists. split; reflexivity.
Qed.

End ConstructorProperties.

(* --------------------------------------------------------------------- *)
(** ** Table construction writes the back-references first                *)
(* --------------------------------------------------------------------- *)

Lemma set_table_idem (t : TableRef) (f : Field) :
  set_table t (set_table t f) = set_table t f.
Proof. reflexivity. Qed.

Lemma bind_fields_lookup (t : TableRef) (fields_dict : list (string * loc))
    (st : store) (l : loc) :
  bind_fields t fields_dict st !! l =
    if bool_decide (l ∈ fields_dict.*2) then set_table t <$> st !! l
    else st !! l.
Proof.
  unfold bind_fields. revert st.
  induction fields_dict as [|[k a] fs IH]; intros st; cbn [foldl].
  - rewrite bool_decide_eq_false_2; [reflexivity|]. cbn. apply not_elem_of_nil.
  - rewrite IH. cbn [fmap list_fmap snd].
    destruct (decide (a = l)) as [->|Hne].
    + rewrite lookup_alter_eq.
      rewrite (bool_decide_eq_true_2 (l ∈ l :: _)) by apply list_elem_of_here.
      destruct (st !! l) as [f|]; cbn; case_bool_decide; reflexivity.
    + rewrite lookup_alter_ne by exact Hne.
      destruct (decide (l ∈ fs.*2)) as [Hin|Hni].
      * rewrite !bool_decide_eq_true_2; auto. now apply list_elem_of_further.
      * rewrite !bool_decide_eq_false_2; auto.
        intros [?|?]%elem_of_cons; congruence.
Qed.

(** C10.  [Table(...)] called with a [primary] descriptor that holds no
    field raises the missing-primary-key error, and the store it leaves
    behind differs from the caller's: every field object the given
    [fields_dict] refers to has its [table] attribute set to the table
    under construction, its other attributes being as they were, so an
    object that did not refer to this table before has changed; the
    other objects are untouched. *)
Theorem Table_init_not_atomic (database : option string) (name : string)
    (fields_dict : list (string * loc)) (b : option Z)
    (indexes : option (list Index)) (engine charset comment : option string)
    (st : store) :
  let table := {| tr_db := database; tr_name := name |} in
  let out := Table_init database name fields_dict
               {| p_field := None; p_begin := b |} indexes engine charset
               comment st in
  out.2 = Raise (NoPKError ("Primary key not found for table "
                            +:+ table_name database name)) /\
  (forall l,
     out.1 !! l =
       if bool_decide (l ∈ fields_dict.*2)
       then set_table table <$> st !! l
       else st !! l) /\
  (forall l f, l ∈ fields_dict.*2 -> st !! l = Some f ->
     out.1 !! l =
       Some {| f_class := f_class f; f_null := f_null f;
               f_default := f_default f; f_comment := f_comment f;
               f_name := f_name f; f_table := Some table;
               f_length := f_length f; f_unsigned := f_unsigned f;
               f_zerofill := f_zerofill f;
               f_primary_key := f_primary_key f; f_auto := f_auto f;
               f_auto_round := f_auto_round f; f_rounding := f_rounding f;
               f_encoding := f_encoding f; f_formats := f_formats f;
               f_utc := f_utc f |} /\
     (f_table f <> Some table -> out.1 !! l <> st !! l)) /\
  (forall l, l ∉ fields_dict.*2 -> out.1 !! l = st !! l).
Proof.
  cbn zeta.
  assert (Hlook : forall l,
            (Table_init database name fields_dict
               {| p_field := None; p_begin := b |} indexes engine charset
               comment st).1 !! l =
            if bool_decide (l ∈ fields_dict.*2)
            then set_table {| tr_db := database; tr_name := name |}
                   <$> st !! l
            else st !! l).
  { intros l. cbn. apply bind_fields_lookup. }
  split; [reflexivity|]. split; [exact Hlook|]. split.
  - intros l f Hin Hf. rewrite Hlook, bool_decide_eq_true_2 by exact Hin.
    rewrite Hf. cbn [fmap option_fmap option_map]. split; [reflexivity|].
    intros Hne [= E]. apply Hne. rewrite <- E. reflexivity.
  - intros l Hni. rewrite Hlook. now rewrite bool_decide_eq_false_2.
Qed.

(* --------------------------------------------------------------------- *)
(** ** Decimal and UUID conversions                                       *)
(* --------------------------------------------------------------------- *)

Section DecimalUuidProperties.
Context {rt : Runtime}.

Lemma Decimal_db_value_falsy (f : Field) (v : atom) :
  atom_truthy v = false -> v <> ANone ->
  Decimal_db_value f v = Ok (ADecimal (DFin false 0 0)).
Proof.
  intros Hf Hn. unfold Decimal_db_value. rewrite Hf. cbn.
  destruct v; try reflexivity. congruence.
Qed.

(** C8.  A non-[None] falsy value [v] given to the [db_value] of a
    decimal field [f] comes back as [Decimal(0)], coefficient and
    exponent zero, whatever the rounding attributes of [f].  And the
    field [g] that [Decimal(length=(10, 2), auto_round=True)] builds
    converts the string "3.14159" to the decimal [Decimal("3.14")],
    returns the same [Decimal(0)] for [v], although its rounding path
    gives a zero with exponent -2. *)
Theorem Decimal_db_value_rounds_and_zero (f : Field) (v : atom)
    (Hclass : f_class f = FDecimal) (Hfalsy : atom_truthy v = false)
    (Hsome : v <> ANone) :
  db_value f v = Ok (ADecimal (Dec.of_int 0)) /\
  forall (unsigned null : bool) (comment : string) (name : option string),
    exists g w,
      Decimal (Some (10, 2)) unsigned null true None ANone comment name
        = Ok (g, w) /\
      db_value g (AStr "3.14159") = Ok (ADecimal (DFin false 314 (-2))) /\
      Dec.of_string "3.14" = Ok (DFin false 314 (-2)) /\
      db_value g v = Ok (ADecimal (DFin false 0 0)) /\
      Dec.quantize (f_rounding g) (Dec.of_int 0) (-2)
        = Ok (DFin false 0 (-2)).
Proof.
  split.
  - unfold db_value. rewrite Hclass. now apply Decimal_db_value_falsy.
  - intros unsigned null comment name. eexists. eexists.
    split; [reflexivity|].
    split; [vm_compute; reflexivity|].
    split; [vm_compute; reflexivity|].
    split; [|vm_compute; reflexivity].
    unfold db_value. cbn [f_class]. now apply Decimal_db_value_falsy.
Qed.

(** C7, as the code has it.  For a malformed value [v] (not a string of
    32 characters, not 16 bytes, not a UUID, rejected by [uuid.UUID]) the
    [db_value] of a UUID field returns [v] itself and raises nothing. *)
Theorem UUID_db_value_returns_malformed (f : Field) (v : atom)
    (Hclass : f_class f = FUUID) (Hbad : malformed_uuid v) :
  db_value f v = Ok v.
Proof.
  destruct Hbad as (H32 & H16 & Hu & e & He).
  unfold db_value. rewrite Hclass. unfold UUID_db_value.
  rewrite H32, H16, He.
  destruct v; try reflexivity. exfalso. eapply Hu. reflexivity.
Qed.

(** The other direction is strict: [py_value] lets the error of the
    constructor through. *)
Lemma UUID_py_value_raises (f : Field) (v : atom) (e : exn) :
  v <> ANone -> (forall u, v <> AUuid u) -> uuid_UUID v = Raise e ->
  UUID_py_value f v = Raise e.
Proof.
  intros Hn Hu He. unfold UUID_py_value. rewrite He.
  destruct v; try reflexivity; [congruence | exfalso; eapply Hu; reflexivity].
Qed.

End DecimalUuidProperties.

Lemma not_a_uuid_malformed :
  malformed_uuid (rt := Sample.runtime) (AStr "not-a-uuid").
Proof.
  repeat split; try discriminate.
  eexists. vm_compute. reflexivity.
Qed.

(** C7 as stated fails: the [db_value] of the field [UUID(name='uid')]
    returns the malformed string "not-a-uuid" instead of raising. *)
Lemma UUID_db_value_swallows_error :
  ~ (forall (rt : Runtime) (f : Field) (v : atom),
        f_class f = FUUID -> malformed_uuid v ->
        exists e, db_value f v = Raise e).
Proof.
  intros H.
  destruct (H Sample.runtime Sample.uid (AStr "not-a-uuid") eq_refl
              not_a_uuid_malformed) as [e He].
  vm_compute in He. discriminate He.
Qed.

Lemma UUID_db_value_returns_malformed_witness :
  db_value (rt := Sample.runtime) Sample.uid (AStr "not-a-uuid")
    = Ok (AStr "not-a-uuid").
Proof.
  apply (UUID_db_value_returns_malformed (rt := Sample.runtime)).
  - reflexivity.
  - repeat split; try discriminate. eexists. vm_compute. reflexivity.
Defined.

Lemma Decimal_db_value_rounds_and_zero_witness :
  db_value (rt := Sample.runtime) Sample.price (AInt 0)
    = Ok (ADecimal (Dec.of_int 0)).
Proof.
  apply (Decimal_db_value_rounds_and_zero (rt := Sample.runtime)
           Sample.price (AInt 0)).
  - reflexivity.
  - reflexivity.
  - discriminate.
Defined.

(* --------------------------------------------------------------------- *)
(** ** The default clause of a column that is not nullable                *)
(* --------------------------------------------------------------------- *)

Section DDLProperties.
Context {rt : Runtime}.

(** C2, as the code has it.  For a field that is neither nullable nor
    auto-increment, [_parse_default] gives "NOT NULL" when there is no
    default ([None], the sentinel 'null', or no attribute at all),
    "NOT NULL DEFAULT <sql>" for a raw-SQL default, "NOT NULL" for a
    callable, and otherwise "NOT NULL DEFAULT '<s>'" where [s] is the
    field's [to_str] of the default, whose error it passes on. *)
Theorem not_null_default_clause (f : Field)
    (Hnull : f_null f = false) (Hauto : option_truthy (f_auto f) = false) :
  _parse_default (_parse_options f) (db_type (f_class f)) =
    match f_default f with
    | None | Some ANone => Ok (Some "NOT NULL")
    | Some (ASql sql) => Ok (Some ("NOT NULL DEFAULT " +:+ sql))
    | Some (ACallable _) => Ok (Some "NOT NULL")
    | Some d =>
        if atom_eqb_str d "null" then Ok (Some "NOT NULL")
        else let? s := to_str f d in
             Ok (Some ("NOT NULL DEFAULT '" +:+ s +:+ "'"))
    end.
Proof.
  unfold _parse_default, _parse_options. cbn [o_auto o_allow_null o_default].
  rewrite Hnull, Hauto.
  destruct (f_default f) as [d|]; [|reflexivity].
  destruct d; cbn; try reflexivity;
    try (destruct (to_str f _); reflexivity).
Qed.

End DDLProperties.

(** C2 as stated fails for a raw-SQL default: the column
    [Timestamp(null=False, default=SQL("CURRENT_TIMESTAMP"))] gets
    "NOT NULL DEFAULT CURRENT_TIMESTAMP", not a bare "NOT NULL". *)
Lemma raw_sql_default_is_emitted :
  ~ (forall (rt : Runtime) (f : Field) (sql : string),
        f_null f = false -> option_truthy (f_auto f) = false ->
        f_default f = Some (ASql sql) ->
        _parse_default (_parse_options f) (db_type (f_class f))
          = Ok (Some "NOT NULL")).
Proof.
  intros H.
  specialize (H Sample.runtime Sample.created "CURRENT_TIMESTAMP"
                eq_refl eq_refl eq_refl).
  vm_compute in H. discriminate H.
Qed.

Lemma not_null_default_clause_witness :
  _parse_default (_parse_options (rt := Sample.runtime) Sample.seven)
    (db_type (f_class Sample.seven)) = Ok (Some "NOT NULL DEFAULT '7'").
Proof.
  rewrite (not_null_default_clause (rt := Sample.runtime) Sample.seven).
  - reflexivity.
  - reflexivity.
  - reflexivity.
Defined.

(* --------------------------------------------------------------------- *)
(** ** What a rendering step preserves                                    *)
(* --------------------------------------------------------------------- *)

Section RenderInvariants.
Context {rt : Runtime}.

Lemma extends_refl (s : rstate) : extends s s.
Proof.
  repeat split; try (exists []; now rewrite app_nil_r). auto.
Qed.

Lemma extends_trans (s1 s2 s3 : rstate) :
  extends s1 s2 -> extends s2 s3 -> extends s1 s3.
Proof.
  intros (Ha & Hb & Hc & [f1 Hd] & [v1 He] & Hf)
         (Ha' & Hb' & Hc' & [f2 Hd'] & [v2 He'] & Hf').
  repeat split; try congruence.
  - exists (f1 ++ f2). rewrite Hd', Hd. now rewrite app_assoc.
  - exists (v1 ++ v2). rewrite He', He. now rewrite app_assoc.
  - auto.
Qed.

Lemma extends_literal (kwd : string) (s : rstate) :
  extends s (set_ctx (ctx_literal kwd) s).
Proof.
  repeat split; cbn; eauto. exists []. now rewrite app_nil_r.
Qed.

Lemma extends_bind_value (a : atom) (s : rstate) :
  extends s (set_ctx (ctx_bind a) s).
Proof.
  repeat split; cbn; eauto. exists []. now rewrite app_nil_r.
Qed.

Lemma extends_register (k v : string) (s : rstate) :
  extends s (set_ctx (ctx_register k v) s).
Proof.
  repeat split; cbn; try (exists []; now rewrite app_nil_r).
  intros k' Hk. unfold registered in *. cbn.
  rewrite lookup_insert_is_Some. destruct (decide (k = k')); auto.
Qed.

Lemma extends_set_heap (f : heap -> heap) (s : rstate) :
  extends s (set_heap f s).
Proof.
  repeat split; cbn; try (exists []; now rewrite app_nil_r). auto.
Qed.

Lemma preserves_ret {A} (a : A) : preserves (ret a).
Proof. intros s s' r [= <- _]. apply extends_refl. Qed.

Lemma preserves_raise {A} (e : exn) : preserves (raise (A := A) e).
Proof. intros s s' r [= <- _]. apply extends_refl. Qed.

Lemma preserves_lift {A} (x : result A) : preserves (lift x).
Proof. intros s s' r [= <- _]. apply extends_refl. Qed.

Lemma preserves_get : preserves (get (S := rstate)).
Proof. intros s s' r [= <- _]. apply extends_refl. Qed.

Lemma preserves_bind {A B} (m : R A) (k : A -> R B) :
  preserves m -> (forall a, preserves (k a)) -> preserves (bind m k).
Proof.
  intros Hm Hk s s' r. unfold bind.
  destruct (m s) as [s1 [a|e]] eqn:Em; intros H.
  - eapply extends_trans; [eapply Hm, Em | eapply Hk, H].
  - injection H as <- _. eapply Hm, Em.
Qed.

Lemma preserves_literal (kwd : string) : preserves (literal kwd).
Proof. intros s s' r [= <- _]. apply extends_literal. Qed.

Lemma ctx_enter_frame (c : Context) :
  c_state (ctx_enter c) = c_state c /\ c_stack (ctx_enter c) = c_stack c /\
  c_props (ctx_enter c) = c_props c /\
  c_aliases (ctx_enter c) = c_aliases c /\
  c_values (ctx_enter c) = c_values c /\
  exists fr, c_sql (ctx_enter c) = c_sql c ++ fr.
Proof.
  unfold ctx_enter. destruct (st_parens (c_state c)); cbn.
  - repeat split. now exists ["("].
  - repeat split. exists []. now rewrite app_nil_r.
Qed.

Lemma ctx_exit_frame (c : Context) (st : State) (stk : list State) :
  c_stack c = st :: stk ->
  c_state (ctx_exit c) = st /\ c_stack (ctx_exit c) = stk /\
  c_props (ctx_exit c) = c_props c /\
  c_aliases (ctx_exit c) = c_aliases c /\
  c_values (ctx_exit c) = c_values c /\
  exists fr, c_sql (ctx_exit c) = c_sql c ++ fr.
Proof.
  intros Hs. unfold ctx_exit. destruct (st_parens (c_state c)); cbn;
    rewrite Hs; cbn.
  - repeat split. now exists [")"].
  - repeat split. exists []. now rewrite app_nil_r.
Qed.

Lemma preserves_with_ctx {A} (ov : overrides) (body : R A) :
  preserves body -> preserves (with_ctx ov body).
Proof.
  intros Hb s s' r. unfold with_ctx, bind, modify, finally.
  destruct (body _) as [s1 r1] eqn:Eb. intros [= <- _].
  apply Hb in Eb. destruct Eb as (Ha & Hb' & Hc & [fr Hd] & [vs He] & Hf).
  cbn [r_ctx set_ctx] in Ha, Hb', Hc, Hd, He.
  destruct (ctx_enter_frame (ctx_push ov (r_ctx s)))
    as (Ea & Eb & Ec & Eal & Ev & [fr0 Es]).
  rewrite Ea in Ha. rewrite Eb in Hb'. rewrite Ec in Hc. rewrite Es in Hd.
  rewrite Ev in He. cbn [ctx_push c_state c_stack c_props c_sql c_values]
    in Ha, Hb', Hc, Hd, He.
  assert (Hal : forall k, registered k s -> registered k s1).
  { intros k Hk. apply Hf. unfold registered in *. cbn [r_ctx set_ctx].
    now rewrite Eal. }
  destruct (ctx_exit_frame (r_ctx s1) _ _ Hb')
    as (Xa & Xb & Xc & Xal & Xv & [fr1 Xs]).
  unfold extends, registered. cbn [r_ctx set_ctx].
  rewrite Xa, Xb, Xc, Xal, Xv, Xs, Hc, Hd, He.
  repeat split; auto.
  - exists (fr0 ++ fr ++ fr1). now rewrite <- !app_assoc.
  - now exists vs.
Qed.

Lemma preserves_join (go : value -> R unit) (glue : string)
    (nodes : list value) :
  (forall v, preserves (go v)) -> preserves (join_nodes go glue nodes).
Proof.
  intros Hgo. induction nodes as [|x [|y rest] IH]; cbn [join_nodes].
  - apply preserves_ret.
  - apply Hgo.
  - apply preserves_bind; [apply Hgo|]. intros _.
    apply preserves_bind; [apply preserves_literal|]. intros _. exact IH.
Qed.

Lemma preserves_modify (f : rstate -> rstate) :
  (forall s, extends s (f s)) -> preserves (modify f).
Proof. intros Hf s s' r [= <- _]. apply Hf. Qed.

Lemma preserves_ctx_value (a : atom) : preserves (ctx_value a).
Proof.
  unfold ctx_value. apply preserves_bind; [apply preserves_get|].
  intros s0. destruct (st_params _); [|apply preserves_literal].
  apply preserves_bind; [apply preserves_lift|]. intros a'.
  apply preserves_bind; [apply preserves_literal|]. intros _.
  apply preserves_modify. intros s. apply extends_bind_value.
Qed.

Lemma preserves_table_alias (name : string) : preserves (table_alias name).
Proof.
  unfold table_alias. apply preserves_bind; [|intros; apply preserves_ret].
  apply preserves_modify. intros s. apply extends_register.
Qed.

Lemma preserves_Field_sql (f : Field) : preserves (Field_sql f).
Proof.
  unfold Field_sql. apply preserves_bind; [apply preserves_get|].
  intros s0.
  assert (Hcol : preserves (bind (lift (column f)) (fun col => literal col))).
  { apply preserves_bind; [apply preserves_lift|].
    intros; apply preserves_literal. }
  destruct (f_table f) as [t|]; [|exact Hcol].
  destruct (negb _); [|exact Hcol].
  apply preserves_bind.
  - destruct (select_is_True _);
      [apply preserves_table_alias | apply preserves_ret].
  - intros tn. apply preserves_bind; [apply preserves_lift|].
    intros; apply preserves_literal.
Qed.

Lemma preserves_Alias_register (node : value) (alias : string) :
  preserves (Alias_register node alias).
Proof.
  unfold Alias_register. destruct (is_Column node); [|apply preserves_ret].
  apply preserves_bind; [apply preserves_get|]. intros s0.
  destruct (_ !! alias); [apply preserves_raise|].
  apply preserves_modify. intros s. apply extends_register.
Qed.

Lemma preserves_load (l : loc) : preserves (load l).
Proof.
  unfold load. apply preserves_bind; [apply preserves_get|]. intros s0.
  destruct (_ !! l); [apply preserves_ret | apply preserves_raise].
Qed.

Lemma preserves_prepare (l : loc) (e : Expression) :
  preserves (Expression_prepare l e).
Proof.
  unfold Expression_prepare.
  destruct (is_membership _); [|apply preserves_ret].
  destruct (negb _); [apply preserves_raise|].
  apply preserves_bind; [|intros; apply preserves_ret].
  apply preserves_modify. intros s. apply extends_set_heap.
Qed.

(** Rendering any object, with any budget and whatever the outcome,
    leaves the options of the context, their stack and [props] as they
    were, only appends fragments and parameters, and forgets no alias. *)
Theorem ctx_sql_preserves (fuel : nat) (obj : value) :
  preserves (ctx_sql fuel obj).
Proof.
  revert obj. induction fuel as [|n IH]; intros obj; cbn [ctx_sql].
  - apply preserves_raise.
  - destruct obj as [a|k items|f|node key|node alias|l|func node|nodes glue p].
    + destruct a; try apply preserves_ctx_value. apply preserves_literal.
    + apply preserves_with_ctx, preserves_join, IH.
    + apply preserves_Field_sql.
    + apply preserves_bind; [apply IH|]. intros; apply preserves_literal.
    + apply preserves_bind; [apply IH|]. intros _.
      apply preserves_bind; [apply preserves_literal|]. intros _.
      apply preserves_Alias_register.
    + apply preserves_bind; [apply preserves_load|]. intros e.
      apply preserves_bind; [apply preserves_prepare|]. intros ov.
      apply preserves_with_ctx.
      apply preserves_bind; [apply preserves_load|]. intros e1.
      apply preserves_bind; [apply IH|]. intros _.
      apply preserves_bind; [apply preserves_load|]. intros e2.
      apply preserves_bind; [apply preserves_literal|]. intros _.
      apply preserves_bind; [apply preserves_load|]. intros e3. apply IH.
    + apply preserves_bind; [apply preserves_literal|]. intros _.
      apply preserves_with_ctx, IH.
    + apply preserves_with_ctx, preserves_join, IH.
Qed.

Lemma same_pass_extends (s s' : rstate) : same_pass s s' -> extends s s'.
Proof.
  induction 1 as [s | fuel obj s s1 r s2 Hsql _ IH | kwd s s2 _ IH].
  - apply extends_refl.
  - eapply extends_trans; [eapply ctx_sql_preserves, Hsql | exact IH].
  - eapply extends_trans; [apply extends_literal | exact IH].
Qed.

End RenderInvariants.

(* --------------------------------------------------------------------- *)
(** ** Ambiguous aliases                                                  *)
(* --------------------------------------------------------------------- *)

Section AliasProperties.
Context {rt : Runtime}.

(** An alias node over a column that rendered without error has
    registered its alias. *)
Lemma Alias_sql_registers (node : value) (alias : string) (fuel : nat)
    (s s1 : rstate) :
  is_Column node = true ->
  ctx_sql fuel (VAlias node alias) s = (s1, Ok tt) ->
  registered alias s1.
Proof.
  intros Hcol. destruct fuel as [|n]; [discriminate|].
  cbn [ctx_sql]. unfold bind.
  destruct (ctx_sql n node s) as [sa [[]|e]]; [|discriminate].
  unfold literal, modify, Alias_register. rewrite Hcol. unfold bind, get.
  cbn [r_ctx set_ctx]. destruct (_ !! alias) eqn:E; [discriminate|].
  intros [= <-]. unfold registered. cbn.
  rewrite lookup_insert_eq. eauto.
Qed.

(** C9, as the code has it.  Once an alias node over a [Column] has been
    rendered, any alias node over a [Column] with the same alias string
    rendered later in the same pass raises the ambiguous-alias error, at
    the point where its own node and its "AS" fragment have been
    rendered.  An alias node over anything that is not a [Column] (a
    function call, for one) renders its node and its "AS" fragment and
    stops there: it registers nothing and raises nothing of its own,
    whether or not its alias is registered already. *)
Theorem ambiguous_alias (alias : string) :
  (forall (node1 node2 : value) (fuel1 fuel2 : nat) (s s1 s1' s2 : rstate),
      is_Column node1 = true -> is_Column node2 = true ->
      ctx_sql fuel1 (VAlias node1 alias) s = (s1, Ok tt) ->
      same_pass s1 s1' ->
      ctx_sql fuel2 node2 s1' = (s2, Ok tt) ->
      ctx_sql (S fuel2) (VAlias node2 alias) s1' =
        (set_ctx (ctx_literal (" AS `" +:+ alias +:+ "`")) s2,
         Raise (ProgrammingError ("Ambiguous alias: " +:+ alias)))) /\
  (forall (node : value) (fuel : nat) (s s' : rstate) (r : result unit),
      is_Column node = false ->
      ctx_sql fuel node s = (s', r) ->
      let out := ctx_sql (S fuel) (VAlias node alias) s in
      out.2 = r /\
      r_heap out.1 = r_heap s' /\
      c_aliases (r_ctx out.1) = c_aliases (r_ctx s') /\
      c_values (r_ctx out.1) = c_values (r_ctx s') /\
      c_sql (r_ctx out.1) =
        c_sql (r_ctx s')
        ++ match r with
           | Ok _ => [" AS `" +:+ alias +:+ "`"]
           | Raise _ => []
           end).
Proof.
  split.
  - intros node1 node2 fuel1 fuel2 s s1 s1' s2 Hcol1 Hcol2 Hfirst Hpass Hnode.
    assert (Hreg : registered alias s2).
    { pose proof (ctx_sql_preserves _ _ _ _ _ Hnode)
        as (_ & _ & _ & _ & _ & H2).
      pose proof (same_pass_extends _ _ Hpass) as (_ & _ & _ & _ & _ & H1).
      apply H2, H1. exact (Alias_sql_registers _ _ _ _ _ Hcol1 Hfirst). }
    cbn [ctx_sql]. unfold bind at 1. rewrite Hnode.
    unfold literal, modify, bind, Alias_register. rewrite Hcol2.
    unfold bind, get. cbn [r_ctx set_ctx ctx_literal c_aliases].
    destruct Hreg as [x Hx]. unfold registered in Hx. now rewrite Hx.
  - intros node fuel s s' r Hcol Hnode. cbn zeta.
    assert (E : ctx_sql (S fuel) (VAlias node alias) s =
                match r with
                | Ok _ => (set_ctx (ctx_literal (" AS `" +:+ alias +:+ "`"))
                             s', Ok tt)
                | Raise e => (s', Raise e)
                end).
    { cbn [ctx_sql]. unfold bind at 1. rewrite Hnode.
      destruct r as [[]|e]; [|reflexivity].
      unfold bind, literal, modify, Alias_register. now rewrite Hcol. }
    rewrite E. destruct r as [[]|e]; cbn; rewrite ?app_nil_r;
      repeat split; reflexivity.
Qed.

End AliasProperties.

(** C9 as stated fails: an alias node over a function call registers
    nothing, so two such nodes with the same alias render in one pass. *)
Lemma alias_of_function_not_checked :
  ~ (forall (rt : Runtime) (node1 node2 : value) (alias : string)
            (fuel : nat) (s s1 s2 : rstate) (r : result unit),
        ctx_sql fuel (VAlias node1 alias) s = (s1, Ok tt) ->
        ctx_sql fuel (VAlias node2 alias) s1 = (s2, r) ->
        exists e, r = Raise e).
Proof.
  intros H.
  pose (s0 := {| r_heap := ∅; r_ctx := Context_new |}).
  destruct (ctx_sql (rt := Sample.runtime) 4 Sample.count_a_as_x s0)
    as [s1 r1] eqn:E1.
  destruct (ctx_sql (rt := Sample.runtime) 4 Sample.sum_b_as_x s1)
    as [s2 r2] eqn:E2.
  assert (Hr1 : r1 = Ok tt).
  { vm_compute in E1. now injection E1 as _ <-. }
  subst r1.
  destruct (H Sample.runtime _ _ "x" 4%nat s0 s1 s2 r2 E1 E2) as [e He].
  subst r2. vm_compute in E1. injection E1 as <-.
  vm_compute in E2. discriminate E2.
Qed.

Lemma ambiguous_alias_witness :
  exists s2,
    ctx_sql (rt := Sample.runtime) 2 (VAlias (VField Sample.field_b) "x")
      (ctx_sql (rt := Sample.runtime) 2 (VAlias (VField Sample.field_a) "x")
         {| r_heap := ∅; r_ctx := Context_new |}).1 =
    (s2, Raise (ProgrammingError "Ambiguous alias: x")).
Proof.
  eexists.
  apply (proj1 (ambiguous_alias (rt := Sample.runtime) "x")
           (VField Sample.field_a) (VField Sample.field_b) 2%nat 1%nat
           {| r_heap := ∅; r_ctx := Context_new |}
           (ctx_sql (rt := Sample.runtime) 2
              (VAlias (VField Sample.field_a) "x")
              {| r_heap := ∅; r_ctx := Context_new |}).1
           (ctx_sql (rt := Sample.runtime) 2
              (VAlias (VField Sample.field_a) "x")
              {| r_heap := ∅; r_ctx := Context_new |}).1
           (ctx_sql (rt := Sample.runtime) 1 (VField Sample.field_b)
              (ctx_sql (rt := Sample.runtime) 2
                 (VAlias (VField Sample.field_a) "x")
                 {| r_heap := ∅; r_ctx := Context_new |}).1).1).
  - reflexivity.
  - reflexivity.
  - vm_compute. reflexivity.
  - apply pass_here.
  - vm_compute. reflexivity.
Defined.

(* --------------------------------------------------------------------- *)
(** ** The right-hand side of a membership operator                       *)
(* --------------------------------------------------------------------- *)

Section MembershipProperties.
Context {rt : Runtime}.

Lemma ctx_append_append (f1 f2 : list string) (v1 v2 : list atom)
    (c : Context) :
  ctx_append f2 v2 (ctx_append f1 v1 c) = ctx_append (f1 ++ f2) (v1 ++ v2) c.
Proof. unfold ctx_append. cbn. now rewrite <- !app_assoc. Qed.

Lemma set_ctx_set_ctx (f g : Context -> Context) (s : rstate) :
  set_ctx g (set_ctx f s) = set_ctx (fun c => g (f c)) s.
Proof. reflexivity. Qed.

(** One plain value under bound parameters: a placeholder, and the
    converted value joins the parameters. *)
Lemma ctx_sql_plain (n : nat) (a a' : atom) (s : rstate) :
  is_SQL a = false ->
  st_params (c_state (r_ctx s)) = true ->
  match st_converter (c_state (r_ctx s)) with
  | Some f => db_value f a
  | None => Ok a
  end = Ok a' ->
  ctx_sql (S n) (VAtom a) s = (set_ctx (ctx_append ["?"] [a']) s, Ok tt).
Proof.
  intros Hsql Hp Hc.
  assert (E : ctx_sql (S n) (VAtom a) = ctx_value a)
    by (destruct a; try reflexivity; discriminate).
  rewrite E. unfold ctx_value, bind, get. rewrite Hp.
  unfold lift. rewrite Hc. reflexivity.
Qed.

(** The items of a sequence of plain values, comma separated. *)
Lemma join_plain (n : nat) (atoms vs : list atom) (s : rstate) :
  Forall (fun a => is_SQL a = false) atoms ->
  st_params (c_state (r_ctx s)) = true ->
  convert_all (st_converter (c_state (r_ctx s))) atoms = Ok vs ->
  join_nodes (ctx_sql (S n)) ", " (map VAtom atoms) s =
    (set_ctx (ctx_append (comma_list (map (fun _ => "?") atoms)) vs) s,
     Ok tt).
Proof.
  intros Hplain. revert vs s.
  induction Hplain as [|a rest Ha Hrest IH]; intros vs s Hp Hc.
  - injection Hc as <-. cbn. unfold ret. f_equal.
    destruct s as [h c]. unfold set_ctx, ctx_append. cbn.
    rewrite !app_nil_r. now destruct c.
  - cbn [convert_all] in Hc.
    destruct (match st_converter _ with Some f => db_value f a | None => Ok a end)
      as [a'|] eqn:Ea; [|discriminate].
    cbn [rbind] in Hc.
    destruct (convert_all _ rest) as [rest'|] eqn:Er; [|discriminate].
    injection Hc as <-.
    destruct rest as [|b rest].
    + injection Er as <-. cbn [map join_nodes comma_list].
      now apply ctx_sql_plain.
    + cbn [map join_nodes]. unfold bind at 1.
      rewrite (ctx_sql_plain n a a' s Ha Hp Ea).
      unfold bind at 1. unfold literal at 1, modify at 1.
      change (join_nodes (ctx_sql (S n)) ", " (VAtom b :: map VAtom rest))
        with (join_nodes (ctx_sql (S n)) ", " (map VAtom (b :: rest))).
      rewrite (IH rest'); [| exact Hp | exact Er].
      f_equal. destruct s as [h c]. unfold set_ctx. cbn [r_heap r_ctx].
      f_equal. unfold ctx_literal, ctx_append. cbn.
      now rewrite <- !app_assoc.
Qed.

(** A sequence of plain values under bound parameters renders as an
    enclosed comma list of placeholders and binds the converted values,
    in order. *)
Lemma sequence_sql (n : nat) (k : seqkind) (atoms vs : list atom)
    (s : rstate) :
  Forall (fun a => is_SQL a = false) atoms ->
  st_params (c_state (r_ctx s)) = true ->
  convert_all (st_converter (c_state (r_ctx s))) atoms = Ok vs ->
  ctx_sql (S (S n)) (VSeq k (map VAtom atoms)) s =
    (set_ctx (ctx_append (enclosed (map (fun _ => "?") atoms)) vs) s, Ok tt).
Proof.
  intros Hplain Hp Hc. cbn [ctx_sql].
  unfold with_ctx, bind, modify, finally.
  rewrite (join_plain n atoms vs); [| exact Hplain | exact Hp | exact Hc].
  f_equal. destruct s as [h c]. unfold set_ctx. cbn [r_heap r_ctx].
  f_equal. unfold ctx_exit, ctx_enter, ctx_pop, ctx_push, ctx_literal,
    ctx_append, enclosed. cbn. now rewrite <- !app_assoc.
Qed.

(** A one-element enclosed list is its element between parentheses. *)
Lemma enclosed_node_sql (n : nat) (node : value) (s s1 : rstate) :
  ctx_sql n node (set_ctx (ctx_literal "(") (set_ctx (ctx_push enclosing) s))
    = (s1, Ok tt) ->
  ctx_sql (S n) (EnclosedNodeList [node]) s =
    (set_ctx (fun c => ctx_pop (ctx_literal ")" c)) s1, Ok tt).
Proof.
  intros Hnode. cbn [ctx_sql EnclosedNodeList join_nodes].
  unfold with_ctx, bind, modify, finally.
  change (set_ctx ctx_enter (set_ctx (ctx_push _) s))
    with (set_ctx (ctx_literal "(") (set_ctx (ctx_push enclosing) s)).
  rewrite Hnode. f_equal.
  pose proof (ctx_sql_preserves _ _ _ _ _ Hnode) as (Hst & _).
  unfold set_ctx, ctx_exit. f_equal. now rewrite Hst.
Qed.

(** The list [Expression.__sql__] stores is never the node it wraps. *)
Lemma EnclosedNodeList_neq (v : value) : EnclosedNodeList [v] <> v.
Proof.
  intros H. apply (f_equal vsize) in H. cbn in H. lia.
Qed.

(** Rendering an expression with a membership operator and a node as
    right-hand side writes the object: whatever the outcome, the [rhs] in
    the heap afterwards is not the [rhs] before. *)
Lemma membership_node_rhs_mutated (l : loc) (e : Expression) (s : rstate) :
  is_membership (op e) = true -> is_Node (rhs e) = true ->
  exists e', r_heap (Expression_prepare l e s).1 !! l = Some e' /\
             rhs e' = EnclosedNodeList [rhs e] /\ rhs e' <> rhs e.
Proof.
  intros Hop Hnode. unfold Expression_prepare.
  rewrite Hop, Hnode, orb_true_r. cbn [negb].
  eexists. split; [cbn; apply lookup_insert_eq|].
  split; [reflexivity|]. apply EnclosedNodeList_neq.
Qed.

End MembershipProperties.

(* --------------------------------------------------------------------- *)
(** ** A membership test from end to end                                  *)
(* --------------------------------------------------------------------- *)

Section EndToEnd.
Context {rt : Runtime}.

Lemma tuple_idem (v : value) : tuple (tuple v) = tuple v.
Proof. now destruct v. Qed.

(** Any other operator leaves the expression as it is. *)
Lemma prepare_other_operator (l : loc) (e : Expression) (s : rstate) :
  is_membership (op e) = false ->
  (Expression_prepare l e s).1 = s.
Proof. intros H. unfold Expression_prepare. now rewrite H. Qed.

(** [f.in_(seq)] from end to end, for a field [f] not bound to a table
    and a sequence of plain values: the column, the operator and the
    enclosed list of placeholders, and the parameters converted by the
    [db_value] of [f]. *)
Lemma field_in_sequence_sql (n : nat) (l : loc) (e : Expression) (f : Field)
    (col : string) (k : seqkind) (atoms vs : list atom) (s : rstate) :
  r_heap s !! l = Some e ->
  lhs e = VField f -> rhs e = VSeq k (map VAtom atoms) ->
  is_membership (op e) = true ->
  f_table f = None -> column f = Ok col ->
  Forall (fun a => is_SQL a = false) atoms ->
  convert_all (Some f) atoms = Ok vs ->
  ctx_sql (S (S (S n))) (VExpr l) s =
    ({| r_heap := <[l := with_rhs e (VSeq KTuple (map VAtom atoms))]>
                    (r_heap s);
        r_ctx := ctx_append
                   (opening (parens e)
                    ++ [col; " " +:+ OPERATOR (op e) +:+ " "]
                    ++ enclosed (map (fun _ => "?") atoms)
                    ++ closing (parens e)) vs (r_ctx s) |}, Ok tt).
Proof.
  intros Hload Hlhs Hrhs Hop Htab Hcol Hplain Hconv.
  remember (S (S n)) as m eqn:Em.
  cbn [ctx_sql]. unfold bind at 1. unfold load at 1, bind at 1, get at 1.
  rewrite Hload. unfold ret at 1.
  unfold bind at 1. unfold Expression_prepare.
  rewrite Hop, Hrhs, Hlhs. cbn [is_sequence is_Node orb negb is_FieldBase tuple].
  unfold bind at 1, modify at 1, ret at 1.
  unfold with_ctx, bind at 1, modify at 1, bind at 1, modify at 1, finally.
  set (s1 := set_ctx ctx_enter (set_ctx (ctx_push _) (set_heap _ s))).
  assert (Hh : r_heap s1 !! l
               = Some (with_rhs e (VSeq KTuple (map VAtom atoms)))).
  { subst s1. cbn. apply lookup_insert_eq. }
  assert (Hstate : c_state (r_ctx s1) =
                   {| st_parens := parens e; st_params := true;
                      st_nesting := true; st_converter := Some f |}).
  { subst s1. cbn [r_ctx set_ctx set_heap].
    destruct (ctx_enter_frame (ctx_push
       {| ov_parens := Some (parens e); ov_params := Some true;
          ov_nesting := Some true; ov_converter := Some f |} (r_ctx s)))
      as (-> & _). reflexivity. }
  unfold bind at 1. unfold load at 1, bind at 1, get at 1. rewrite Hh.
  unfold ret at 1. cbn [lhs with_rhs]. rewrite Hlhs.
  unfold bind at 1.
  assert (Hf : ctx_sql m (VField f) s1
               = (set_ctx (ctx_literal col) s1, Ok tt)).
  { rewrite Em. cbn [ctx_sql]. unfold Field_sql, bind, get. rewrite Htab.
    unfold lift. rewrite Hcol. reflexivity. }
  rewrite Hf.
  unfold bind at 1. unfold load at 1, bind at 1, get at 1.
  cbn [r_heap set_ctx]. rewrite Hh. unfold ret at 1.
  unfold bind at 1, literal at 1, modify at 1.
  unfold bind at 1. unfold load at 1, bind at 1, get at 1.
  cbn [r_heap set_ctx]. rewrite Hh. unfold ret at 1.
  cbn [rhs op with_rhs].
  rewrite Em.
  rewrite (sequence_sql n KTuple atoms vs); [| exact Hplain | |].
  2: { cbn [r_ctx set_ctx ctx_literal c_state]. now rewrite Hstate. }
  2: { cbn [r_ctx set_ctx ctx_literal c_state]. now rewrite Hstate. }
  f_equal. subst s1. destruct s as [h c].
  unfold set_ctx, set_heap, ctx_exit, ctx_enter. cbn [r_heap r_ctx].
  f_equal. cbn [ctx_push State_call ov_parens default c_state st_parens
                from_option id].
  unfold ctx_append, ctx_pop, ctx_literal, enclosed, opening, closing.
  destruct (parens e); cbn; f_equal;
    repeat first [rewrite <- app_assoc | progress cbn [app]]; reflexivity.
Qed.

(** [f.in_(node)] from end to end, for a field [f] not bound to a table:
    the column, the operator, and the node between the parentheses of
    the one-element list that has replaced it, whatever the rendering of
    the node comes to. *)
Lemma field_in_node_sql (n : nat) (l : loc) (e : Expression) (f : Field)
    (col : string) (s s2 : rstate) (r : result unit) :
  r_heap s !! l = Some e ->
  lhs e = VField f -> is_Node (rhs e) = true ->
  is_membership (op e) = true ->
  f_table f = None -> column f = Ok col ->
  ctx_sql n (rhs e)
    {| r_heap := <[l := with_rhs e (EnclosedNodeList [rhs e])]> (r_heap s);
       r_ctx := ctx_append
                  (opening (parens e)
                   ++ [col; " " +:+ OPERATOR (op e) +:+ " "; "("]) []
                  (ctx_push enclosing
                     (ctx_push {| ov_parens := Some (parens e);
                                  ov_params := Some true;
                                  ov_nesting := Some true;
                                  ov_converter := Some f |} (r_ctx s))) |}
    = (s2, r) ->
  ctx_sql (S (S n)) (VExpr l) s =
    ({| r_heap := r_heap s2;
        r_ctx := {| c_sql := c_sql (r_ctx s2) ++ [")"] ++ closing (parens e);
                    c_values := c_values (r_ctx s2);
                    c_state := c_state (r_ctx s);
                    c_stack := c_stack (r_ctx s);
                    c_aliases := c_aliases (r_ctx s2);
                    c_props := c_props (r_ctx s2) |} |}, r).
Proof.
  intros Hload Hlhs Hnode Hop Htab Hcol Hrhs.
  remember (S n) as m eqn:Em.
  cbn [ctx_sql]. unfold bind at 1. unfold load at 1, bind at 1, get at 1.
  rewrite Hload. unfold ret at 1.
  unfold bind at 1. unfold Expression_prepare.
  rewrite Hop, Hnode, Hlhs, orb_true_r. cbn [negb is_FieldBase].
  unfold bind at 1, modify at 1, ret at 1.
  unfold with_ctx, bind at 1, modify at 1, bind at 1, modify at 1, finally.
  set (ov := {| ov_parens := Some (parens e); ov_params := Some true;
                ov_nesting := Some true; ov_converter := Some f |}).
  set (s1 := set_ctx ctx_enter (set_ctx (ctx_push ov) (set_heap _ s))).
  assert (Hh : r_heap s1 !! l
               = Some (with_rhs e (EnclosedNodeList [rhs e]))).
  { subst s1. cbn. apply lookup_insert_eq. }
  unfold bind at 1. unfold load at 1, bind at 1, get at 1. rewrite Hh.
  unfold ret at 1. cbn [lhs with_rhs]. rewrite Hlhs.
  unfold bind at 1.
  assert (Hf : ctx_sql m (VField f) s1
               = (set_ctx (ctx_literal col) s1, Ok tt)).
  { rewrite Em. cbn [ctx_sql]. unfold Field_sql, bind, get. rewrite Htab.
    unfold lift. rewrite Hcol. reflexivity. }
  rewrite Hf.
  unfold bind at 1. unfold load at 1, bind at 1, get at 1.
  cbn [r_heap set_ctx]. rewrite Hh. unfold ret at 1.
  unfold bind at 1, literal at 1, modify at 1.
  unfold bind at 1. unfold load at 1, bind at 1, get at 1.
  cbn [r_heap set_ctx]. rewrite Hh. unfold ret at 1.
  cbn [rhs op with_rhs].
  rewrite Em. unfold EnclosedNodeList. cbn [ctx_sql join_nodes].
  unfold with_ctx, bind at 1, modify at 1, bind at 1, modify at 1, finally.
  match goal with
  | |- context [ctx_sql n (rhs e) ?st] =>
      replace st with
        {| r_heap := <[l := with_rhs e (EnclosedNodeList [rhs e])]>
                       (r_heap s);
           r_ctx := ctx_append
                      (opening (parens e)
                       ++ [col; " " +:+ OPERATOR (op e) +:+ " "; "("]) []
                      (ctx_push enclosing (ctx_push ov (r_ctx s))) |}
  end.
  2: { subst s1. destruct s as [h c]. unfold set_ctx, set_heap.
       cbn [r_heap r_ctx]. f_equal.
       unfold ctx_enter, ctx_push, ctx_literal, ctx_append, opening.
       cbn. destruct (parens e); cbn; f_equal;
         repeat first [rewrite <- app_assoc | progress cbn [app]
                      | rewrite app_nil_r]; reflexivity. }
  subst ov. rewrite Hrhs.
  pose proof (ctx_sql_preserves _ _ _ _ _ Hrhs) as (Hst & Hstack & _).
  cbn [r_ctx ctx_append c_state c_stack ctx_push] in Hst, Hstack.
  destruct r as [[]|x]; f_equal;
    unfold set_ctx, ctx_exit, ctx_pop, ctx_literal; cbn [r_heap r_ctx];
    rewrite ?Hst, ?Hstack; cbn;
    destruct (parens e); cbn; rewrite <- ?app_assoc; reflexivity.
Qed.


(** C6.  Let [e] be the expression at [l], with a membership operator,
    and let it be rendered.  If its [rhs] is neither a sequence nor a
    node, the rendering raises the type error and changes nothing.  If
    it is a node, the object is written: its [rhs] is now the
    one-element enclosed list of that node, nothing else of it has
    changed, and nested-list rendering and bound parameters are switched
    on; with an unbound field on the left, the rendering emits the
    column, the operator and the node between parentheses.  If it is a
    sequence, its [rhs] is now the tuple of the items; with an unbound
    field on the left and plain values as items, the rendering emits the
    column, the operator and an enclosed comma list of placeholders, and
    the values, converted by the field, join the parameters in order. *)
Theorem membership_rhs (l : loc) (e : Expression) (s : rstate) (n : nat)
    (Hload : r_heap s !! l = Some e)
    (Hop : is_membership (op e) = true) :
  let token := " " +:+ OPERATOR (op e) +:+ " " in
  let stored r :=
    <[l := {| lhs := lhs e; op := op e; rhs := r; parens := parens e;
              strexpr := strexpr e |}]> (r_heap s) in
  let ov conv :=
    {| ov_parens := Some (parens e); ov_params := Some true;
       ov_nesting := Some true; ov_converter := conv |} in
  let conv := match is_FieldBase (lhs e) with
              | Some f => Some f
              | None => is_FieldBase (rhs e)
              end in
  (is_sequence (rhs e) = false -> is_Node (rhs e) = false ->
   ctx_sql (S n) (VExpr l) s = (s, Raise (TypeError (invalid_values e)))) /\
  (is_Node (rhs e) = true ->
   Expression_prepare l e s =
     ({| r_heap := stored (VNodeList [rhs e] ", " true); r_ctx := r_ctx s |},
      Ok (ov conv)) /\
   forall f col s2 r,
     lhs e = VField f -> f_table f = None -> column f = Ok col ->
     ctx_sql n (rhs e)
       {| r_heap := stored (VNodeList [rhs e] ", " true);
          r_ctx := ctx_append (opening (parens e) ++ [col; token; "("]) []
                     (ctx_push enclosing
                        (ctx_push (ov (Some f)) (r_ctx s))) |}
       = (s2, r) ->
     ctx_sql (S (S n)) (VExpr l) s =
       ({| r_heap := r_heap s2;
           r_ctx := {| c_sql := c_sql (r_ctx s2) ++ [")"]
                                ++ closing (parens e);
                       c_values := c_values (r_ctx s2);
                       c_state := c_state (r_ctx s);
                       c_stack := c_stack (r_ctx s);
                       c_aliases := c_aliases (r_ctx s2);
                       c_props := c_props (r_ctx s2) |} |}, r)) /\
  (forall k items, rhs e = VSeq k items ->
   Expression_prepare l e s =
     ({| r_heap := stored (VSeq KTuple items); r_ctx := r_ctx s |},
      Ok (ov conv)) /\
   forall f col atoms vs,
     lhs e = VField f -> f_table f = None -> column f = Ok col ->
     items = map VAtom atoms ->
     Forall (fun a => is_SQL a = false) atoms ->
     convert_all (Some f) atoms = Ok vs ->
     ctx_sql (S (S (S n))) (VExpr l) s =
       ({| r_heap := stored (VSeq KTuple items);
           r_ctx := ctx_append
                      (opening (parens e) ++ [col; token]
                       ++ enclosed (map (fun _ => "?") atoms)
                       ++ closing (parens e)) vs (r_ctx s) |}, Ok tt)).
Proof.
  cbn zeta. split; [|split].
  - intros Hseq Hnode. cbn [ctx_sql]. unfold bind at 1, load, bind, get.
    rewrite Hload. unfold ret, Expression_prepare.
    rewrite Hop, Hseq, Hnode. reflexivity.
  - intros Hnode. split.
    + unfold Expression_prepare. rewrite Hop, Hnode, orb_true_r.
      reflexivity.
    + intros f col s2 r Hlhs Htab Hcol Hrhs.
      now apply (field_in_node_sql n l e f col s s2 r).
  - intros k items Hrhs. split.
    + unfold Expression_prepare. rewrite Hop, Hrhs. reflexivity.
    + intros f col atoms vs Hlhs Htab Hcol -> Hplain Hconv.
      exact (field_in_sequence_sql n l e f col k atoms vs s Hload Hlhs Hrhs
               Hop Htab Hcol Hplain Hconv).
Qed.

End EndToEnd.

Lemma membership_rhs_witness :
  ctx_sql (rt := Sample.runtime) 3 (VExpr Sample.a_in_b_loc)
    {| r_heap := Sample.a_in_list; r_ctx := Context_new |} =
  ({| r_heap :=
        <[Sample.a_in_b_loc :=
            {| lhs := VField Sample.field_a; op := IN;
               rhs := VSeq KTuple [VAtom (AInt 1); VAtom (AInt 2)];
               parens := true; strexpr := false |}]> Sample.a_in_list;
      r_ctx := ctx_append
                 ["("; "`a`"; " IN "; "("; "?"; ", "; "?"; ")"; ")"]
                 [AInt 1; AInt 2] Context_new |}, Ok tt).
Proof.
  destruct (membership_rhs (rt := Sample.runtime) Sample.a_in_b_loc
              Sample.a_in_list_expr
              {| r_heap := Sample.a_in_list; r_ctx := Context_new |} 0)
    as (_ & _ & H).
  - vm_compute. reflexivity.
  - reflexivity.
  - destruct (H KList [VAtom (AInt 1); VAtom (AInt 2)] eq_refl) as [_ H'].
    apply (H' Sample.field_a "`a`" [AInt 1; AInt 2] [AInt 1; AInt 2]).
    + reflexivity.
    + reflexivity.
    + reflexivity.
    + reflexivity.
    + repeat constructor.
    + reflexivity.
Defined.

(* --------------------------------------------------------------------- *)
(** ** Rendering twice                                                    *)
(* --------------------------------------------------------------------- *)

(** C1 fails on the code.  The expression [a.in_(b)] over two fields
    renders as "(`a` IN (`b`))"; the rendering has replaced its [rhs] by
    the enclosed list of [b], and a second rendering of the same object,
    in a fresh context, gives "(`a` IN ((`b`)))". *)
Theorem render_twice_differs :
  let first := render (rt := Sample.runtime) 4 (VExpr Sample.a_in_b_loc)
                 Sample.a_in_b in
  let second := render (rt := Sample.runtime) 4 (VExpr Sample.a_in_b_loc)
                  first.1 in
  rhs <$> (Sample.a_in_b !! Sample.a_in_b_loc)
    = Some (VField Sample.field_b) /\
  first.2 = Ok ("(`a` IN (`b`))", []) /\
  rhs <$> (first.1 !! Sample.a_in_b_loc)
    = Some (EnclosedNodeList [VField Sample.field_b]) /\
  second.2 = Ok ("(`a` IN ((`b`)))", []) /\
  first.2 <> second.2.
Proof.
  vm_compute. repeat split; discriminate.
Qed.

(* ===================================================================== *)
(** * Further properties of the module                                    *)
(* ===================================================================== *)

(* --------------------------------------------------------------------- *)
(** ** The operator table                                                 *)
(* --------------------------------------------------------------------- *)

(** X1.  No two operators of [ColumnBase.OPERATOR] share a SQL token, so
    the membership test of [Expression.__sql__], which compares tokens,
    selects exactly IN, NOT IN, EXISTS and NOT EXISTS. *)
Theorem OPERATOR_tokens_distinct (o1 o2 : operator) :
  (String.eqb (OPERATOR o1) (OPERATOR o2) = true <-> o1 = o2) /\
  is_membership o1 =
    existsb (String.eqb (OPERATOR o1))
      [OPERATOR IN; OPERATOR NOT_IN; OPERATOR EXISTS; OPERATOR NEXISTS].
Proof.
  split.
  - split.
    + destruct o1, o2; intros H; try reflexivity; discriminate H.
    + intros ->. apply String.eqb_refl.
  - destruct o1; reflexivity.
Qed.

(* --------------------------------------------------------------------- *)
(** ** Column definitions                                                 *)
(* --------------------------------------------------------------------- *)

Section MoreDDLProperties.
Context {rt : Runtime}.

Lemma db_type_timestamp (c : fclass) :
  String.eqb (db_type c) "timestamp"
  = match c with FTimestamp => true | _ => false end.
Proof. destruct c; reflexivity. Qed.

(** X2.  For a nullable field that is not auto-increment,
    [_parse_default] gives: "NULL" when the field has no [default]
    attribute or its default is the sentinel 'null'; "DEFAULT NULL" when
    the default is [None] or a callable ("NULL DEFAULT NULL" for a
    timestamp); "DEFAULT <sql>" for a raw-SQL default; and otherwise
    "DEFAULT '<s>'" with [s] the field's [to_str] of the default, whose
    error it passes on. *)
Theorem nullable_default_clause (f : Field)
    (Hnull : f_null f = true) (Hauto : option_truthy (f_auto f) = false) :
  _parse_default (_parse_options f) (db_type (f_class f)) =
    let default_null :=
      match f_class f with
      | FTimestamp => "NULL DEFAULT NULL"
      | _ => "DEFAULT NULL"
      end in
    match f_default f with
    | None => Ok (Some "NULL")
    | Some ANone | Some (ACallable _) => Ok (Some default_null)
    | Some (ASql sql) => Ok (Some ("DEFAULT " +:+ sql))
    | Some d =>
        if atom_eqb_str d "null" then Ok (Some "NULL")
        else let? s := to_str f d in Ok (Some ("DEFAULT '" +:+ s +:+ "'"))
    end.
Proof.
  unfold _parse_default, _parse_options. cbn [o_auto o_allow_null o_default].
  rewrite Hnull, Hauto, db_type_timestamp.
  destruct (f_default f) as [d|]; [|reflexivity].
  destruct d; cbn; try (destruct (f_class f); reflexivity);
    try (destruct (to_str f _); reflexivity).
Qed.

(** X3.  [_parse_default] never returns [None]: when [FieldDDL.parse]
    succeeds, the definition is the column identifier, the type
    descriptor and at least one more fragment, the nullability and
    default clause being always present. *)
Theorem definition_has_default_clause (f : Field) :
  (forall ops dbt, _parse_default ops dbt <> Ok None) /\
  match parse f with
  | Ok (c :: t :: rest) =>
      column f = Ok c /\ t = _parse_type f /\
      exists clause,
        _parse_default (_parse_options f) (db_type (f_class f))
          = Ok (Some clause) /\ In clause rest
  | Ok _ => False
  | Raise _ => True
  end.
Proof.
  assert (Hnone : forall ops dbt, _parse_default ops dbt <> Ok None).
  { intros ops dbt. unfold _parse_default, to_default_sql.
    destruct (option_truthy _); [discriminate|].
    destruct (o_allow_null ops); destruct (o_default ops); cbn;
      try discriminate;
      try (destruct (o_adapt ops _); cbn; discriminate);
      try (destruct (String.eqb _ _); try discriminate;
           destruct (o_adapt ops _); cbn; discriminate). }
  split; [exact Hnone|].
  unfold parse. destruct (column f) as [c|e]; [|exact I]. cbn [rbind].
  destruct (_parse_default _ _) as [[clause|]|e] eqn:E; cbn [rbind];
    [| exfalso; exact (Hnone _ _ E) | exact I].
  cbn [app]. split; [reflexivity|]. split; [reflexivity|].
  exists clause. split; [reflexivity|].
  rewrite !in_app_iff. right. right. right. now left.
Qed.

End MoreDDLProperties.

Lemma nullable_default_clause_witness :
  _parse_default (_parse_options (rt := Sample.runtime) Sample.field_a)
    (db_type (f_class Sample.field_a)) = Ok (Some "DEFAULT NULL").
Proof.
  rewrite (nullable_default_clause (rt := Sample.runtime) Sample.field_a).
  - reflexivity.
  - reflexivity.
  - reflexivity.
Defined.


(* --------------------------------------------------------------------- *)
(** ** Fields without a name                                              *)
(* --------------------------------------------------------------------- *)

Section NameProperties.
Context {rt : Runtime}.

Lemma column_unnamed (f : Field) :
  f_name f = None \/ f_name f = Some "" -> column f = Raise NoColumnNameError.
Proof. unfold column. intros [-> | ->]; reflexivity. Qed.

(** X4.  A field whose name is [None] or empty cannot be used as a
    column: its [column] property, its definition ([FieldDDL.parse]), its
    rendering in any context and an index built over it all raise
    [NoColumnNameError]. *)
Theorem unnamed_field_fails (f : Field)
    (Hname : f_name f = None \/ f_name f = Some "") :
  column f = Raise NoColumnNameError /\
  parse f = Raise NoColumnNameError /\
  (forall n s, (ctx_sql (S n) (VField f) s).2 = Raise NoColumnNameError) /\
  (forall unique name comment,
      Index_init unique name (VField f) comment = Raise NoColumnNameError).
Proof.
  pose proof (column_unnamed f Hname) as Hcol.
  split; [exact Hcol|]. split; [|split].
  - unfold parse. now rewrite Hcol.
  - intros n s. cbn [ctx_sql]. unfold Field_sql, bind, get, lift.
    rewrite Hcol.
    destruct (f_table f) as [t|]; [|reflexivity].
    destruct (negb _); [|reflexivity].
    destruct (select_is_True _); reflexivity.
  - intros unique name comment. unfold Index_init. cbn. now rewrite Hcol.
Qed.

End NameProperties.

Lemma unnamed_field_fails_witness :
  parse (rt := Sample.runtime) (blank FInt) = Raise NoColumnNameError.
Proof.
  apply (unnamed_field_fails (rt := Sample.runtime) (blank FInt)).
  left. reflexivity.
Defined.

(* --------------------------------------------------------------------- *)
(** ** Definitions of constructed fields                                  *)
(* --------------------------------------------------------------------- *)

Section ConstructedDefinitions.
Context {rt : Runtime}.

Lemma length_or_default_idem (c : fclass) (length : option Z) :
  default_length c <> 0 ->
  length_or_default c (Some (length_or_default c length))
    = length_or_default c length /\
  (length_or_default c length =? 0) = false.
Proof.
  intros Hd. unfold length_or_default.
  destruct length as [n|].
  - destruct (n =? 0) eqn:E.
    + apply Z.eqb_neq in Hd. now rewrite Hd.
    + now rewrite E.
  - apply Z.eqb_neq in Hd. now rewrite Hd.
Qed.

(** The proof of the definition of one auto-increment class. *)
Ltac auto_definition Hname :=
  apply String.eqb_neq in Hname;
  eexists; split;
  [ reflexivity
  | unfold parse, column, _parse_type, _parse_default, _parse_options;
    cbn; rewrite Hname; cbn;
    match goal with
    | |- context [length_or_default ?c ?l] =>
        destruct (length_or_default_idem c l ltac:(discriminate))
          as [Hidem Hnz];
        unfold length_or_default in Hidem, Hnz |- *;
        cbn [negb] in *; rewrite ?Hnz; reflexivity
    end ].

(** X5.  The definition of an [Auto] or [BigAuto] column with a name: the
    quoted name, "int(n)" or "bigint(n)" with the given or the default
    display length (11, 20), "unsigned" and "zerofill" when asked for,
    then "NOT NULL AUTO_INCREMENT", and the comment if there is one.  No
    DEFAULT clause appears. *)
Theorem Auto_definition (length : option Z) (unsigned zerofill : bool)
    (comment name : string) (Hname : name <> "") :
  (exists f,
      Auto length unsigned zerofill comment (Some name) = Ok (f, []) /\
      parse f =
        Ok (["`" +:+ name +:+ "`";
             "int(" +:+ str_of_Z (length_or_default FAuto length) +:+ ")"]
            ++ opt_list unsigned "unsigned"
            ++ opt_list zerofill "zerofill"
            ++ ["NOT NULL AUTO_INCREMENT"]
            ++ opt_list (negb (String.eqb comment ""))
                 ("COMMENT '" +:+ comment +:+ "'"))) /\
  (exists f,
      BigAuto length unsigned zerofill comment (Some name) = Ok (f, []) /\
      parse f =
        Ok (["`" +:+ name +:+ "`";
             "bigint(" +:+ str_of_Z (length_or_default FBigAuto length)
             +:+ ")"]
            ++ opt_list unsigned "unsigned"
            ++ opt_list zerofill "zerofill"
            ++ ["NOT NULL AUTO_INCREMENT"]
            ++ opt_list (negb (String.eqb comment ""))
                 ("COMMENT '" +:+ comment +:+ "'"))).
Proof.
  split.
  - pose proof Hname as Hn. auto_definition Hn.
  - pose proof Hname as Hn. auto_definition Hn.
Qed.

(** X6.  [Text(...)] fails only on an unsupported encoding.  The field it
    returns has no [default] attribute and was built without a warning,
    and its definition never carries a DEFAULT clause: the clause is a
    bare "NULL" when the column is nullable and "NOT NULL" otherwise. *)
Theorem Text_has_no_default (encoding : option string) (null : bool)
    (comment : string) (name : option string) :
  match Text encoding null comment name with
  | Ok (f, w) =>
      unsupported_encoding encoding = false /\ w = [] /\
      f_default f = None /\ f_encoding f = encoding /\
      _parse_default (_parse_options f) (db_type (f_class f))
        = Ok (Some (if null then "NULL" else "NOT NULL"))
  | Raise e =>
      unsupported_encoding encoding = true /\ exists msg, e = ValueError msg
  end.
Proof.
  unfold Text. destruct (unsupported_encoding encoding).
  - split; [reflexivity | eexists; reflexivity].
  - split; [reflexivity|]. split; [reflexivity|]. split; [reflexivity|].
    split; [reflexivity|]. destruct null; reflexivity.
Qed.

(** X7.  [VarChar] with a supported encoding (or none) and a name, not
    nullable and without default: the constructor returns the field with
    exactly one warning, and the definition is the quoted name,
    "varchar(n)" with the given length or 254, the CHARACTER SET clause
    when an encoding was given, and "NOT NULL".  With an unsupported
    encoding the constructor raises a value error. *)
Theorem VarChar_definition (length : option Z) (encoding : option string)
    (name : string) (Hname : name <> "") :
  if unsupported_encoding encoding then
    exists msg,
      VarChar length encoding false ANone "" (Some name)
        = Raise (ValueError msg)
  else
    exists f w,
      VarChar length encoding false ANone "" (Some name) = Ok (f, [w]) /\
      parse f =
        Ok (["`" +:+ name +:+ "`";
             "varchar(" +:+ str_of_Z (match length with
                                      | Some n => if n =? 0 then 254 else n
                                      | None => 254
                                      end) +:+ ")"]
            ++ match encoding with
               | Some e => opt_list (negb (String.eqb e ""))
                             ("CHARACTER SET " +:+ e)
               | None => []
               end
            ++ ["NOT NULL"]).
Proof.
  apply String.eqb_neq in Hname.
  unfold VarChar, Char_init.
  destruct (unsupported_encoding encoding); [eexists; reflexivity|].
  eexists. eexists. split; [reflexivity|].
  unfold parse, column, _parse_type, _parse_default, _parse_options.
  cbn. rewrite Hname. cbn.
  assert (Hnz : (match length with
                 | Some n => if n =? 0 then 254 else n
                 | None => 254
                 end =? 0) = false).
  { destruct length as [n|]; [|reflexivity].
    destruct (n =? 0) eqn:E; [reflexivity | exact E]. }
  rewrite Hnz. reflexivity.
Qed.


(** X9.  A [UUID] field is never nullable and is built without a warning,
    with the attributes given.  [UUID(...)] raises in two cases only: a
    primary key given a default, and, for a field that is no primary
    key, a truthy default that is neither a UUID object, a raw-SQL
    literal nor a callable; so a string that is not empty is rejected as
    a default. *)
Theorem UUID_construction (primary_key : bool) (default : atom)
    (comment : string) (name : option string) :
  let right_type :=
    match default with AUuid _ | ASql _ | ACallable _ => true | _ => false end
  in
  match UUID primary_key default comment name with
  | Ok (f, w) =>
      w = [] /\ f_null f = false /\ f_class f = FUUID /\
      f_primary_key f = Some primary_key /\
      f_default f = Some default /\ f_name f = name /\
      f_comment f = comment /\ f_table f = None /\
      (primary_key = true -> default = ANone) /\
      (atom_truthy default = false \/ right_type = true) /\
      _parse_type f = "varchar(40)"
  | Raise e =>
      (primary_key = true /\ default <> ANone /\
       e = ProgrammingError "Primary key field not allow set default") \/
      (primary_key = false /\ atom_truthy default = true /\
       right_type = false /\
       e = TypeError ("Invalid UUID default value (" +:+ py_str default
                      +:+ ")"))
  end.
Proof.
  cbn zeta. unfold UUID. destruct primary_key.
  - destruct default;
      try (left; split; [reflexivity|]; split; [discriminate|]; reflexivity).
    cbn. repeat split. now left.
  - unfold FieldBase_init.
    cbn [f_class blank isinstance_py_type].
    destruct (atom_truthy default) eqn:Et.
    + destruct default; cbn [is_SQL callable orb negb andb];
        try (right; repeat split; reflexivity);
        try (cbn; repeat split; try discriminate; now right).
    + cbn [andb]. cbn. repeat split; try discriminate. now left.
Qed.

End ConstructedDefinitions.

Lemma Auto_definition_witness :
  exists f,
    Auto (rt := Sample.runtime) None false false "" (Some "id") = Ok (f, []) /\
    parse (rt := Sample.runtime) f
      = Ok ["`id`"; "int(11)"; "NOT NULL AUTO_INCREMENT"].
Proof.
  apply (proj1 (Auto_definition (rt := Sample.runtime) None false false ""
                  "id" ltac:(discriminate))).
Defined.

Lemma VarChar_definition_witness :
  exists f w,
    VarChar (rt := Sample.runtime) (Some 100) None false ANone ""
      (Some "email") = Ok (f, [w]) /\
    parse (rt := Sample.runtime) f
      = Ok ["`email`"; "varchar(100)"; "NOT NULL"].
Proof.
  apply (VarChar_definition (rt := Sample.runtime) (Some 100) None "email").
  discriminate.
Defined.


(* --------------------------------------------------------------------- *)
(** ** Conversions of the other field classes                             *)
(* --------------------------------------------------------------------- *)

Section MoreConversionProperties.
Context {rt : Runtime}.

(** X10.  The conversions of a [Bool] field never raise: [py_value] and
    [db_value] return [None] for [None] and the truth value of anything
    else, and [to_str] returns "1" for a truthy value and "0" otherwise,
    [None] included. *)
Theorem Bool_conversions_total (f : Field) (v : atom)
    (Hf : f_class f = FBool) :
  db_value f v = Ok (match v with
                     | ANone => ANone
                     | _ => ABool (atom_truthy v)
                     end) /\
  py_value f v = db_value f v /\
  to_str f v = Ok (if atom_truthy v then "1" else "0").
Proof.
  unfold to_str, py_value, db_value. rewrite Hf.
  unfold FieldBase_py_value, FieldBase_db_value, adapt, FieldBase_adapt,
    py_type. rewrite Hf.
  destruct v; cbn; repeat split; try reflexivity.
  all: match goal with
       | |- context [if ?b then _ else _] => destruct b; reflexivity
       | _ => idtac
       end.
  all: try (destruct b as [|? ?]; reflexivity).
  all: try (destruct x; reflexivity).
  all: try (destruct d as [? [|?] ?| |]; reflexivity).
Qed.

Lemma validated_adapt_eq (valid : string -> bool) (what : string)
    (f : Field) (v : atom) :
  v <> ANone ->
  validated_adapt valid what f v =
    if String.eqb (py_str v) "" then Ok (AStr (py_str v))
    else if valid (py_str v) then Ok (AStr (py_str v))
    else Raise (ValueError ("Invalid value(" +:+ py_repr (AStr (py_str v))
                            +:+ ") for " +:+ what +:+ " Field")).
Proof.
  intros Hv. unfold validated_adapt.
  destruct v; try congruence; cbn [isinstance_str atom_truthy py_str];
    destruct (String.eqb _ ""); cbn [negb]; try reflexivity;
    destruct (valid _); reflexivity.
Qed.

Lemma validated_adapt_spec (valid : string -> bool) (what : string)
    (f : Field) (v : atom) :
  match validated_adapt valid what f v with
  | Ok w =>
      match w with
      | ANone => v = ANone
      | AStr s => s = py_str v /\ (s = "" \/ valid s = true)
      | _ => False
      end
  | Raise e => valid (py_str v) = false /\ exists msg, e = ValueError msg
  end.
Proof.
  destruct (is_None_atom v) eqn:En.
  - destruct v; try discriminate. reflexivity.
  - rewrite validated_adapt_eq by (intros ->; discriminate).
    destruct (String.eqb (py_str v) "") eqn:Es.
    + apply String.eqb_eq in Es. split; [reflexivity | now left].
    + destruct (valid (py_str v)) eqn:Ev.
      * split; [reflexivity | now right].
      * split; [reflexivity | eexists; reflexivity].
Qed.

(** X11.  What an [Email] or [URL] field stores has been checked: its
    [db_value] and [py_value] agree, they raise nothing but a value
    error, and a value they return is [None], the empty string, or a
    string the validator accepts.  A value that is not a string is
    validated, and returned, as its [str]. *)
Theorem validated_fields_store_valid (f : Field) (v : atom)
    (Hf : f_class f = FEmail \/ f_class f = FURL) :
  let valid := match f_class f with FEmail => is_email | _ => is_url end in
  py_value f v = db_value f v /\
  match db_value f v with
  | Ok w =>
      match w with
      | ANone => v = ANone
      | AStr s => s = py_str v /\ (s = "" \/ valid s = true)
      | _ => False
      end
  | Raise e => valid (py_str v) = false /\ exists msg, e = ValueError msg
  end.
Proof.
  destruct Hf as [Hf | Hf]; rewrite Hf; cbn zeta; unfold py_value,
    db_value; rewrite Hf; unfold FieldBase_py_value, FieldBase_db_value,
    adapt; rewrite Hf; (split; [reflexivity|]).
  - destruct v; try apply validated_adapt_spec. reflexivity.
  - destruct v; try apply validated_adapt_spec. reflexivity.
Qed.

Lemma string_of_list_ascii_length (l : list ascii) :
  String.length (String.string_of_list_ascii l) = length l.
Proof. induction l as [|c l IH]; cbn; congruence. Qed.

Lemma hex_fuel_length (k : nat) (n : N) (acc : list ascii) :
  length (Uuid.hex_fuel k n acc) = (k + length acc)%nat.
Proof.
  revert n acc. induction k as [|k IH]; intros n acc; cbn; [reflexivity|].
  rewrite IH. cbn. lia.
Qed.

Lemma hex_length (u : N) : String.length (Uuid.hex u) = 32%nat.
Proof.
  unfold Uuid.hex. now rewrite string_of_list_ascii_length, hex_fuel_length.
Qed.

(** X12.  The [db_value] of a UUID field never raises and is idempotent:
    what it returns, it returns unchanged when given it again.  A UUID
    object and a 16-byte value come back as a string of 32 characters,
    and any string of 32 characters is returned as it is, hexadecimal or
    not. *)
Theorem UUID_db_value_idempotent (f : Field) (v : atom) :
  (exists w, UUID_db_value f v = Ok w /\ UUID_db_value f w = Ok w) /\
  (forall u, exists s, UUID_db_value f (AUuid u) = Ok (AStr s) /\
                       String.length s = 32%nat) /\
  (forall b, length b = 16%nat ->
             UUID_db_value f (ABytes b) = UUID_db_value f (uuid_of_bytes b)) /\
  (forall s, String.length s = 32%nat ->
             UUID_db_value f (AStr s) = Ok (AStr s)).
Proof.
  assert (Hhex : forall u, UUID_db_value f (AStr (Uuid.hex u))
                           = Ok (AStr (Uuid.hex u))).
  { intros u. unfold UUID_db_value. cbn [is_str32].
    now rewrite hex_length. }
  split; [|split; [|split]].
  - unfold UUID_db_value at 1.
    destruct (is_str32 v) eqn:E32.
    { exists v. split; [reflexivity|]. unfold UUID_db_value. now rewrite E32. }
    destruct (is_bytes16 v) as [b|] eqn:E16.
    { cbn. eexists. split; [reflexivity | apply Hhex]. }
    destruct v; try (cbn; eexists; split; [reflexivity|];
                     first [apply Hhex | reflexivity]).
    + destruct (uuid_UUID (AStr s)) as [u|e] eqn:Eu.
      * eexists. split; [reflexivity | apply Hhex].
      * exists (AStr s). split; [reflexivity|].
        unfold UUID_db_value. rewrite E32, E16, Eu. reflexivity.
    + exists (ABytes b). split; [reflexivity|].
      unfold UUID_db_value. rewrite E32, E16. reflexivity.
  - intros u. eexists. split; [reflexivity | apply hex_length].
  - intros b Hb. unfold UUID_db_value. cbn [is_str32 is_bytes16].
    apply Nat.eqb_eq in Hb. rewrite Hb. reflexivity.
  - intros s Hs. unfold UUID_db_value. cbn [is_str32].
    apply Nat.eqb_eq in Hs. now rewrite Hs.
Qed.

End MoreConversionProperties.

Lemma Bool_conversions_total_witness :
  to_str (rt := Sample.runtime) (blank FBool) ANone = Ok "0".
Proof.
  apply (Bool_conversions_total (rt := Sample.runtime) (blank FBool) ANone).
  reflexivity.
Defined.

Lemma validated_fields_store_valid_witness :
  py_value (rt := Sample.runtime) (blank FEmail) (AStr "")
    = db_value (rt := Sample.runtime) (blank FEmail) (AStr "").
Proof.
  apply (validated_fields_store_valid (rt := Sample.runtime) (blank FEmail)
           (AStr "")).
  left. reflexivity.
Defined.


(* --------------------------------------------------------------------- *)
(** ** UUID and decimal values across both conversions                    *)
(* --------------------------------------------------------------------- *)

Section RoundTripProperties.
Context {rt : Runtime}.

Lemma hex_digit_is_hex (d : N) :
  (d < 16)%N -> is_hex_lower (Uuid.hex_digit d) = true.
Proof.
  intros Hd.
  destruct d as [|p]; [reflexivity|].
  do 4 (destruct p as [p|p|]; try reflexivity); exfalso; lia.
Qed.

Lemma hex_fuel_is_hex (k : nat) (n : N) (acc : list ascii) :
  Forall (fun c => is_hex_lower c = true) acc ->
  Forall (fun c => is_hex_lower c = true) (Uuid.hex_fuel k n acc).
Proof.
  revert n acc. induction k as [|k IH]; intros n acc Hacc; cbn; [exact Hacc|].
  apply IH. constructor; [|exact Hacc].
  apply hex_digit_is_hex. apply N.mod_lt. discriminate.
Qed.

Lemma remove_fuel_hex (k : nat) (p0 : ascii) (pat l : list ascii) :
  is_hex_lower p0 = false ->
  Forall (fun c => is_hex_lower c = true) l ->
  Uuid.remove_fuel k (p0 :: pat) l = l.
Proof.
  intros Hp. revert l. induction k as [|k IH]; intros l Hl; [reflexivity|].
  destruct Hl as [|c l Hc Hl]; [reflexivity|].
  cbn [Uuid.remove_fuel Uuid.is_prefix].
  destruct (Ascii.eqb p0 c) eqn:E.
  - apply Ascii.eqb_eq in E. congruence.
  - now rewrite IH.
Qed.

Lemma strip_braces_hex (l : list ascii) :
  Forall (fun c => is_hex_lower c = true) l -> Uuid.strip_braces l = l.
Proof.
  intros Hl. unfold Uuid.strip_braces.
  set (drop := fix drop (l : list ascii) : list ascii :=
         match l with
         | [] => []
         | c :: l' =>
             if Ascii.eqb c "{" || Ascii.eqb c "}" then drop l' else l
         end).
  assert (Hdrop : forall l, Forall (fun c => is_hex_lower c = true) l ->
                            drop l = l).
  { intros [|c l'] H; [reflexivity|]. inversion H as [|? ? Hc _]; subst.
    cbn. destruct (Ascii.eqb c "{") eqn:E1.
    - apply Ascii.eqb_eq in E1. subst. discriminate.
    - destruct (Ascii.eqb c "}") eqn:E2; [|reflexivity].
      apply Ascii.eqb_eq in E2. subst. discriminate. }
  rewrite (Hdrop l Hl).
  rewrite Hdrop by (apply Forall_rev; exact Hl).
  apply rev_involutive.
Qed.

Lemma normalize_hex (u : N) : Uuid.normalize (Uuid.hex u) = Uuid.hex u.
Proof.
  unfold Uuid.normalize, Uuid.hex.
  rewrite String.list_ascii_of_string_of_list_ascii.
  pose proof (hex_fuel_is_hex 32 u [] (List.Forall_nil _)) as Hh.
  unfold Uuid.remove. cbn [String.list_ascii_of_string].
  rewrite (remove_fuel_hex _ "u" _ _ eq_refl Hh).
  rewrite (remove_fuel_hex _ "u" _ _ eq_refl Hh).
  rewrite (strip_braces_hex _ Hh).
  now rewrite (remove_fuel_hex _ "-" _ _ eq_refl Hh).
Qed.

(** X13.  A UUID survives the round trip: when the interpreter's
    [int(s, 16)] reads the 32 digits of [u.hex] back as [u], the
    [py_value] of what [db_value] returns for the UUID object [u] is [u]
    again. *)
Theorem UUID_round_trip (f : Field) (u : N)
    (Hclass : f_class f = FUUID)
    (Hint : rt_int16 (Uuid.hex u) = Ok (Z.of_N u))
    (Hrange : (u < 2 ^ 128)%N) :
  db_value f (AUuid u) = Ok (AStr (Uuid.hex u)) /\
  py_value f (AStr (Uuid.hex u)) = Ok (AUuid u).
Proof.
  unfold db_value, py_value. rewrite Hclass. split; [reflexivity|].
  unfold UUID_py_value, uuid_UUID.
  rewrite normalize_hex, hex_length. cbn [Nat.eqb negb].
  rewrite Hint. cbn [rbind].
  assert (Hr : (0 <=? Z.of_N u) && (Z.of_N u <? 2 ^ 128) = true).
  { apply andb_true_iff. split; [apply Z.leb_le; lia|].
    apply Z.ltb_lt. change (2 ^ 128) with (Z.of_N (2 ^ 128)). lia. }
  rewrite Hr. cbn. now rewrite N2Z.id.
Qed.

(** X14.  With [auto_round] set and a scale [d] between 0 and 1000026, a
    finite decimal that [Decimal.db_value] returns for a truthy value has
    exponent [-d] exactly and at most 28 digits. *)
Theorem auto_round_fixes_scale (f : Field) (v : atom) (m d : Z)
    (sg : bool) (c : N) (e : Z)
    (Hclass : f_class f = FDecimal) (Hround : f_auto_round f = true)
    (Hlen : f_length f = Some (LenPair m d))
    (Hd : 0 <= d <= 1000026)
    (Htruthy : atom_truthy v = true)
    (Hval : db_value f v = Ok (ADecimal (DFin sg c e))) :
  e = - d /\ Dec.ndigits c <= 28.
Proof.
  unfold db_value in Hval. rewrite Hclass in Hval.
  unfold Decimal_db_value, scale in Hval.
  rewrite Htruthy, Hround, Hlen in Hval. cbn [negb rbind] in Hval.
  assert (Hexp : Dec.pow10_exp d = Ok (- d)).
  { unfold Dec.pow10_exp. destruct (0 <=? d) eqn:E; [|lia].
    f_equal. f_equal. unfold Dec.Etiny, Dec.Emin, Dec.prec. lia. }
  rewrite Hexp in Hval. cbn [rbind] in Hval.
  destruct (Dec.of_string (py_str v)) as [x|]; [|discriminate].
  cbn [rbind] in Hval. unfold Dec.quantize in Hval.
  destruct x as [xs xc xe | xs | xs [|] xd]; try discriminate.
  destruct (negb _); [discriminate|].
  destruct (xc =? 0)%N.
  - injection Hval as <- <- <-. split; [reflexivity|]. vm_compute.
    discriminate.
  - destruct (Dec.Emax <? _); [discriminate|].
    destruct (Dec.prec <? _ - _ + 1); [discriminate|].
    destruct (Dec.Emax <? Dec.adjusted _ _); [discriminate|].
    destruct (Dec.prec <? Dec.ndigits _) eqn:Ep; [discriminate|].
    injection Hval as <- <- <-. split; [reflexivity|].
    apply Z.ltb_ge in Ep. exact Ep.
Qed.

End RoundTripProperties.

Lemma UUID_round_trip_witness :
  py_value (rt := Sample.runtime) Sample.uid
    (AStr (Uuid.hex 24197857161011715162171839636988778104))
    = Ok (AUuid 24197857161011715162171839636988778104).
Proof.
  apply (UUID_round_trip (rt := Sample.runtime) Sample.uid
           24197857161011715162171839636988778104).
  - reflexivity.
  - vm_compute. reflexivity.
  - vm_compute. reflexivity.
Defined.

Lemma auto_round_fixes_scale_witness :
  (-2 = - 2) /\ Dec.ndigits 314 <= 28.
Proof.
  apply (auto_round_fixes_scale (rt := Sample.runtime) Sample.price
           (AStr "3.14159") 10 2 false 314 (-2)).
  - reflexivity.
  - reflexivity.
  - reflexivity.
  - lia.
  - reflexivity.
  - vm_compute. reflexivity.
Defined.

(* --------------------------------------------------------------------- *)
(** ** Tables sharing a field, index columns, concatenation               *)
(* --------------------------------------------------------------------- *)

(** X15.  A field listed by two tables refers to the one constructed
    last.  After [Table(...)] for a first and then for a second table on
    the same store, whether or not either call raised, the [table] of
    every field of the second [fields_dict] is the second table, that of
    every other field of the first is the first table, and a field of
    neither keeps its own; the other attributes are as they were, and no
    object is created. *)
Theorem later_table_takes_fields
    (db1 db2 : option string) (name1 name2 : string)
    (fields1 fields2 : list (string * loc)) (p1 p2 : primary_key)
    (ix1 ix2 : option (list Index))
    (engine1 charset1 comment1 engine2 charset2 comment2 : option string)
    (st : store) (l : loc) :
  let table1 := {| tr_db := db1; tr_name := name1 |} in
  let table2 := {| tr_db := db2; tr_name := name2 |} in
  let st1 := (Table_init db1 name1 fields1 p1 ix1 engine1 charset1 comment1
                st).1 in
  let st2 := (Table_init db2 name2 fields2 p2 ix2 engine2 charset2 comment2
                st1).1 in
  st2 !! l =
    (if bool_decide (l ∈ fields2.*2)
     then set_table table2 <$> st !! l
     else if bool_decide (l ∈ fields1.*2)
          then set_table table1 <$> st !! l
          else st !! l) /\
  (forall f, st !! l = Some f ->
     exists f',
       st2 !! l = Some f' /\
       f_table f' =
         (if bool_decide (l ∈ fields2.*2) then Some table2
          else if bool_decide (l ∈ fields1.*2) then Some table1
               else f_table f) /\
       f_name f' = f_name f /\ f_class f' = f_class f /\
       f_null f' = f_null f /\ f_default f' = f_default f) /\
  (st !! l = None -> st2 !! l = None).
Proof.
  cbn zeta.
  assert (Hlook : forall db nm fs p ix en ch co (s : store),
            (Table_init db nm fs p ix en ch co s).1 !! l =
            if bool_decide (l ∈ fs.*2)
            then set_table {| tr_db := db; tr_name := nm |} <$> s !! l
            else s !! l).
  { intros. unfold Table_init, bind, modify.
    destruct (p_field p); cbn; apply bind_fields_lookup. }
  rewrite !Hlook.
  destruct (bool_decide (l ∈ fields2.*2)), (bool_decide (l ∈ fields1.*2)),
    (st !! l) as [f|]; cbn;
    (split; [reflexivity|]); (split; [|try reflexivity; discriminate]);
    intros f0 [= <-]; eexists; (split; [reflexivity|]); cbn;
    repeat split; reflexivity.
Qed.

Section IndexProperties.
Context {rt : Runtime}.

(** X16.  [IndexBase.__init__] succeeds exactly when every entry of
    [fields] is a string or a named field, and then its columns are the
    quoted names in the order given, duplicates kept; a single entry that
    is not a sequence is treated as a one-element list; the only errors
    are [NoColumnNameError] and a type error. *)
Theorem Index_columns_in_order (unique : bool) (name comment : string)
    (items : list value) (x : value) :
  (forall cols, Index_columns items = Ok cols
                <-> Forall2 index_entry items cols) /\
  (forall k, Index_init unique name (VSeq k items) comment =
             match Index_columns items with
             | Ok cols => Ok {| i_unique := unique; i_name := name;
                                i_fields := cols; i_comment := comment |}
             | Raise e => Raise e
             end) /\
  (is_sequence x = false ->
   Index_init unique name x comment
   = Index_init unique name (VSeq KList [x]) comment) /\
  match Index_columns items with
  | Ok cols => length cols = length items
  | Raise e => e = NoColumnNameError \/ exists msg, e = TypeError msg
  end.
Proof.
  assert (Hiff : forall cols, Index_columns items = Ok cols
                              <-> Forall2 index_entry items cols).
  { induction items as [|y rest IH]; intros cols; cbn [Index_columns].
    - split.
      + intros [= <-]. constructor.
      + intros H. inversion H. reflexivity.
    - split.
      + intros H.
        destruct y as [[]| | | | | | |]; try discriminate; cbn [rbind] in H.
        * destruct (Index_columns rest) as [cs|]; [|discriminate].
          injection H as <-. constructor; [reflexivity | now apply IH].
        * destruct (column f) as [c|] eqn:Ec; [|discriminate].
          cbn [rbind] in H.
          destruct (Index_columns rest) as [cs|]; [|discriminate].
          injection H as <-. constructor; [exact Ec | now apply IH].
      + intros H. inversion H as [|? c ? cs Hy Hrest]; subst.
        apply IH in Hrest.
        destruct y as [[]| | | | | | |]; try contradiction;
          unfold index_entry in Hy.
        * subst c. cbn [rbind]. now rewrite Hrest.
        * rewrite Hy. cbn [rbind]. now rewrite Hrest. }
  split; [exact Hiff|]. split; [|split].
  - intros k. unfold Index_init. destruct (Index_columns items); reflexivity.
  - intros Hx. unfold Index_init. destruct x; try reflexivity. discriminate.
  - destruct (Index_columns items) as [cols|e] eqn:E.
    + pose proof (proj1 (Hiff cols) eq_refl) as HF.
      symmetry. eapply Forall2_length, HF.
    + clear Hiff. revert e E.
      induction items as [|y rest IH]; intros e E; [discriminate|].
      cbn [Index_columns] in E.
      destruct y as [[]| | | | | | |]; cbn [rbind] in E;
        try (injection E as <-; right; eexists; reflexivity).
      * destruct (Index_columns rest) as [cs|e']; [discriminate|].
        injection E as <-. now apply IH.
      * unfold column in E.
        destruct (f_name f) as [n|];
          [destruct (String.eqb n "")|]; cbn [rbind] in E;
          try (injection E as <-; now left).
        destruct (Index_columns rest) as [cs|e']; [discriminate|].
        injection E as <-. now apply IH.
Qed.

End IndexProperties.

(** X17.  Whether [+] concatenates is decided by the operand that
    answers it.  When [self] is a text field ([Text], [Char], [VarChar],
    [Email], [URL]) or a string expression, [self + r] is a new string
    expression with the operator "||", whatever [r] is, and everything
    that concatenated before still does; [p + self] for a plain value [p]
    is one too, through [__radd__].  For a column [c] that is neither,
    [c + self] is answered by [c] and is an arithmetic "+", except when
    [c] is a plain expression and [self] a string expression: then
    [self], of a subclass, answers first and the result concatenates. *)
Theorem add_concatenates_strings (h : heap) (self r : value)
    (Hstr : string_like h self = true) :
  (exists a e,
      add self r h = Some (<[a := e]> h, Ok (VExpr a)) /\ h !! a = None /\
      lhs e = self /\ rhs e = r /\ op e = CONCAT /\
      string_like (<[a := e]> h) (VExpr a) = true /\
      forall v, string_like h v = true ->
                string_like (<[a := e]> h) v = true) /\
  (forall p, is_SQL p = false -> callable p = false ->
   exists a e,
      add (VAtom p) self h = Some (<[a := e]> h, Ok (VExpr a)) /\
      h !! a = None /\
      lhs e = VAtom p /\ rhs e = self /\ op e = CONCAT /\
      string_like (<[a := e]> h) (VExpr a) = true) /\
  (forall c, is_Column c = true -> string_like h c = false ->
   exists a e,
      add c self h = Some (<[a := e]> h, Ok (VExpr a)) /\ h !! a = None /\
      lhs e = c /\ rhs e = self /\
      op e = (if is_plain_expression h c && is_str_expression h self
              then CONCAT else ADD) /\
      string_like (<[a := e]> h) (VExpr a) =
        is_plain_expression h c && is_str_expression h self).
Proof.
  assert (Hkeep : forall a e v, h !! a = None -> string_like h v = true ->
                                string_like (<[a := e]> h) v = true).
  { intros a e v Ha Hv. destruct v; try exact Hv. cbn in *.
    destruct (decide (a = l)) as [->|Hne].
    - now rewrite Ha in Hv.
    - now rewrite lookup_insert_ne. }
  assert (Hcol : is_Column self = true)
    by (destruct self; try discriminate; reflexivity).
  assert (Hplain : is_plain_expression h self = false).
  { destruct self; try reflexivity. cbn in *.
    destruct (h !! l); [now rewrite Hstr | reflexivity]. }
  assert (Hadd : __add__ self r h = Expression_new true self CONCAT r h).
  { destruct self; try discriminate; cbn in *.
    - now rewrite Hstr.
    - destruct (h !! l); [|discriminate]. now rewrite Hstr. }
  assert (Hradd : forall l,
            __radd__ self l h = Expression_new true l CONCAT self h).
  { intros l0. destruct self; try discriminate; cbn in *.
    - now rewrite Hstr.
    - destruct (h !! l); [|discriminate]. now rewrite Hstr. }
  split; [|split].
  - unfold add. rewrite Hcol, Hplain. cbn [andb]. rewrite Hadd.
    destruct (Expression_new_spec true self CONCAT r h) as (a & Hfree & ->).
    eexists a, _. split; [reflexivity|]. split; [exact Hfree|].
    do 3 (split; [reflexivity|]). split.
    + cbn. now rewrite lookup_insert_eq.
    + intros v. now apply Hkeep.
  - intros p Hsql Hcall. unfold add. cbn [is_Column].
    rewrite Hcol, Hsql, Hcall. cbn [orb]. rewrite Hradd.
    destruct (Expression_new_spec true (VAtom p) CONCAT self h)
      as (a & Hfree & ->).
    eexists a, _. split; [reflexivity|]. split; [exact Hfree|].
    do 3 (split; [reflexivity|]). cbn. now rewrite lookup_insert_eq.
  - intros c Hc Hns. unfold add. rewrite Hc.
    destruct (is_plain_expression h c && is_str_expression h self) eqn:Eb.
    + rewrite Hradd.
      destruct (Expression_new_spec true c CONCAT self h)
        as (a & Hfree & ->).
      eexists a, _. split; [reflexivity|]. split; [exact Hfree|].
      do 3 (split; [reflexivity|]). cbn. now rewrite lookup_insert_eq.
    + assert (Hcadd : __add__ c self h = Expression_new false c ADD self h).
      { destruct c; try discriminate; cbn in *; try reflexivity.
        - now rewrite Hns.
        - destruct (h !! _); [now rewrite Hns | reflexivity]. }
      rewrite Hcadd.
      destruct (Expression_new_spec false c ADD self h) as (a & Hfree & ->).
      eexists a, _. split; [reflexivity|]. split; [exact Hfree|].
      do 3 (split; [reflexivity|]). cbn. now rewrite lookup_insert_eq.
Qed.

Lemma add_concatenates_strings_witness :
  (exists a e,
     add (VField (blank FText)) (VAtom (AStr "x")) ∅
       = Some (<[a := e]> ∅, Ok (VExpr a)) /\ op e = CONCAT) /\
  (exists a e,
     add (VField (blank FInt)) (VField (blank FText)) ∅
       = Some (<[a := e]> ∅, Ok (VExpr a)) /\ op e = ADD).
Proof.
  destruct (add_concatenates_strings ∅ (VField (blank FText))
              (VAtom (AStr "x")) eq_refl) as (H1 & _ & H3).
  split.
  - destruct H1 as (a & e & Ha & _ & _ & _ & Hop & _).
    exists a, e. split; [exact Ha | exact Hop].
  - destruct (H3 (VField (blank FInt)) eq_refl eq_refl)
      as (a & e & Ha & _ & _ & _ & Hop & _).
    exists a, e. split; [exact Ha | exact Hop].
Defined.


(* --------------------------------------------------------------------- *)
(** ** What rendering leaves behind                                       *)
(* --------------------------------------------------------------------- *)

Section RenderingFrame.
Context {rt : Runtime}.

(** X18.  Rendering any object, with any budget and whether it returns or
    raises, leaves the rendering options, the stack of enclosing options
    and [props] as it found them, only appends to the SQL fragments and
    to the parameters, and keeps every alias that was registered. *)
Theorem rendering_keeps_context (fuel : nat) (obj : value)
    (s s' : rstate) (r : result unit)
    (Hrun : ctx_sql fuel obj s = (s', r)) :
  c_state (r_ctx s') = c_state (r_ctx s) /\
  c_stack (r_ctx s') = c_stack (r_ctx s) /\
  c_props (r_ctx s') = c_props (r_ctx s) /\
  (exists fr, c_sql (r_ctx s') = c_sql (r_ctx s) ++ fr) /\
  (exists vs, c_values (r_ctx s') = c_values (r_ctx s) ++ vs) /\
  (forall k, is_Some (c_aliases (r_ctx s) !! k) ->
             is_Some (c_aliases (r_ctx s') !! k)).
Proof. exact (ctx_sql_preserves fuel obj s s' r Hrun). Qed.

Lemma keeps_heap_ret {A} (a : A) : keeps_heap (ret a).
Proof. intros s s' r _ [= <- _]. reflexivity. Qed.

Lemma keeps_heap_raise {A} (e : exn) : keeps_heap (raise (A := A) e).
Proof. intros s s' r _ [= <- _]. reflexivity. Qed.

Lemma keeps_heap_lift {A} (x : result A) : keeps_heap (lift x).
Proof. intros s s' r _ [= <- _]. reflexivity. Qed.

Lemma keeps_heap_get : keeps_heap (get (S := rstate)).
Proof. intros s s' r _ [= <- _]. reflexivity. Qed.

Lemma keeps_heap_ctx (f : Context -> Context) :
  keeps_heap (modify (set_ctx f)).
Proof. intros s s' r _ [= <- _]. reflexivity. Qed.

Lemma keeps_heap_bind {A B} (m : R A) (k : A -> R B) :
  keeps_heap m -> (forall a, keeps_heap (k a)) -> keeps_heap (bind m k).
Proof.
  intros Hm Hk s s' r Hset. unfold bind.
  destruct (m s) as [s1 [a|e]] eqn:Em; intros H.
  - pose proof (Hm _ _ _ Hset Em) as H1.
    rewrite <- H1. eapply Hk; [|exact H]. now rewrite H1.
  - injection H as <- _. eapply Hm; eauto.
Qed.

Lemma keeps_heap_with_ctx {A} (ov : overrides) (body : R A) :
  keeps_heap body -> keeps_heap (with_ctx ov body).
Proof.
  intros Hb s s' r Hset. unfold with_ctx, bind, modify, finally.
  destruct (body _) as [s1 r1] eqn:Eb. intros [= <- _].
  cbn [r_heap set_ctx].
  exact (Hb (set_ctx ctx_enter (set_ctx (ctx_push ov) s)) _ _ Hset Eb).
Qed.

Lemma keeps_heap_join (go : value -> R unit) (glue : string)
    (nodes : list value) :
  (forall v, keeps_heap (go v)) -> keeps_heap (join_nodes go glue nodes).
Proof.
  intros Hgo. induction nodes as [|x [|y rest] IH]; cbn [join_nodes].
  - apply keeps_heap_ret.
  - apply Hgo.
  - apply keeps_heap_bind; [apply Hgo|]. intros _.
    apply keeps_heap_bind; [apply keeps_heap_ctx|]. intros _. exact IH.
Qed.

Lemma keeps_heap_ctx_value (a : atom) : keeps_heap (ctx_value a).
Proof.
  unfold ctx_value. apply keeps_heap_bind; [apply keeps_heap_get|].
  intros s0. destruct (st_params _); [|apply keeps_heap_ctx].
  apply keeps_heap_bind; [apply keeps_heap_lift|]. intros a'.
  apply keeps_heap_bind; apply keeps_heap_ctx || (intros; apply keeps_heap_ctx).
Qed.

Lemma keeps_heap_Field_sql (f : Field) : keeps_heap (Field_sql f).
Proof.
  unfold Field_sql. apply keeps_heap_bind; [apply keeps_heap_get|].
  intros s0.
  assert (Hcol : keeps_heap (bind (lift (column f)) (fun col => literal col))).
  { apply keeps_heap_bind; [apply keeps_heap_lift|].
    intros; apply keeps_heap_ctx. }
  destruct (f_table f) as [t|]; [|exact Hcol].
  destruct (negb _); [|exact Hcol].
  apply keeps_heap_bind.
  - destruct (select_is_True _); [|apply keeps_heap_ret].
    unfold table_alias.
    apply keeps_heap_bind; [apply keeps_heap_ctx|].
    intros; apply keeps_heap_ret.
  - intros tn. apply keeps_heap_bind; [apply keeps_heap_lift|].
    intros; apply keeps_heap_ctx.
Qed.

Lemma keeps_heap_Alias_register (node : value) (alias : string) :
  keeps_heap (Alias_register node alias).
Proof.
  unfold Alias_register. destruct (is_Column node); [|apply keeps_heap_ret].
  apply keeps_heap_bind; [apply keeps_heap_get|]. intros s0.
  destruct (_ !! alias); [apply keeps_heap_raise | apply keeps_heap_ctx].
Qed.

Lemma keeps_heap_load (l : loc) : keeps_heap (load l).
Proof.
  unfold load. apply keeps_heap_bind; [apply keeps_heap_get|]. intros s0.
  destruct (_ !! l); [apply keeps_heap_ret | apply keeps_heap_raise].
Qed.

Lemma with_rhs_same (e : Expression) : with_rhs e (rhs e) = e.
Proof. now destruct e. Qed.

(** The expression just loaded from a settled heap is stored back as it
    was, or rejected. *)
Lemma keeps_heap_expression {A} (l : loc) (k : overrides -> R A) :
  (forall ov, keeps_heap (k ov)) ->
  keeps_heap (bind (load l) (fun e => bind (Expression_prepare l e) k)).
Proof.
  intros Hk s s' r Hset. unfold bind at 1, load, bind at 1, get.
  destruct (r_heap s !! l) as [e|] eqn:El; [|now intros [= <- _]].
  unfold ret at 1. unfold bind, Expression_prepare.
  destruct (is_membership (op e)) eqn:Em.
  - destruct (negb _) eqn:Ev; [now intros [= <- _]|].
    destruct (Hset l e El Em) as [Hnode Htuple].
    rewrite Hnode, Htuple, with_rhs_same. unfold modify, ret.
    assert (Hsame : set_heap (insert l e) s = s).
    { destruct s as [h c]. unfold set_heap. cbn in *. f_equal.
      now apply insert_id. }
    unfold bind. rewrite Hsame. intros H. eapply Hk; eauto.
  - unfold ret. intros H. eapply Hk; eauto.
Qed.

(** Rendering leaves a settled heap unchanged, whatever the outcome. *)
Lemma ctx_sql_keeps_heap (fuel : nat) (obj : value) :
  keeps_heap (ctx_sql fuel obj).
Proof.
  revert obj. induction fuel as [|n IH]; intros obj; cbn [ctx_sql].
  - apply keeps_heap_raise.
  - destruct obj as [a|k items|f|node key|node alias|l|func node|nodes glue p].
    + destruct a; try apply keeps_heap_ctx_value. apply keeps_heap_ctx.
    + apply keeps_heap_with_ctx, keeps_heap_join, IH.
    + apply keeps_heap_Field_sql.
    + apply keeps_heap_bind; [apply IH|]. intros; apply keeps_heap_ctx.
    + apply keeps_heap_bind; [apply IH|]. intros _.
      apply keeps_heap_bind; [apply keeps_heap_ctx|]. intros _.
      apply keeps_heap_Alias_register.
    + apply keeps_heap_expression. intros ov.
      apply keeps_heap_with_ctx.
      apply keeps_heap_bind; [apply keeps_heap_load|]. intros e1.
      apply keeps_heap_bind; [apply IH|]. intros _.
      apply keeps_heap_bind; [apply keeps_heap_load|]. intros e2.
      apply keeps_heap_bind; [apply keeps_heap_ctx|]. intros _.
      apply keeps_heap_bind; [apply keeps_heap_load|]. intros e3. apply IH.
    + apply keeps_heap_bind; [apply keeps_heap_ctx|]. intros _.
      apply keeps_heap_with_ctx, IH.
    + apply keeps_heap_with_ctx, keeps_heap_join, IH.
Qed.

(** X19.  Only a node on the right of IN, NOT IN, EXISTS or NOT EXISTS is
    ever written by rendering.  When every membership expression of the
    heap has a tuple or an invalid value on its right, which is the case
    when there is no membership expression at all, rendering any object
    leaves the heap exactly as it was, so rendering it again gives the
    same outcome. *)
Theorem render_repeatable (h : heap) (fuel : nat) (obj : value)
    (Hsettled : heap_settled h) :
  (render fuel obj h).1 = h /\
  render fuel obj (render fuel obj h).1 = render fuel obj h.
Proof.
  assert (H1 : (render fuel obj h).1 = h).
  { unfold render.
    destruct (ctx_sql fuel obj _) as [s r] eqn:E. cbn [fst].
    exact (ctx_sql_keeps_heap fuel obj
             {| r_heap := h; r_ctx := Context_new |} _ _ Hsettled E). }
  split; [exact H1 | now rewrite H1].
Qed.

Lemma no_membership_settled (h : heap) :
  (forall l e, h !! l = Some e -> is_membership (op e) = false) ->
  heap_settled h.
Proof. intros H l e Hl Hm. rewrite (H l e Hl) in Hm. discriminate. Qed.

End RenderingFrame.

Lemma rendering_keeps_context_witness :
  exists fr,
    c_sql (r_ctx (ctx_sql (rt := Sample.runtime) 4 (VExpr Sample.a_in_b_loc)
                    {| r_heap := Sample.a_in_b; r_ctx := Context_new |}).1)
    = c_sql Context_new ++ fr.
Proof.
  apply (rendering_keeps_context (rt := Sample.runtime) 4
           (VExpr Sample.a_in_b_loc)
           {| r_heap := Sample.a_in_b; r_ctx := Context_new |}
           (ctx_sql (rt := Sample.runtime) 4 (VExpr Sample.a_in_b_loc)
              {| r_heap := Sample.a_in_b; r_ctx := Context_new |}).1
           (ctx_sql (rt := Sample.runtime) 4 (VExpr Sample.a_in_b_loc)
              {| r_heap := Sample.a_in_b; r_ctx := Context_new |}).2).
  vm_compute. reflexivity.
Defined.

Lemma render_repeatable_witness :
  (render (rt := Sample.runtime) 4 (VExpr Sample.a_in_b_loc)
     (__eq__ (VField Sample.field_a) (VAtom (AInt 5)) ∅).1).1
  = (__eq__ (VField Sample.field_a) (VAtom (AInt 5)) ∅).1.
Proof.
  apply (render_repeatable (rt := Sample.runtime)
           (__eq__ (VField Sample.field_a) (VAtom (AInt 5)) ∅).1 4
           (VExpr Sample.a_in_b_loc)).
  apply no_membership_settled. intros l e Hl.
  cbn in Hl. apply lookup_insert_Some in Hl as [[_ <-] | [_ Hl]].
  - reflexivity.
  - rewrite lookup_empty in Hl. discriminate.
Defined.


(* --------------------------------------------------------------------- *)
(** ** Comparisons, aliases and index definitions from end to end         *)
(* --------------------------------------------------------------------- *)

Section EndToEndMore.
Context {rt : Runtime}.

Lemma db_value_None (f : Field) : db_value f ANone = Ok ANone.
Proof. unfold db_value. destruct (f_class f); reflexivity. Qed.

(** A field that is not bound to a table renders as its quoted name. *)
Lemma unbound_field_sql (n : nat) (f : Field) (col : string) (s : rstate) :
  f_table f = None -> column f = Ok col ->
  ctx_sql (S n) (VField f) s = (set_ctx (ctx_literal col) s, Ok tt).
Proof.
  intros Htab Hcol. cbn [ctx_sql]. unfold Field_sql, bind, get.
  rewrite Htab. unfold lift. rewrite Hcol. reflexivity.
Qed.

(** A plain value under bound parameters and the converter of [f]. *)
Lemma converted_atom_sql (m : nat) (f : Field) (a : atom) (s0 : rstate) :
  is_SQL a = false ->
  st_params (c_state (r_ctx s0)) = true ->
  st_converter (c_state (r_ctx s0)) = Some f ->
  ctx_sql (S m) (VAtom a) s0 =
    match db_value f a with
    | Ok a' => (set_ctx (ctx_append ["?"] [a']) s0, Ok tt)
    | Raise x => (s0, Raise x)
    end.
Proof.
  intros Hplain Hp Hc.
  assert (E : ctx_sql (S m) (VAtom a) = ctx_value a)
    by (destruct a; try reflexivity; discriminate).
  rewrite E. unfold ctx_value, bind, get. rewrite Hp, Hc. unfold lift.
  destruct (db_value f a); reflexivity.
Qed.

Lemma field_op_value_sql (n : nat) (l : loc) (e : Expression)
    (f : Field) (col : string) (a : atom) (s : rstate) :
  r_heap s !! l = Some e -> is_membership (op e) = false ->
  f_table f = None -> column f = Ok col -> is_SQL a = false ->
  lhs e = VField f -> rhs e = VAtom a ->
  ctx_sql (S (S n)) (VExpr l) s =
    match db_value f a with
    | Ok a' =>
        (set_ctx (ctx_append (opening (parens e)
                              ++ [col; " " +:+ OPERATOR (op e) +:+ " "; "?"]
                              ++ closing (parens e)) [a']) s, Ok tt)
    | Raise x =>
        (set_ctx (ctx_append (opening (parens e)
                              ++ [col; " " +:+ OPERATOR (op e) +:+ " "]
                              ++ closing (parens e)) []) s, Raise x)
    end.
Proof.
  intros Hload Hop Htab Hcol Hplain Hlhs Hrhs.
  pose proof (fun m s0 => converted_atom_sql m f a s0 Hplain) as Hatom.
  remember (S n) as m eqn:Em.
  cbn [ctx_sql]. unfold bind at 1. unfold load at 1, bind at 1, get at 1.
  rewrite Hload. unfold ret at 1.
  unfold bind at 1. unfold Expression_prepare. rewrite Hop, Hlhs.
  cbn [is_FieldBase]. unfold ret at 1.
  unfold with_ctx, bind at 1, modify at 1, bind at 1, modify at 1, finally.
  set (s1 := set_ctx ctx_enter (set_ctx (ctx_push _) s)).
  assert (Hh : r_heap s1 !! l = Some e) by exact Hload.
  assert (Hstate : c_state (r_ctx s1) =
                   State_call (c_state (r_ctx s))
                     {| ov_parens := Some (parens e);
                        ov_params := Some true; ov_nesting := None;
                        ov_converter := Some f |}).
  { subst s1. cbn [r_ctx set_ctx].
    destruct (ctx_enter_frame (ctx_push
       {| ov_parens := Some (parens e); ov_params := Some true;
          ov_nesting := None; ov_converter := Some f |} (r_ctx s)))
      as (-> & _). reflexivity. }
  unfold bind at 1. unfold load at 1, bind at 1, get at 1. rewrite Hh.
  unfold ret at 1. rewrite Hlhs. unfold bind at 1.
  rewrite Em at 1. rewrite (unbound_field_sql n f col s1 Htab Hcol).
  unfold bind at 1. unfold load at 1, bind at 1, get at 1.
  cbn [r_heap set_ctx]. rewrite Hh. unfold ret at 1.
  unfold bind at 1, literal at 1, modify at 1.
  unfold bind at 1. unfold load at 1, bind at 1, get at 1.
  cbn [r_heap set_ctx]. rewrite Hh. unfold ret at 1. rewrite Hrhs.
  rewrite Em, Hatom;
    [| cbn [r_ctx set_ctx ctx_literal c_state]; now rewrite Hstate
     | cbn [r_ctx set_ctx ctx_literal c_state]; now rewrite Hstate].
  subst s1. destruct s as [h c].
  destruct (db_value f a) as [a'|x]; f_equal;
    unfold set_ctx, ctx_exit, ctx_enter; cbn [r_heap r_ctx]; f_equal;
    cbn [ctx_push State_call ov_parens default c_state st_parens
                  from_option id];
    unfold ctx_append, ctx_pop, ctx_literal, opening, closing;
    destruct (parens e); cbn; f_equal;
    repeat first [rewrite <- app_assoc | progress cbn [app]
                 | rewrite app_nil_r]; reflexivity.
Qed.

Lemma value_op_field_sql (n : nat) (l : loc) (e : Expression)
    (f : Field) (col : string) (a : atom) (s : rstate) :
  r_heap s !! l = Some e -> is_membership (op e) = false ->
  f_table f = None -> column f = Ok col -> is_SQL a = false ->
  lhs e = VAtom a -> rhs e = VField f ->
  ctx_sql (S (S n)) (VExpr l) s =
    match db_value f a with
    | Ok a' =>
        (set_ctx (ctx_append (opening (parens e)
                              ++ ["?"; " " +:+ OPERATOR (op e) +:+ " "; col]
                              ++ closing (parens e)) [a']) s, Ok tt)
    | Raise x =>
        (set_ctx (ctx_append (opening (parens e) ++ closing (parens e)) [])
           s, Raise x)
    end.
Proof.
  intros Hload Hop Htab Hcol Hplain Hlhs Hrhs.
  pose proof (fun m s0 => converted_atom_sql m f a s0 Hplain) as Hatom.
  remember (S n) as m eqn:Em.
  cbn [ctx_sql]. unfold bind at 1. unfold load at 1, bind at 1, get at 1.
  rewrite Hload. unfold ret at 1.
  unfold bind at 1. unfold Expression_prepare. rewrite Hop, Hlhs, Hrhs.
  cbn [is_FieldBase]. unfold ret at 1.
  unfold with_ctx, bind at 1, modify at 1, bind at 1, modify at 1, finally.
  set (s1 := set_ctx ctx_enter (set_ctx (ctx_push _) s)).
  assert (Hh : r_heap s1 !! l = Some e) by exact Hload.
  assert (Hstate : c_state (r_ctx s1) =
                   State_call (c_state (r_ctx s))
                     {| ov_parens := Some (parens e);
                        ov_params := Some true; ov_nesting := None;
                        ov_converter := Some f |}).
  { subst s1. cbn [r_ctx set_ctx].
    destruct (ctx_enter_frame (ctx_push
       {| ov_parens := Some (parens e); ov_params := Some true;
          ov_nesting := None; ov_converter := Some f |} (r_ctx s)))
      as (-> & _). reflexivity. }
  unfold bind at 1. unfold load at 1, bind at 1, get at 1. rewrite Hh.
  unfold ret at 1. rewrite Hlhs. unfold bind at 1.
  rewrite Em at 1. rewrite Hatom; [| now rewrite Hstate | now rewrite Hstate].
  destruct (db_value f a) as [a'|x].
  + unfold bind at 1. unfold load at 1, bind at 1, get at 1.
    cbn [r_heap set_ctx]. rewrite Hh. unfold ret at 1.
    unfold bind at 1, literal at 1, modify at 1.
    unfold bind at 1. unfold load at 1, bind at 1, get at 1.
    cbn [r_heap set_ctx]. rewrite Hh. unfold ret at 1. rewrite Hrhs.
    rewrite Em, (unbound_field_sql n f col _ Htab Hcol).
    subst s1. destruct s as [h c]. f_equal.
    unfold set_ctx, ctx_exit, ctx_enter; cbn [r_heap r_ctx]; f_equal;
    cbn [ctx_push State_call ov_parens default c_state st_parens
                  from_option id];
    unfold ctx_append, ctx_pop, ctx_literal, opening, closing;
    destruct (parens e); cbn; f_equal;
    repeat first [rewrite <- app_assoc | progress cbn [app]
                 | rewrite app_nil_r]; reflexivity.
  + subst s1. destruct s as [h c]. f_equal.
    unfold set_ctx, ctx_exit, ctx_enter; cbn [r_heap r_ctx]; f_equal;
    cbn [ctx_push State_call ov_parens default c_state st_parens
                  from_option id];
    unfold ctx_append, ctx_pop, ctx_literal, opening, closing;
    destruct (parens e); cbn; f_equal;
    repeat first [rewrite <- app_assoc | progress cbn [app]
                 | rewrite app_nil_r]; reflexivity.
Qed.

(** X20.  In a comparison of a field with a plain value, the value is
    bound after passing through the [db_value] of the field, on whichever
    side the field stands: [field op value] renders as the column, the
    operator and a placeholder, [value op field] as the placeholder, the
    operator and the column, between parentheses when the expression asks
    for them.  When the conversion raises, the rendering raises the same
    exception, after closing the parenthesis it had opened. *)
Theorem comparison_converts_value (n : nat) (l : loc) (e : Expression)
    (f : Field) (col : string) (a : atom) (s : rstate)
    (Hload : r_heap s !! l = Some e)
    (Hop : is_membership (op e) = false)
    (Htab : f_table f = None) (Hcol : column f = Ok col)
    (Hplain : is_SQL a = false) :
  let token := " " +:+ OPERATOR (op e) +:+ " " in
  (lhs e = VField f -> rhs e = VAtom a ->
   ctx_sql (S (S n)) (VExpr l) s =
     match db_value f a with
     | Ok a' =>
         (set_ctx (ctx_append (opening (parens e) ++ [col; token; "?"]
                               ++ closing (parens e)) [a']) s, Ok tt)
     | Raise x =>
         (set_ctx (ctx_append (opening (parens e) ++ [col; token]
                               ++ closing (parens e)) []) s, Raise x)
     end) /\
  (lhs e = VAtom a -> rhs e = VField f ->
   ctx_sql (S (S n)) (VExpr l) s =
     match db_value f a with
     | Ok a' =>
         (set_ctx (ctx_append (opening (parens e) ++ ["?"; token; col]
                               ++ closing (parens e)) [a']) s, Ok tt)
     | Raise x =>
         (set_ctx (ctx_append (opening (parens e) ++ closing (parens e)) [])
            s, Raise x)
     end).
Proof.
  cbn zeta. split; intros Hlhs Hrhs.
  - now apply field_op_value_sql.
  - now apply value_op_field_sql.
Qed.

(** X21.  Testing a field against [None] from end to end: for every
    field class, [field == None] and [field.isnull()] render as
    "(`name` IS ?)" and [field != None] as "(`name` IS NOT ?)", each with
    the single parameter [None], which the converter of the field leaves
    as it is, and the heap they were built in is not changed. *)
Theorem null_test_sql (f : Field) (col : string) (h : heap) (n : nat)
    (Htab : f_table f = None) (Hcol : column f = Ok col) :
  let a := fresh (dom h) in
  let sql_of token := String.concat "" ["("; col; token; "?"; ")"] in
  let h_eq := (__eq__ (VField f) None_ h).1 in
  let h_ne := (__ne__ (VField f) None_ h).1 in
  (__eq__ (VField f) None_ h).2 = Ok (VExpr a) /\
  isnull (VField f) true h = __eq__ (VField f) None_ h /\
  isnull (VField f) false h = __ne__ (VField f) None_ h /\
  render (S (S n)) (VExpr a) h_eq = (h_eq, Ok (sql_of " IS ", [ANone])) /\
  render (S (S n)) (VExpr a) h_ne = (h_ne, Ok (sql_of " IS NOT ", [ANone])).
Proof.
  cbn zeta. split; [reflexivity|]. split; [reflexivity|].
  split; [reflexivity|].
  split.
  - unfold render. cbn [__eq__ is_None None_ Expression_new fst].
    erewrite (field_op_value_sql n _ _ f col ANone);
      [ | cbn [r_heap]; apply lookup_insert_eq | reflexivity | exact Htab
        | exact Hcol | reflexivity | reflexivity | reflexivity ].
    rewrite db_value_None. reflexivity.
  - unfold render. cbn [__ne__ is_None None_ Expression_new fst].
    erewrite (field_op_value_sql n _ _ f col ANone);
      [ | cbn [r_heap]; apply lookup_insert_eq | reflexivity | exact Htab
        | exact Hcol | reflexivity | reflexivity | reflexivity ].
    rewrite db_value_None. reflexivity.
Qed.

(** The columns of an index, written inline and comma separated. *)
Lemma join_inline (n : nat) (cols : list string) (s : rstate) :
  st_params (c_state (r_ctx s)) = false ->
  join_nodes (ctx_sql (S n)) ", " (map (fun c => VAtom (AStr c)) cols) s =
    (set_ctx (ctx_append (comma_list cols) []) s, Ok tt).
Proof.
  intros Hp.
  assert (Hone : forall c s0, st_params (c_state (r_ctx s0)) = false ->
                   ctx_sql (S n) (VAtom (AStr c)) s0
                   = (set_ctx (ctx_literal c) s0, Ok tt)).
  { intros c s0 H0. cbn [ctx_sql]. unfold ctx_value, bind, get.
    rewrite H0. reflexivity. }
  revert s Hp. induction cols as [|c [|d rest] IH]; intros s Hp.
  - cbn. unfold ret. f_equal. destruct s as [h c]. unfold set_ctx, ctx_append.
    cbn. rewrite !app_nil_r. now destruct c.
  - cbn [map join_nodes comma_list]. rewrite Hone by exact Hp.
    f_equal. destruct s as [h c0]. unfold set_ctx, ctx_append, ctx_literal.
    cbn. now rewrite app_nil_r.
  - cbn [map join_nodes]. unfold bind at 1. rewrite Hone by exact Hp.
    unfold bind at 1, literal at 1, modify at 1.
    change (join_nodes (ctx_sql (S n)) ", "
              (VAtom (AStr d) :: map (fun c => VAtom (AStr c)) rest))
      with (join_nodes (ctx_sql (S n)) ", "
              (map (fun c => VAtom (AStr c)) (d :: rest))).
    rewrite IH by exact Hp.
    f_equal. destruct s as [h c0]. unfold set_ctx. cbn [r_heap r_ctx].
    f_equal. unfold ctx_literal, ctx_append. cbn.
    now rewrite <- !app_assoc, !app_nil_r.
Qed.

(** X22.  The definition of an index, rendered with inline values as a
    fresh context does: the keyword KEY or UNIQUE KEY, the quoted name,
    the quoted columns as a comma list between parentheses, in the order
    of the index, and the COMMENT clause when the comment is not empty,
    the parts separated by one space.  Nothing is bound. *)
Theorem Index_definition_sql (i : Index) (n : nat) (s : rstate)
    (Hinline : st_params (c_state (r_ctx s)) = false) :
  ctx_sql (S (S (S n))) (Index_def i) s =
    (set_ctx (ctx_append
                ([if i_unique i then "UNIQUE KEY" else "KEY"; " ";
                  "`" +:+ i_name i +:+ "`"; " "]
                 ++ enclosed (i_fields i)
                 ++ (if String.eqb (i_comment i) "" then []
                     else [" "; "COMMENT '" +:+ i_comment i +:+ "'"]))
                []) s, Ok tt).
Proof.
  remember (S n) as m eqn:Em. remember (S m) as k eqn:Ek.
  assert (Hsql : forall t, ctx_sql k (VAtom (ASql t)) = literal t)
    by (intros t; rewrite Ek; reflexivity).
  assert (Hlist : forall s0, st_params (c_state (r_ctx s0)) = false ->
            ctx_sql k (EnclosedNodeList (map (fun c => VAtom (AStr c))
                                          (i_fields i))) s0
            = (set_ctx (ctx_append (enclosed (i_fields i)) []) s0, Ok tt)).
  { intros s0 H0. rewrite Ek. unfold EnclosedNodeList. cbn [ctx_sql].
    unfold with_ctx, bind, modify, finally.
    rewrite Em, join_inline.
    - f_equal. destruct s0 as [h c]. unfold set_ctx. cbn [r_heap r_ctx].
      f_equal. unfold ctx_exit, ctx_enter, ctx_pop, ctx_push, ctx_literal,
        ctx_append, enclosed. cbn. now rewrite <- !app_assoc, !app_nil_r.
    - cbn [r_ctx set_ctx snd fst]. exact H0. }
  unfold Index_def, NodeList, Index_type, Index_node.
  cbn [ctx_sql]. unfold with_ctx.
  unfold bind at 1, modify at 1. unfold bind at 1, modify at 1.
  unfold finally.
  set (s1 := set_ctx ctx_enter (set_ctx (ctx_push _) s)).
  assert (Hp1 : forall fr, st_params (c_state (r_ctx
                  (set_ctx (ctx_append fr []) s1))) = false).
  { intros fr. subst s1. cbn. exact Hinline. }
  assert (Hlit : forall t s0, literal t s0
                 = (set_ctx (ctx_append [t] []) s0, Ok tt)).
  { intros t s0. unfold literal, modify. f_equal. destruct s0 as [h c].
    unfold set_ctx, ctx_literal, ctx_append. cbn. now rewrite app_nil_r. }
  assert (Happ : forall f1 f2 s0,
            set_ctx (ctx_append f2 []) (set_ctx (ctx_append f1 []) s0)
            = set_ctx (ctx_append (f1 ++ f2) []) s0).
  { intros f1 f2 s0. destruct s0 as [h c]. unfold set_ctx, ctx_append. cbn.
    now rewrite <- !app_assoc, !app_nil_r. }
  destruct (String.eqb (i_comment i) "") eqn:Ec;
    cbn [negb opt_list map app join_nodes].
  - unfold bind. rewrite !Hsql, !Hlit, !Happ.
    rewrite Hlist by apply Hp1. rewrite !Happ.
    subst s1. destruct s as [h c]. cbn. now rewrite <- ?app_assoc, ?app_nil_r.
  - unfold bind. rewrite !Hsql, !Hlit, !Happ.
    rewrite Hlist by apply Hp1. rewrite !Hlit, !Happ.
    subst s1. destruct s as [h c]. cbn. now rewrite <- ?app_assoc, ?app_nil_r.
Qed.

(** X23.  An alias over an unbound field, from end to end.  When the
    alias is free, the rendering emits the column and " AS `alias`" and
    maps the alias to the name of the field; when it is taken, the same
    fragments are emitted and the ambiguous-alias error is raised,
    leaving the registered name as it was. *)
Theorem alias_of_field_sql (f : Field) (name alias : string) (n : nat)
    (s : rstate)
    (Htab : f_table f = None) (Hname : f_name f = Some name)
    (Hne : name <> "") :
  let emitted :=
    ctx_append ["`" +:+ name +:+ "`"; " AS `" +:+ alias +:+ "`"] []
      (r_ctx s) in
  ctx_sql (S (S n)) (VAlias (VField f) alias) s =
    match c_aliases (r_ctx s) !! alias with
    | None =>
        ({| r_heap := r_heap s; r_ctx := ctx_register alias name emitted |},
         Ok tt)
    | Some _ =>
        ({| r_heap := r_heap s; r_ctx := emitted |},
         Raise (ProgrammingError ("Ambiguous alias: " +:+ alias)))
    end.
Proof.
  cbn zeta. apply String.eqb_neq in Hne.
  assert (Hcol : column f = Ok ("`" +:+ name +:+ "`")).
  { unfold column. now rewrite Hname, Hne. }
  remember (S n) as m eqn:Em. cbn [ctx_sql]. unfold bind at 1.
  rewrite Em, (unbound_field_sql n f _ s Htab Hcol).
  unfold bind at 1, literal at 1, modify at 1.
  unfold Alias_register. cbn [is_Column]. unfold bind, get.
  cbn [r_ctx set_ctx ctx_literal c_aliases].
  unfold realname. rewrite Hname, Hne.
  destruct (c_aliases (r_ctx s) !! alias); unfold raise, modify;
    f_equal; destruct s as [h c]; unfold set_ctx; cbn [r_heap r_ctx];
    f_equal; unfold ctx_register, ctx_literal, ctx_append; cbn;
    f_equal; now rewrite <- ?app_assoc, ?app_nil_r.
Qed.

End EndToEndMore.

Lemma comparison_converts_value_witness :
  ctx_sql (rt := Sample.runtime) 2 (VExpr Sample.a_in_b_loc)
    {| r_heap := (__eq__ (VField Sample.field_a) (VAtom (AStr "7")) ∅).1;
       r_ctx := Context_new |} =
  (set_ctx (ctx_append ["("; "`a`"; " = "; "?"; ")"] [AInt 7])
     {| r_heap := (__eq__ (VField Sample.field_a) (VAtom (AStr "7")) ∅).1;
        r_ctx := Context_new |}, Ok tt).
Proof.
  assert (Hload :
    r_heap {| r_heap := (__eq__ (VField Sample.field_a)
                           (VAtom (AStr "7")) ∅).1;
              r_ctx := Context_new |} !! Sample.a_in_b_loc
    = Some {| lhs := VField Sample.field_a; op := EQ;
              rhs := VAtom (AStr "7"); parens := true;
              strexpr := false |})
    by (vm_compute; reflexivity).
  exact (proj1 (comparison_converts_value (rt := Sample.runtime) 0
                  Sample.a_in_b_loc _ Sample.field_a "`a`" (AStr "7") _
                  Hload eq_refl eq_refl eq_refl eq_refl)
           eq_refl eq_refl).
Defined.

Lemma null_test_sql_witness :
  render (rt := Sample.runtime) 2 (VExpr (fresh (dom (∅ : heap))))
    (__eq__ (VField Sample.field_a) None_ ∅).1 =
  ((__eq__ (VField Sample.field_a) None_ ∅).1, Ok ("(`a` IS ?)", [ANone])).
Proof.
  apply (null_test_sql (rt := Sample.runtime) Sample.field_a "`a`" ∅ 0).
  - reflexivity.
  - reflexivity.
Defined.

Lemma Index_definition_sql_witness :
  ctx_sql (rt := Sample.runtime) 3
    (Index_def {| i_unique := false; i_name := "idx";
                  i_fields := ["`a`"; "`b`"]; i_comment := "" |})
    {| r_heap := ∅; r_ctx := Context_new |} =
  (set_ctx (ctx_append ["KEY"; " "; "`idx`"; " "; "("; "`a`"; ", "; "`b`";
                        ")"] [])
     {| r_heap := ∅; r_ctx := Context_new |}, Ok tt).
Proof.
  apply (Index_definition_sql (rt := Sample.runtime)
           {| i_unique := false; i_name := "idx";
              i_fields := ["`a`"; "`b`"]; i_comment := "" |} 0).
  reflexivity.
Defined.

Lemma alias_of_field_sql_witness :
  ctx_sql (rt := Sample.runtime) 2 (VAlias (VField Sample.field_a) "x")
    {| r_heap := ∅; r_ctx := Context_new |} =
  ({| r_heap := ∅;
      r_ctx := ctx_register "x" "a"
                 (ctx_append ["`a`"; " AS `x`"] [] Context_new) |}, Ok tt).
Proof.
  apply (alias_of_field_sql (rt := Sample.runtime) Sample.field_a "a" "x" 0
           {| r_heap := ∅; r_ctx := Context_new |}).
  - reflexivity.
  - reflexivity.
  - discriminate.
Defined.
